(** * NINE mesh messaging: node relay, message store, admin join and hub relay

    A shallow embedding of
    - [src/services/messageStore.ts]   (class [MessageStore]),
    - [src/services/messageFactory.ts] (class [MessageFactory]),
    - [src/services/meshNetwork.ts]    (class [MeshNetwork]),
    - [src/services/e2eService.ts]     (class [E2EService]),
    - [src/services/broadcastService.ts] (class [BroadcastService]),
    - [electron/main.js]               (the hub: WebSocket relay and HTTP gateway),
    followed by the properties of the mesh protocol that hold, or fail, on them.

    Conventions.
    - [localStorage] is a record with one field per key; a write always
      succeeds and a read returns what was written.
    - [new Date().toISOString()] and [uuidv4()] are arguments ([now], [uuid])
      of the operation that calls them.
    - An [async] function runs as one atomic step: its reads of the store
      happen at the call and nothing else writes the fields it appends to.
    - Everything a node does to the outside (a frame written to the socket, a
      handler called, a timer armed) is appended to its [effects] log. *)

From stdpp Require Import base option list strings gmap.
From Stdlib Require Import ZArith Lia.

#[local] Set Warnings "-clear-no-such-hyp".

Local Open Scope string_scope.
Local Open Scope list_scope.

(** ** Data model ([src/types/message.ts]) *)

Record HopInfo := mkHop { hop_nodeId : string; hop_timestamp : string }.

Record MessageMeta := mkMeta {
  meta_name : option string;
  meta_location : option string;
  meta_contact : option string;
  meta_imageRef : option string }.

Inductive MessageType := broadcast | e2e.

Record MessageEnvelope := mkMessage {
  msg_id : string;
  type : MessageType;
  from : string;
  to : string;
  timestamp : string;
  ttl : Z;                    (* number: an integer, see [isSafeInteger] *)
  hops : list HopInfo;
  payload : string;
  meta : option MessageMeta }.

Record KeyEnvelope := mkKey {
  key_msg_id : string;
  key_from : string;
  key_to : string;
  wrapped_key : string;
  algorithm : string }.

Record DecryptedMessage := mkDecrypted {
  dec_msg_id : string;
  dec_content : string;
  dec_timestamp : string;
  dec_from : string;
  dec_meta : option MessageMeta;
  messagePath : list HopInfo;
  keyPath : list HopInfo }.

Definition MessageType_eqb (a b : MessageType) : bool :=
  match a, b with
  | broadcast, broadcast | e2e, e2e => true
  | _, _ => false
  end.

(** JavaScript truthiness of a string: the empty string is falsy. *)
Definition nonempty (s : string) : bool := negb (String.eqb s "").

(** [ttl] is a JavaScript number.  The application writes integers only (8
    at origin, one less at each forward) and the model takes [ttl] as an
    integer; a fractional ttl, which a frame from the hub could carry, is
    outside it.  Subtraction on JavaScript numbers is the one on [Z] as long
    as the integer is a safe one (Number.isSafeInteger: at most 2^53 - 1 in
    absolute value); statements on ttl arithmetic are made for those. *)
Definition isSafeInteger (z : Z) : bool := (Z.abs z <=? 2 ^ 53 - 1)%Z.

(** ** The persistent store ([MessageStore] and [AdminKeyStore] over
    [localStorage]) *)

Record Store := mkStore {
  broadcasts : list MessageEnvelope;        (* nine_broadcasts *)
  messageMesh : list MessageEnvelope;       (* nine_message_mesh *)
  keyMesh : list KeyEnvelope;               (* nine_key_mesh *)
  decrypted : list DecryptedMessage;        (* nine_decrypted *)
  dedupe : list string;                     (* nine_dedupe *)
  adminMode : bool;                         (* nine_is_admin *)
  adminPrivateKey : option string;          (* nine_admin_private_key *)
  adminPublicKey : option string }.         (* nine_admin_public_key *)

Definition emptyStore : Store := mkStore [] [] [] [] [] false None None.

Definition set_broadcasts (l : list MessageEnvelope) (s : Store) : Store :=
  mkStore l (messageMesh s) (keyMesh s) (decrypted s) (dedupe s)
          (adminMode s) (adminPrivateKey s) (adminPublicKey s).
Definition set_messageMesh (l : list MessageEnvelope) (s : Store) : Store :=
  mkStore (broadcasts s) l (keyMesh s) (decrypted s) (dedupe s)
          (adminMode s) (adminPrivateKey s) (adminPublicKey s).
Definition set_keyMesh (l : list KeyEnvelope) (s : Store) : Store :=
  mkStore (broadcasts s) (messageMesh s) l (decrypted s) (dedupe s)
          (adminMode s) (adminPrivateKey s) (adminPublicKey s).
Definition set_decrypted (l : list DecryptedMessage) (s : Store) : Store :=
  mkStore (broadcasts s) (messageMesh s) (keyMesh s) l (dedupe s)
          (adminMode s) (adminPrivateKey s) (adminPublicKey s).
Definition set_dedupe (l : list string) (s : Store) : Store :=
  mkStore (broadcasts s) (messageMesh s) (keyMesh s) (decrypted s) l
          (adminMode s) (adminPrivateKey s) (adminPublicKey s).

Module MessageStore.

(* broadcasts.push(message); saveToStorage(BROADCAST_KEY, broadcasts) *)
Definition saveBroadcast (message : MessageEnvelope) (s : Store) : Store :=
  set_broadcasts (broadcasts s ++ [message]) s.

Definition saveMessageEnvelope (message : MessageEnvelope) (s : Store) : Store :=
  set_messageMesh (messageMesh s ++ [message]) s.

Definition saveKeyEnvelope (key : KeyEnvelope) (s : Store) : Store :=
  set_keyMesh (keyMesh s ++ [key]) s.

Definition saveDecryptedMessage (message : DecryptedMessage) (s : Store) : Store :=
  set_decrypted (decrypted s ++ [message]) s.

(* Array.prototype.includes on an array of strings *)
Definition includes (msgId : string) (l : list string) : bool :=
  existsb (String.eqb msgId) l.

Definition isDuplicate (msgId : string) (s : Store) : bool :=
  includes msgId (dedupe s).

(* if (!dedupe.includes(msgId)) { dedupe.push(msgId);
     if (dedupe.length > 1000) dedupe.shift(); save } *)
Definition markAsProcessed (msgId : string) (s : Store) : Store :=
  if negb (includes msgId (dedupe s)) then
    let pushed := dedupe s ++ [msgId] in
    let kept := if Nat.ltb 1000 (length pushed) then tail pushed else pushed in
    set_dedupe kept s
  else s.

(* getMessageEnvelopes().find((msg) => msg.msg_id === msgId) *)
Definition getMessageEnvelopeById (msgId : string) (s : Store)
  : option MessageEnvelope :=
  find (fun msg => String.eqb (msg_id msg) msgId) (messageMesh s).

Definition getKeyEnvelopeById (msgId : string) (s : Store) : option KeyEnvelope :=
  find (fun key => String.eqb (key_msg_id key) msgId) (keyMesh s).

Definition clearAll (s : Store) : Store :=
  mkStore [] [] [] [] [] (adminMode s) (adminPrivateKey s) (adminPublicKey s).

End MessageStore.

(** ** [MessageFactory] *)

Module MessageFactory.

Definition DEFAULT_TTL : Z := 8%Z.

Definition createBroadcastMessage (nodeId pseudoId now uuid content : string)
    (m : option MessageMeta) : MessageEnvelope :=
  mkMessage uuid broadcast pseudoId "all" now DEFAULT_TTL
            [mkHop nodeId now] content m.

Definition createE2EMessageEnvelope (nodeId pseudoId now uuid encryptedPayload : string)
    (m : option MessageMeta) : MessageEnvelope :=
  mkMessage uuid e2e pseudoId "admin" now DEFAULT_TTL
            [mkHop nodeId now] encryptedPayload m.

Definition createKeyEnvelope (pseudoId msgId wrappedKey : string) : KeyEnvelope :=
  mkKey msgId pseudoId "admin" wrappedKey "x25519+aes-256-gcm".

(* { ...envelope, ttl: envelope.ttl - 1, hops: [...envelope.hops, {nodeId, now}] } *)
Definition addHop (nodeId now : string) (envelope : MessageEnvelope) : MessageEnvelope :=
  mkMessage (msg_id envelope) (type envelope) (from envelope) (to envelope)
            (timestamp envelope) (ttl envelope - 1)%Z
            (hops envelope ++ [mkHop nodeId now])
            (payload envelope) (meta envelope).

End MessageFactory.

(** ** The crypto library ([CryptoUtils] over libsodium)

    The primitives are taken as given.  A primitive that throws returns
    [None]; the nonce and the ephemeral key pair it draws are inside it. *)

Definition SessionKey := list Byte.byte.

Record CryptoUtils := mkCrypto {
  encryptMessage : string -> SessionKey -> option string;
  decryptMessage : string -> SessionKey -> option string;
  wrapSessionKey : SessionKey -> string -> option string;
  unwrapSessionKey : string -> string -> option SessionKey }.

(** ** The node relay ([MeshNetwork]) and its observers *)

(** The observers this repository registers.  [E2EService] registers one
    message and one key handler (setupMessageListeners); [App] registers one
    of each that only refreshes the view; [ConnectionStatus] registers the
    peer observers. *)
Inductive MessageHandler := E2EService_onMessage | App_onMessage.
Inductive KeyHandler := E2EService_onKeyEnvelope | App_onKeyEnvelope.
Inductive PeerHandler := ConnectionStatus_updateStatus.

(** Frames a node writes to its hub socket. *)
Inductive ClientFrame :=
| Register (peerId : string)
| MeshMessage (envelope : MessageEnvelope)              (* no envelopeType *)
| MeshKey (envelope : KeyEnvelope).                     (* envelopeType: 'key' *)

(** Frames a node reads from its hub socket (ws.onmessage). *)
Inductive ServerFrame :=
| PeerList (peers : list string)
| PeerConnected (peerId : string)
| PeerDisconnected (peerId : string)
| MeshMessageIn (envelope : MessageEnvelope)            (* envelopeType !== 'key' *)
| MeshKeyIn (envelope : KeyEnvelope)                    (* envelopeType === 'key' *)
| UnknownFrame.

Inductive Task := ConnectToServer.

Inductive Effect :=
| WsSend (frame : ClientFrame)
| CallMessageHandler (h : MessageHandler) (message : MessageEnvelope)
| CallKeyHandler (h : KeyHandler) (key : KeyEnvelope)
| CallPeerDiscovered (h : PeerHandler) (peerId : string)
| CallPeerLost (h : PeerHandler) (peerId : string)
| SetTimeout (task : Task) (delay : Z)
| Warn.

Inductive ReadyState := CONNECTING | OPEN | CLOSED.

Record MeshNetwork := mkNode {
  store : Store;                                  (* the localStorage it works on *)
  peers : list string;                            (* Set<string>, insertion order *)
  messageHandlers : list MessageHandler;
  keyHandlers : list KeyHandler;
  peerDiscoveredHandlers : list PeerHandler;
  peerLostHandlers : list PeerHandler;
  nodeId : string;                                (* NodeIdGenerator.getOrCreateNodeId() *)
  pseudoId : string;                              (* NodeIdGenerator.getPseudoId() *)
  ws : option ReadyState;                         (* this.ws and its readyState *)
  reconnectAttempts : nat;
  effects : list Effect }.

Definition maxReconnectAttempts : nat := 10.
Definition reconnectDelay : Z := 3000%Z.

Definition set_store (s : Store) (n : MeshNetwork) : MeshNetwork :=
  mkNode s (peers n) (messageHandlers n) (keyHandlers n) (peerDiscoveredHandlers n)
         (peerLostHandlers n) (nodeId n) (pseudoId n) (ws n) (reconnectAttempts n)
         (effects n).
Definition set_peers (l : list string) (n : MeshNetwork) : MeshNetwork :=
  mkNode (store n) l (messageHandlers n) (keyHandlers n) (peerDiscoveredHandlers n)
         (peerLostHandlers n) (nodeId n) (pseudoId n) (ws n) (reconnectAttempts n)
         (effects n).
Definition set_messageHandlers (l : list MessageHandler) (n : MeshNetwork) : MeshNetwork :=
  mkNode (store n) (peers n) l (keyHandlers n) (peerDiscoveredHandlers n)
         (peerLostHandlers n) (nodeId n) (pseudoId n) (ws n) (reconnectAttempts n)
         (effects n).
Definition set_keyHandlers (l : list KeyHandler) (n : MeshNetwork) : MeshNetwork :=
  mkNode (store n) (peers n) (messageHandlers n) l (peerDiscoveredHandlers n)
         (peerLostHandlers n) (nodeId n) (pseudoId n) (ws n) (reconnectAttempts n)
         (effects n).
Definition set_peerDiscoveredHandlers (l : list PeerHandler) (n : MeshNetwork) : MeshNetwork :=
  mkNode (store n) (peers n) (messageHandlers n) (keyHandlers n) l
         (peerLostHandlers n) (nodeId n) (pseudoId n) (ws n) (reconnectAttempts n)
         (effects n).
Definition set_peerLostHandlers (l : list PeerHandler) (n : MeshNetwork) : MeshNetwork :=
  mkNode (store n) (peers n) (messageHandlers n) (keyHandlers n) (peerDiscoveredHandlers n)
         l (nodeId n) (pseudoId n) (ws n) (reconnectAttempts n) (effects n).
Definition set_ws (w : option ReadyState) (n : MeshNetwork) : MeshNetwork :=
  mkNode (store n) (peers n) (messageHandlers n) (keyHandlers n) (peerDiscoveredHandlers n)
         (peerLostHandlers n) (nodeId n) (pseudoId n) w (reconnectAttempts n)
         (effects n).
Definition set_reconnectAttempts (k : nat) (n : MeshNetwork) : MeshNetwork :=
  mkNode (store n) (peers n) (messageHandlers n) (keyHandlers n) (peerDiscoveredHandlers n)
         (peerLostHandlers n) (nodeId n) (pseudoId n) (ws n) k (effects n).
Definition emit (e : list Effect) (n : MeshNetwork) : MeshNetwork :=
  mkNode (store n) (peers n) (messageHandlers n) (keyHandlers n) (peerDiscoveredHandlers n)
         (peerLostHandlers n) (nodeId n) (pseudoId n) (ws n) (reconnectAttempts n)
         (effects n ++ e).

(** A node that has just been constructed: nothing stored beyond [s], no
    observers, no socket. *)
Definition newNode (s : Store) (nodeId pseudoId : string) : MeshNetwork :=
  mkNode s [] [] [] [] [] nodeId pseudoId None 0 [].

Section Node.

Variable crypto : CryptoUtils.

(** The clock.  Code that reads the clock (`new Date().toISOString()`) takes
    the value read as its argument [now].  The source reads the clock at
    each use - the timestamp and the hop of a new envelope, the hop of a
    forward, the key path of each join - so the reads of one step may
    differ; a step of the model is given one value for them. *)

(** *** [E2EService.tryDecryptMessage] *)
Definition tryDecryptMessage (now : string)
    (messageEnvelope : option MessageEnvelope) (keyEnvelope : option KeyEnvelope)
    (s : Store) : Store :=
  match messageEnvelope, keyEnvelope with
  | None, None => s
  | _, _ =>
    (* messageEnvelope?.msg_id || keyEnvelope?.msg_id *)
    let m1 := from_option msg_id "" messageEnvelope in
    let m2 := from_option key_msg_id "" keyEnvelope in
    let msgId := if nonempty m1 then m1 else m2 in
    if negb (nonempty msgId) then s else
    match MessageStore.getMessageEnvelopeById msgId s,
          MessageStore.getKeyEnvelopeById msgId s with
    | Some storedMessage, Some storedKey =>
      if negb (MessageType_eqb (type storedMessage) e2e)
         || negb (String.eqb (key_to storedKey) "admin")
      then s
      else
        (* try { ... } catch { console.error } *)
        match adminPrivateKey s with
        | Some priv =>
          if nonempty priv then
            match unwrapSessionKey crypto (wrapped_key storedKey) priv with
            | Some sessionKey =>
              match decryptMessage crypto (payload storedMessage) sessionKey with
              | Some decryptedContent =>
                MessageStore.saveDecryptedMessage
                  (mkDecrypted msgId decryptedContent (timestamp storedMessage)
                     (from storedMessage) (meta storedMessage) (hops storedMessage)
                     [mkHop (key_from storedKey) now]) s
              | None => s
              end
            | None => s
            end
          else s
        | None => s
        end
    | _, _ => s
    end
  end.

(** What each registered observer does to the store when it is called. *)
Definition runMessageHandler (now : string) (h : MessageHandler)
    (message : MessageEnvelope) (s : Store) : Store :=
  match h with
  | E2EService_onMessage =>
    if MessageType_eqb (type message) e2e && adminMode s
    then tryDecryptMessage now (Some message) None s else s
  | App_onMessage => s
  end.

Definition runKeyHandler (now : string) (h : KeyHandler)
    (key : KeyEnvelope) (s : Store) : Store :=
  match h with
  | E2EService_onKeyEnvelope =>
    if adminMode s then tryDecryptMessage now None (Some key) s else s
  | App_onKeyEnvelope => s
  end.

(* this.messageHandlers.forEach((handler) => handler(message)) *)
Definition callMessageHandlers (now : string) (message : MessageEnvelope)
    (n : MeshNetwork) : MeshNetwork :=
  fold_left
    (fun n h => emit [CallMessageHandler h message]
                  (set_store (runMessageHandler now h message (store n)) n))
    (messageHandlers n) n.

Definition callKeyHandlers (now : string) (key : KeyEnvelope)
    (n : MeshNetwork) : MeshNetwork :=
  fold_left
    (fun n h => emit [CallKeyHandler h key]
                  (set_store (runKeyHandler now h key (store n)) n))
    (keyHandlers n) n.

(** *** [MeshNetwork] *)

Definition sendToServer (frame : ClientFrame) (n : MeshNetwork) : MeshNetwork :=
  match ws n with
  | Some OPEN => emit [WsSend frame] n
  | _ => emit [Warn] n
  end.

Definition forwardMessageEnvelope (now : string) (message : MessageEnvelope)
    (n : MeshNetwork) : MeshNetwork :=
  let forwarded := MessageFactory.addHop (nodeId n) now message in
  sendToServer (MeshMessage forwarded) n.

Definition handleMessageEnvelope (now : string) (message : MessageEnvelope)
    (n : MeshNetwork) : MeshNetwork :=
  if MessageStore.isDuplicate (msg_id message) (store n) then n
  else
    let n := set_store (MessageStore.markAsProcessed (msg_id message) (store n)) n in
    let n := set_store (MessageStore.saveMessageEnvelope message (store n)) n in
    let n := callMessageHandlers now message n in
    if (0 <? ttl message)%Z then forwardMessageEnvelope now message n else n.

Definition handleKeyEnvelope (now : string) (key : KeyEnvelope)
    (n : MeshNetwork) : MeshNetwork :=
  if MessageStore.isDuplicate (key_msg_id key) (store n) then n
  else
    let n := set_store (MessageStore.markAsProcessed (key_msg_id key) (store n)) n in
    let n := set_store (MessageStore.saveKeyEnvelope key (store n)) n in
    callKeyHandlers now key n.

Definition broadcastMessage (now : string) (message : MessageEnvelope)
    (n : MeshNetwork) : MeshNetwork :=
  let n := set_store (MessageStore.saveMessageEnvelope message (store n)) n in
  let n := callMessageHandlers now message n in
  sendToServer (MeshMessage message) n.

Definition broadcastKeyEnvelope (now : string) (key : KeyEnvelope)
    (n : MeshNetwork) : MeshNetwork :=
  let n := set_store (MessageStore.saveKeyEnvelope key (store n)) n in
  let n := callKeyHandlers now key n in
  sendToServer (MeshKey key) n.

Definition onMessage (h : MessageHandler) (n : MeshNetwork) : MeshNetwork :=
  set_messageHandlers (messageHandlers n ++ [h]) n.
Definition onKeyEnvelope (h : KeyHandler) (n : MeshNetwork) : MeshNetwork :=
  set_keyHandlers (keyHandlers n ++ [h]) n.
Definition onPeerDiscovered (h : PeerHandler) (n : MeshNetwork) : MeshNetwork :=
  set_peerDiscoveredHandlers (peerDiscoveredHandlers n ++ [h]) n.
Definition onPeerLost (h : PeerHandler) (n : MeshNetwork) : MeshNetwork :=
  set_peerLostHandlers (peerLostHandlers n ++ [h]) n.

(* if (!this.peers.has(peerId)) { this.peers.add(peerId); handlers.forEach(...) } *)
Definition discoverPeer (n : MeshNetwork) (peerId : string) : MeshNetwork :=
  if MessageStore.includes peerId (peers n) then n
  else emit (map (fun h => CallPeerDiscovered h peerId) (peerDiscoveredHandlers n))
            (set_peers (peers n ++ [peerId]) n).

Definition losePeer (n : MeshNetwork) (peerId : string) : MeshNetwork :=
  if MessageStore.includes peerId (peers n) then
    emit (map (fun h => CallPeerLost h peerId) (peerLostHandlers n))
         (set_peers (filter (fun p => p ≠ peerId) (peers n)) n)
  else n.

(* const ws = new WebSocket(this.serverUrl); ...; this.ws = ws
   The node is followed through its current socket only. *)
Definition connectToServer (n : MeshNetwork) : MeshNetwork :=
  set_ws (Some CONNECTING) n.

(* ws.onopen: the socket is OPEN by the time the callback runs *)
Definition ws_onopen (n : MeshNetwork) : MeshNetwork :=
  emit [WsSend (Register (nodeId n))]
       (set_reconnectAttempts 0 (set_ws (option_map (fun _ => OPEN) (ws n)) n)).

(* ws.onmessage *)
Definition ws_onmessage (now : string) (frame : ServerFrame)
    (n : MeshNetwork) : MeshNetwork :=
  match frame with
  | PeerList l => fold_left discoverPeer l n
  | PeerConnected p => discoverPeer n p
  | PeerDisconnected p => losePeer n p
  | MeshMessageIn envelope => handleMessageEnvelope now envelope n
  | MeshKeyIn envelope => handleKeyEnvelope now envelope n
  | UnknownFrame => n
  end.

(* ws.onclose: the socket is CLOSED by the time the callback runs *)
Definition ws_onclose (n : MeshNetwork) : MeshNetwork :=
  let n := set_ws (option_map (fun _ => CLOSED) (ws n)) n in
  (* this.peers.clear() *)
  let n := set_peers [] n in
  (* this.peerLostHandlers.forEach((handler) =>
       Array.from(this.peers).forEach((peerId) => handler(peerId))) *)
  let n := emit (flat_map (fun h => map (fun p => CallPeerLost h p) (peers n))
                          (peerLostHandlers n)) n in
  (* this.peers.clear() *)
  let n := set_peers [] n in
  if Nat.ltb (reconnectAttempts n) maxReconnectAttempts then
    emit [SetTimeout ConnectToServer reconnectDelay]
         (set_reconnectAttempts (S (reconnectAttempts n)) n)
  else n.

(* disconnect() *)
Definition disconnect (n : MeshNetwork) : MeshNetwork :=
  set_peers [] (set_ws None n).

(** *** [BroadcastService] *)

(* constructor: this.meshNetwork.initialize() *)
Definition BroadcastService_new (n : MeshNetwork) : MeshNetwork :=
  connectToServer n.

Definition createBroadcast (now uuid content : string) (m : option MessageMeta)
    (n : MeshNetwork) : MeshNetwork * MessageEnvelope :=
  let message :=
    MessageFactory.createBroadcastMessage (nodeId n) (pseudoId n) now uuid content m in
  let n := set_store (MessageStore.saveBroadcast message (store n)) n in
  (broadcastMessage now message n, message).

(** *** [E2EService] *)

(* constructor: this.meshNetwork.initialize(); this.setupMessageListeners() *)
Definition E2EService_new (n : MeshNetwork) : MeshNetwork :=
  onKeyEnvelope E2EService_onKeyEnvelope
    (onMessage E2EService_onMessage (connectToServer n)).

(** [None] when the call throws (no admin public key, or a primitive
    fails); nothing has been written by then. *)
Definition createE2EMessage (now uuid : string) (sessionKey : SessionKey)
    (content : string) (m : option MessageMeta) (n : MeshNetwork)
  : option (MeshNetwork * (MessageEnvelope * KeyEnvelope)) :=
  match adminPublicKey (store n) with
  | Some adminPub =>
    if nonempty adminPub then
      match encryptMessage crypto content sessionKey with
      | Some encryptedPayload =>
        let messageEnvelope :=
          MessageFactory.createE2EMessageEnvelope
            (nodeId n) (pseudoId n) now uuid encryptedPayload m in
        match wrapSessionKey crypto sessionKey adminPub with
        | Some wrappedKey =>
          let keyEnvelope :=
            MessageFactory.createKeyEnvelope (pseudoId n) (msg_id messageEnvelope)
                                             wrappedKey in
          let n := set_store (MessageStore.saveMessageEnvelope messageEnvelope (store n)) n in
          let n := set_store (MessageStore.saveKeyEnvelope keyEnvelope (store n)) n in
          let n := broadcastMessage now messageEnvelope n in
          let n := broadcastKeyEnvelope now keyEnvelope n in
          Some (n, (messageEnvelope, keyEnvelope))
        | None => None
        end
      | None => None
      end
    else None
  | None => None
  end.

(** *** [AdminKeyStore] *)

(* saveAdminKeyPair: both keys, then setAdminMode(true) *)
Definition saveAdminKeyPair (publicKey privateKey : string) (s : Store) : Store :=
  mkStore (broadcasts s) (messageMesh s) (keyMesh s) (decrypted s) (dedupe s)
          true (Some privateKey) (Some publicKey).

(* clearAdminKeys *)
Definition clearAdminKeys (s : Store) : Store :=
  mkStore (broadcasts s) (messageMesh s) (keyMesh s) (decrypted s) (dedupe s)
          false None None.

(** *** Everything that can happen to a node *)

Inductive NodeEvent :=
| NewE2EService
| NewBroadcastService
| OnMessage (h : MessageHandler)
| OnKeyEnvelope (h : KeyHandler)
| OnPeerDiscovered (h : PeerHandler)
| OnPeerLost (h : PeerHandler)
| Connect                                       (* connectToServer, also from a timer *)
| WsOpen
| WsMessage (now : string) (frame : ServerFrame)
| WsClose
| Disconnect
| CreateBroadcast (now uuid content : string) (m : option MessageMeta)
| CreateE2EMessage (now uuid : string) (sessionKey : SessionKey)
                   (content : string) (m : option MessageMeta)
| SaveAdminKeyPair (publicKey privateKey : string)
| ClearAdminKeys
| ClearAll.

Definition node_step (n : MeshNetwork) (e : NodeEvent) : MeshNetwork :=
  match e with
  | NewE2EService => E2EService_new n
  | NewBroadcastService => BroadcastService_new n
  | OnMessage h => onMessage h n
  | OnKeyEnvelope h => onKeyEnvelope h n
  | OnPeerDiscovered h => onPeerDiscovered h n
  | OnPeerLost h => onPeerLost h n
  | Connect => connectToServer n
  | WsOpen => ws_onopen n
  | WsMessage now frame => ws_onmessage now frame n
  | WsClose => ws_onclose n
  | Disconnect => disconnect n
  | CreateBroadcast now uuid content m => (createBroadcast now uuid content m n).1
  | CreateE2EMessage now uuid sessionKey content m =>
    match createE2EMessage now uuid sessionKey content m n with
    | Some (n', _) => n'
    | None => n
    end
  | SaveAdminKeyPair publicKey privateKey =>
    set_store (saveAdminKeyPair publicKey privateKey (store n)) n
  | ClearAdminKeys => set_store (clearAdminKeys (store n)) n
  | ClearAll => set_store (MessageStore.clearAll (store n)) n
  end.

Definition node_run (es : list NodeEvent) (n : MeshNetwork) : MeshNetwork :=
  fold_left node_step es n.

End Node.

(** ** What is observed of a node *)

(** Calls of message handlers with an envelope of id [msgId]. *)
Definition isMessageCall (msgId : string) (e : Effect) : bool :=
  match e with
  | CallMessageHandler _ message => String.eqb (msg_id message) msgId
  | _ => false
  end.

Definition messageHandlerCalls (msgId : string) (n : MeshNetwork) : nat :=
  length (List.filter (isMessageCall msgId) (effects n)).

(** Decrypted messages stored under [msgId]. *)
Definition decryptedFor (msgId : string) (s : Store) : list DecryptedMessage :=
  List.filter (fun d => String.eqb (dec_msg_id d) msgId) (decrypted s).

(** What a step appended to the effects log. *)
Definition newEffects (before after : MeshNetwork) : list Effect :=
  drop (length (effects before)) (effects after).

(** ** The hub ([electron/main.js]: startMeshServer)

    The hub handles JSON values it does not interpret, so its envelopes are
    JSON values here.  Numbers are integers. *)

#[local] Unset Elimination Schemes.
Inductive jsval :=
| JUndefined
| JNull
| JBool (b : bool)
| JNum (z : Z)
| JStr (s : string)
| JArr (items : list jsval)
| JObj (fields : list (string * jsval)).
#[local] Set Elimination Schemes.

(** JavaScript truthiness, as tested by [!x], [x && y] and [x || y]. *)
Definition truthy (v : jsval) : bool :=
  match v with
  | JUndefined | JNull => false
  | JBool b => b
  | JNum z => negb (z =? 0)%Z
  | JStr s => nonempty s
  | JArr _ | JObj _ => true
  end.

(* a || b *)
Definition js_or (a b : jsval) : jsval := if truthy a then a else b.

Module Hub.

(** A parsed frame read from a peer socket. *)
Inductive PeerFrame :=
| register (peerId : string)
| mesh_message_in (envelope envelopeType : jsval)
| other_type
| malformed.                                   (* JSON.parse throws *)

(** A frame written to a peer socket. [envelopeType = JUndefined] is a
    frame without that field. *)
Inductive Frame :=
| peer_connected (peerId : string)
| peer_list (peers : list string)
| peer_disconnected (peerId : string)
| mesh_message (envelope : jsval) (fromPeer : string) (envelopeType : jsval).

Inductive Task := SendToAll (frame : Frame).

(** Sockets are numbered.  [peerIdOf] is the [let peerId] captured by the
    callbacks of each connection ([null] when absent). *)
Record State := mkHub {
  peers : gmap string nat;                     (* const peers = new Map() *)
  peerIdOf : gmap nat string;
  opened : gset nat;                           (* readyState === WebSocket.OPEN *)
  wire : list (nat * Frame);                   (* every ws.send, in order *)
  timers : list (Task * Z) }.                  (* pending setTimeout calls *)

Definition empty : State := mkHub ∅ ∅ ∅ [] [].

Definition set_peers (m : gmap string nat) (st : State) : State :=
  mkHub m (peerIdOf st) (opened st) (wire st) (timers st).
Definition set_peerIdOf (m : gmap nat string) (st : State) : State :=
  mkHub (peers st) m (opened st) (wire st) (timers st).
Definition set_opened (o : gset nat) (st : State) : State :=
  mkHub (peers st) (peerIdOf st) o (wire st) (timers st).
Definition send (frames : list (nat * Frame)) (st : State) : State :=
  mkHub (peers st) (peerIdOf st) (opened st) (wire st ++ frames) (timers st).
Definition set_timers (l : list (Task * Z)) (st : State) : State :=
  mkHub (peers st) (peerIdOf st) (opened st) (wire st) l.

(* peers.forEach((ws, peerId) => {
     if (peerId !== excludePeerId && ws.readyState === WebSocket.OPEN) ws.send(...) }) *)
Definition others (excludePeerId : string) (st : State) : list (string * nat) :=
  filter (λ e, e.1 ≠ excludePeerId ∧ e.2 ∈ opened st) (map_to_list (peers st)).

Definition broadcastToOthers (excludePeerId : string) (message : Frame)
    (st : State) : State :=
  send (map (λ e, (e.2, message)) (others excludePeerId st)) st.

(* peers.forEach((ws) => { if (ws.readyState === WebSocket.OPEN) ws.send(...) }) *)
Definition allOpen (st : State) : list (string * nat) :=
  filter (λ e, e.2 ∈ opened st) (map_to_list (peers st)).

Definition sendToAll (message : Frame) (st : State) : State :=
  send (map (λ e, (e.2, message)) (allOpen st)) st.

(* wss.on('connection', (ws, req) => { let peerId = null; ... }) *)
Definition on_connection (ws : nat) (st : State) : State :=
  set_opened ({[ws]} ∪ opened st) (set_peerIdOf (delete ws (peerIdOf st)) st).

(* ws.on('message', ...) *)
Definition on_message (ws : nat) (message : PeerFrame) (st : State) : State :=
  match message with
  | register peerId =>
    let st := set_peerIdOf (<[ws := peerId]> (peerIdOf st)) st in
    let st := set_peers (<[peerId := ws]> (peers st)) st in
    let st := broadcastToOthers peerId (peer_connected peerId) st in
    let existingPeers := filter (λ id, id ≠ peerId) (map_to_list (peers st)).*1 in
    (* ws.send(...): nothing is written to a socket that is not open *)
    if decide (ws ∈ opened st) then send [(ws, peer_list existingPeers)] st else st
  | mesh_message_in envelope envelopeType =>
    match peerIdOf st !! ws with
    | Some peerId =>
      (* if (envelope && peerId) *)
      if truthy envelope && nonempty peerId
      then broadcastToOthers peerId (mesh_message envelope peerId envelopeType) st
      else st
    | None => st
    end
  | other_type | malformed => st
  end.

(* ws.on('close', ...) *)
Definition on_close (ws : nat) (st : State) : State :=
  let st := set_opened (opened st ∖ {[ws]}) st in
  match peerIdOf st !! ws with
  | Some peerId =>
    if nonempty peerId then
      let st := set_peers (delete peerId (peers st)) st in
      broadcastToOthers peerId (peer_disconnected peerId) st
    else st
  | None => st
  end.

(** *** The gateway: POST /gateway/submit *)

Record Body := mkBody {
  encryptedPayload : jsval;
  wrappedKey : jsval;
  msgId : jsval;
  from : jsval;
  meta : jsval }.

Record Response := mkResponse { status : nat; json : jsval }.

Definition messageEnvelope (now : string) (b : Body) : jsval :=
  JObj [("msg_id", msgId b);
        ("type", JStr "e2e");
        ("from", js_or (from b) (JStr "gateway_user"));
        ("to", JStr "admin");
        ("timestamp", JStr now);
        ("ttl", JNum 8);
        ("hops", JArr [JObj [("nodeId", JStr "gateway"); ("timestamp", JStr now)]]);
        ("payload", encryptedPayload b);
        ("meta", js_or (meta b) (JObj []))].

Definition keyEnvelope (b : Body) : jsval :=
  JObj [("msg_id", msgId b);
        ("from", js_or (from b) (JStr "gateway_user"));
        ("to", JStr "admin");
        ("wrapped_key", wrappedKey b);
        ("algorithm", JStr "x25519+aes-256-gcm")].

Definition gateway_submit (now : string) (b : Body) (st : State) : Response * State :=
  if negb (truthy (encryptedPayload b)) || negb (truthy (wrappedKey b))
     || negb (truthy (msgId b))
  then (mkResponse 400 (JObj [("error", JStr "Missing required fields")]), st)
  else
    let meshMessage := mesh_message (messageEnvelope now b) "gateway" JUndefined in
    let st := sendToAll meshMessage st in
    let keyMessage := mesh_message (keyEnvelope b) "gateway" (JStr "key") in
    let st := set_timers (timers st ++ [(SendToAll keyMessage, 100%Z)]) st in
    (mkResponse 200 (JObj [("success", JBool true); ("msgId", msgId b)]), st).

(** The body of a timer callback, run when the timer fires. *)
Definition run_task (t : Task) (st : State) : State :=
  match t with SendToAll frame => sendToAll frame st end.

Inductive Event :=
| Connection (ws : nat)
| Message (ws : nat) (message : PeerFrame)
| Close (ws : nat)
| Submit (now : string) (b : Body)
| Fire (t : Task).

Definition step (st : State) (e : Event) : State :=
  match e with
  | Connection ws => on_connection ws st
  | Message ws message => on_message ws message st
  | Close ws => on_close ws st
  | Submit now b => (gateway_submit now b st).2
  | Fire t => run_task t st
  end.

Definition run (es : list Event) : State := fold_left step es empty.

(** The peers map and the open registered sockets correspond one to one. *)
Definition one_to_one (st : State) : Prop :=
  forall p w, peers st !! p = Some w <-> peerIdOf st !! w = Some p /\ w ∈ opened st.

(** An event of an orderly run: a socket connects once, registers at most
    once, under a non-empty id that no other socket is bound to, and only
    open sockets send or close. *)
Definition admissible (st : State) (e : Event) : Prop :=
  match e with
  | Connection ws => ws ∉ opened st
  | Message ws (register peerId) =>
    ws ∈ opened st /\ peerIdOf st !! ws = None /\ peers st !! peerId = None /\
    nonempty peerId = true
  | Message ws _ => ws ∈ opened st
  | Close ws => ws ∈ opened st
  | Submit _ _ | Fire _ => True
  end.

Fixpoint orderly (st : State) (es : list Event) : Prop :=
  match es with
  | [] => True
  | e :: es => admissible st e /\ orderly (step st e) es
  end.

(** Two tabs of one browser share a nodeId: sockets 1 and 2 both register
    under "a". *)
Definition twoTabs : State :=
  run [Connection 1; Connection 2; Message 1 (register "a"); Message 2 (register "a")].

(** One socket registers twice, first under "a", then under "b". *)
Definition twice : State :=
  run [Connection 1; Message 1 (register "a"); Message 1 (register "b")].

(** Two sockets, each registered once under its own id. *)
Definition twoPeersEvents : list Event :=
  [Connection 1; Connection 2; Message 1 (register "a"); Message 2 (register "b")].

Definition twoPeers : State := run twoPeersEvents.

Definition hello : jsval := JObj [("msg_id", JStr "m1"); ("payload", JStr "hi")].

End Hub.

(* obj[name] *)
Definition field (name : string) (v : jsval) : jsval :=
  match v with
  | JObj fields =>
    match find (fun f => String.eqb (fst f) name) fields with
    | Some f => snd f
    | None => JUndefined
    end
  | _ => JUndefined
  end.

(** ** Reference forms and scenarios *)

(** The dedupe list after [mark(msgId)], as the design states it: unchanged
    when the id is present, else appended, the oldest entry dropped first when
    the list is full. *)
Definition marked (msgId : string) (d : list string) : list string :=
  if MessageStore.includes msgId d then d
  else if Nat.ltb (length d) 1000 then d ++ [msgId]
  else tail d ++ [msgId].

(** [s'] differs from [s] at most in its [decrypted] list. *)
Definition decrypted_only (s s' : Store) : Prop :=
  broadcasts s' = broadcasts s /\ messageMesh s' = messageMesh s /\
  keyMesh s' = keyMesh s /\ dedupe s' = dedupe s /\
  adminMode s' = adminMode s /\ adminPrivateKey s' = adminPrivateKey s /\
  adminPublicKey s' = adminPublicKey s.

(** What [sendToServer] appends to the log, given the socket. *)
Definition sendEffect (w : option ReadyState) (frame : ClientFrame) : Effect :=
  match w with
  | Some OPEN => WsSend frame
  | _ => Warn
  end.

(** [forwards e e']: some node, handling [e] as an inbound hub frame, writes
    [e'] to its hub socket. *)
Definition forwards (crypto : CryptoUtils) (e e' : MessageEnvelope) : Prop :=
  exists now n,
    In (WsSend (MeshMessage e'))
       (newEffects n (handleMessageEnvelope crypto now e n)).

(** A crypto library for the scenarios: it leaves the text as it is, and
    every key opens every box. *)
Definition plainCrypto : CryptoUtils :=
  mkCrypto (fun content _ => Some content)
           (fun encrypted _ => Some encrypted)
           (fun _ adminPublicKey => Some ("wrapped-for-" ++ adminPublicKey)%string)
           (fun _ _ => Some []).

(** Scenario S4: admin node Z (admin keys saved, one [E2EService], socket
    open) and the pair of envelopes of the message "evacuate" sent by S. *)
Definition adminZ : MeshNetwork :=
  node_run plainCrypto
    [SaveAdminKeyPair "PUB" "PRIV"; NewE2EService; WsOpen]
    (newNode emptyStore "0000000000000000000000000000000f" "user_00000000").

Definition m4 : MessageEnvelope :=
  mkMessage "m4" e2e "user_s" "admin" "t0" 8 [mkHop "s" "t0"] "evacuate" None.

Definition k4 : KeyEnvelope :=
  mkKey "m4" "user_s" "admin" "wrapped-for-PUB" "x25519+aes-256-gcm".

(** Scenario S3: node B (one view observer, socket open) and a broadcast
    that reaches it with ttl = 1. *)
Definition nodeB : MeshNetwork :=
  node_run plainCrypto [OnMessage App_onMessage; Connect; WsOpen]
    (newNode emptyStore "000000000000000000000000000000bb" "user_00000000").

Definition m3 : MessageEnvelope :=
  mkMessage "m3" broadcast "user_a" "all" "t0" 1 [mkHop "a" "t0"] "hi" None.

(** The same broadcast with its budget spent. *)
Definition m3_spent : MessageEnvelope :=
  mkMessage "m3" broadcast "user_a" "all" "t0" 0 [mkHop "a" "t0"] "hi" None.

(** Scenario S1 seen from the originator A: A broadcasts [m1]; peer B relays
    it and the hub hands the relayed copy back to A. *)
Definition nodeA : MeshNetwork :=
  node_run plainCrypto [NewBroadcastService; OnMessage App_onMessage; WsOpen]
    (newNode emptyStore "000000000000000000000000000000aa" "user_00000000").

Definition m1 : MessageEnvelope :=
  MessageFactory.createBroadcastMessage (nodeId nodeA) (pseudoId nodeA) "t0" "m1" "hi" None.

Definition m1_relayed : MessageEnvelope :=
  MessageFactory.addHop "000000000000000000000000000000bb" "t1" m1.

(** A node that knows two peers and has one peer-lost observer. *)
Definition nodeWithPeers : MeshNetwork :=
  node_run plainCrypto
    [OnPeerLost ConnectionStatus_updateStatus; Connect; WsOpen;
     WsMessage "t0" (PeerList ["p1"; "p2"])]
    (newNode emptyStore "000000000000000000000000000000aa" "user_00000000").

(** ** The rest of the node's code *)

(** *** [NodeIdGenerator] ([src/NINE-Dekstop/src/utils/adminKeyGenerator.ts], lines 36-63) *)

Module NodeIdGenerator.

(** A hex digit, as [Number.prototype.toString(16)] writes it. *)
Definition hexDigit (d : N) : string :=
  match d with
  | 0%N => "0" | 1%N => "1" | 2%N => "2" | 3%N => "3"
  | 4%N => "4" | 5%N => "5" | 6%N => "6" | 7%N => "7"
  | 8%N => "8" | 9%N => "9" | 10%N => "a" | 11%N => "b"
  | 12%N => "c" | 13%N => "d" | 14%N => "e" | _ => "f"
  end.

(* byte.toString(16), for 0 <= byte <= 255 *)
Definition toString16 (b : Byte.byte) : string :=
  let n := Byte.to_N b in
  if (n <? 16)%N then hexDigit n
  else (hexDigit (n / 16) ++ hexDigit (n mod 16))%string.

(* s.padStart(2, '0') for a string of one or two characters *)
Definition padStart2 (s : string) : string :=
  if Nat.ltb (String.length s) 2
  then (String.concat "" (replicate (2 - String.length s) "0") ++ s)%string
  else s.

(* Array.from(array, (byte) => byte.toString(16).padStart(2, '0')).join('')
   [array] is what crypto.getRandomValues wrote. *)
Definition generateNodeId (array : list Byte.byte) : string :=
  String.concat "" (map (fun byte => padStart2 (toString16 byte)) array).

(** The static field [nodeId] and the [localStorage] key nine_node_id. *)
Record Ids := mkIds { cachedId : option string; storedId : option string }.

(* if (this.nodeId) return this.nodeId;
   let storedId = localStorage.getItem('nine_node_id');
   if (!storedId) { storedId = this.generateNodeId(); localStorage.setItem(...) }
   this.nodeId = storedId; return storedId          (null and '' are both falsy) *)
Definition getOrCreateNodeId (array : list Byte.byte) (st : Ids) : string * Ids :=
  let cached := default "" (cachedId st) in
  if nonempty cached then (cached, st)
  else
    let stored := default "" (storedId st) in
    if nonempty stored then (stored, mkIds (Some stored) (storedId st))
    else
      let fresh := generateNodeId array in
      (fresh, mkIds (Some fresh) (Some fresh)).

(* `user_${this.getOrCreateNodeId().substring(0, 8)}` *)
Definition getPseudoId (array : list Byte.byte) (st : Ids) : string * Ids :=
  let r := getOrCreateNodeId array st in
  (("user_" ++ String.substring 0 8 r.1)%string, r.2).

End NodeIdGenerator.

(** *** [AdminKeyStore] and [AdminKeyGenerator] *)

Record AdminKeyPair := mkKeyPair { publicKey : string; privateKey : string }.

Module AdminKeyStore.

Definition setAdminMode (isAdmin : bool) (s : Store) : Store :=
  mkStore (broadcasts s) (messageMesh s) (keyMesh s) (decrypted s) (dedupe s)
          isAdmin (adminPrivateKey s) (adminPublicKey s).

Definition isAdminMode (s : Store) : bool := adminMode s.

(* if (!privateKey || !publicKey) return null *)
Definition getAdminKeyPair (s : Store) : option AdminKeyPair :=
  match adminPrivateKey s, adminPublicKey s with
  | Some priv, Some pub =>
    if nonempty priv && nonempty pub then Some (mkKeyPair pub priv) else None
  | _, _ => None
  end.

(* getAdminPrivateKey() !== null && getAdminPublicKey() !== null *)
Definition hasAdminKeys (s : Store) : bool :=
  match adminPrivateKey s, adminPublicKey s with
  | Some _, Some _ => true
  | _, _ => false
  end.

End AdminKeyStore.

Module AdminKeyGenerator.

(** [generated] is the pair [CryptoUtils.generateAdminKeyPair] returns. *)
Definition generateAndStoreAdminKeys (generated : AdminKeyPair) (s : Store)
  : AdminKeyPair * Store :=
  (generated, saveAdminKeyPair (publicKey generated) (privateKey generated) s).

Definition initializeAdminMode (generated : AdminKeyPair) (s : Store)
  : AdminKeyPair * Store :=
  if AdminKeyStore.hasAdminKeys s then
    match AdminKeyStore.getAdminKeyPair s with
    | Some stored => (stored, AdminKeyStore.setAdminMode true s)
    | None => generateAndStoreAdminKeys generated s
    end
  else generateAndStoreAdminKeys generated s.

Definition resetAdminKeys (s : Store) : Store := clearAdminKeys s.

Definition isAdminInitialized (s : Store) : bool :=
  AdminKeyStore.isAdminMode s && AdminKeyStore.hasAdminKeys s.

End AdminKeyGenerator.

(** *** The queries of [E2EService] and [MeshNetwork] *)

(* getMessageEnvelopes().filter((msg) => msg.type === 'e2e') *)
Definition getE2EMessageEnvelopes (s : Store) : list MessageEnvelope :=
  List.filter (fun msg => MessageType_eqb (type msg) e2e) (messageMesh s).

(* message?.hops.map((hop) => hop.nodeId) || [] *)
Definition getMessagePathForId (msgId : string) (s : Store) : list string :=
  match MessageStore.getMessageEnvelopeById msgId s with
  | Some message => map hop_nodeId (hops message)
  | None => []
  end.

(* keyEnvelope ? [keyEnvelope.from] : [] *)
Definition getKeyPathForId (msgId : string) (s : Store) : list string :=
  match MessageStore.getKeyEnvelopeById msgId s with
  | Some keyEnvelope => [key_from keyEnvelope]
  | None => []
  end.

Definition canDecryptMessages (s : Store) : bool :=
  AdminKeyStore.isAdminMode s && AdminKeyStore.hasAdminKeys s.

(* this.ws !== null && this.ws.readyState === WebSocket.OPEN *)
Definition isConnected (n : MeshNetwork) : bool :=
  match ws n with Some OPEN => true | _ => false end.

Definition getPeers (n : MeshNetwork) : list string := peers n.

(** ** What the further properties speak of *)

Definition isWsSend (e : Effect) : bool :=
  match e with WsSend _ => true | _ => false end.

Definition isSetTimeout (e : Effect) : bool :=
  match e with SetTimeout _ _ => true | _ => false end.

Definition isE2EMessageHandler (h : MessageHandler) : bool :=
  match h with E2EService_onMessage => true | App_onMessage => false end.

Definition isE2EKeyHandler (h : KeyHandler) : bool :=
  match h with E2EService_onKeyEnvelope => true | App_onKeyEnvelope => false end.

(** Events that put admin keys into the store. *)
Definition savesAdminKeys (e : NodeEvent) : bool :=
  match e with SaveAdminKeyPair _ _ => true | _ => false end.

(** The ids under which the logs hold an envelope. *)
Definition loggedIds (s : Store) : list string :=
  map msg_id (messageMesh s) ++ map key_msg_id (keyMesh s).

(** A broadcast this node made itself. *)
Definition ownBroadcast (nodeId pseudoId : string) (m : MessageEnvelope) : Prop :=
  type m = broadcast /\ to m = "all" /\ from m = pseudoId /\
  ttl m = MessageFactory.DEFAULT_TTL /\
  exists t, hops m = [mkHop nodeId t].

(** The lower-case hex characters. *)
Definition isHexChar (c : Ascii.ascii) : bool :=
  let n := Ascii.N_of_ascii c in
  ((48 <=? n) && (n <=? 57) || (97 <=? n) && (n <=? 102))%N.

Fixpoint allChars (p : Ascii.ascii -> bool) (s : string) : bool :=
  match s with
  | EmptyString => true
  | String c rest => p c && allChars p rest
  end.

(** Scenario data for the further properties. *)
Definition sixteenBytes : list Byte.byte :=
  [Byte.x00; Byte.x01; Byte.x0a; Byte.x0f; Byte.x10; Byte.x7f; Byte.x80; Byte.xff;
   Byte.xde; Byte.xad; Byte.xbe; Byte.xef; Byte.x12; Byte.x34; Byte.x56; Byte.x78].

Definition plainNode : MeshNetwork :=
  node_run plainCrypto
    [NewE2EService; OnMessage App_onMessage; OnPeerDiscovered ConnectionStatus_updateStatus;
     OnPeerLost ConnectionStatus_updateStatus; WsOpen]
    (newNode emptyStore "000000000000000000000000000000cc" "user_00000000").

(** [n'] differs from [n] at most in its store and its effects log. *)
Definition same_shell (n n' : MeshNetwork) : Prop :=
  peers n' = peers n /\ messageHandlers n' = messageHandlers n /\
  keyHandlers n' = keyHandlers n /\
  peerDiscoveredHandlers n' = peerDiscoveredHandlers n /\
  peerLostHandlers n' = peerLostHandlers n /\
  nodeId n' = nodeId n /\ pseudoId n' = pseudoId n /\
  ws n' = ws n /\ reconnectAttempts n' = reconnectAttempts n.

Definition noSend (l : list Effect) : Prop :=
  Forall (fun e => isWsSend e = false) l.

(** What one event writes into the logs, up to the decrypted messages the
    observers add. *)
Inductive logged (n : MeshNetwork) : Store -> Prop :=
| logged_nothing : logged n (store n)
| logged_inbound_message (m : MessageEnvelope) :
    logged n (MessageStore.saveMessageEnvelope m
                (MessageStore.markAsProcessed (msg_id m) (store n)))
| logged_inbound_key (k : KeyEnvelope) :
    logged n (MessageStore.saveKeyEnvelope k
                (MessageStore.markAsProcessed (key_msg_id k) (store n)))
| logged_own_broadcast (now uuid content : string) (mm : option MessageMeta) :
    logged n
      (MessageStore.saveMessageEnvelope
         (MessageFactory.createBroadcastMessage (nodeId n) (pseudoId n) now uuid content mm)
         (MessageStore.saveBroadcast
            (MessageFactory.createBroadcastMessage (nodeId n) (pseudoId n)
               now uuid content mm)
            (store n)))
| logged_own_e2e (me : MessageEnvelope) (ke : KeyEnvelope) :
    logged n
      (MessageStore.saveKeyEnvelope ke
         (MessageStore.saveMessageEnvelope me
            (MessageStore.saveKeyEnvelope ke
               (MessageStore.saveMessageEnvelope me (store n)))))
| logged_admin_keys (pub priv : string) :
    logged n (saveAdminKeyPair pub priv (store n))
| logged_admin_cleared : logged n (clearAdminKeys (store n))
| logged_cleared : logged n (MessageStore.clearAll (store n)).

(** The store of an admin holds the pair [me], [ke] under [msgId] and the
    admin key opens it to [content]. *)
Definition joinable (crypto : CryptoUtils) (msgId content : string)
    (me : MessageEnvelope) (ke : KeyEnvelope) (s : Store) : Prop :=
  adminMode s = true /\
  (exists priv sk,
     adminPrivateKey s = Some priv /\ nonempty priv = true /\
     unwrapSessionKey crypto (wrapped_key ke) priv = Some sk /\
     decryptMessage crypto (payload me) sk = Some content) /\
  MessageStore.getMessageEnvelopeById msgId s = Some me /\
  MessageStore.getKeyEnvelopeById msgId s = Some ke /\
  type me = e2e /\ key_to ke = "admin" /\ nonempty msgId = true.

(** The decrypted message the join builds from a pair. *)
Definition joined (msgId content now : string)
    (me : MessageEnvelope) (ke : KeyEnvelope) : DecryptedMessage :=
  mkDecrypted msgId content (timestamp me) (from me) (meta me) (hops me)
              [mkHop (key_from ke) now].

(** The msg_id a call of [tryDecryptMessage] works on
    (messageEnvelope?.msg_id || keyEnvelope?.msg_id). *)
Definition joinId (mo : option MessageEnvelope) (ko : option KeyEnvelope) : string :=
  let m1 := from_option msg_id "" mo in
  if nonempty m1 then m1 else from_option key_msg_id "" ko.

(** [s'] is a later state of [s] as far as a join can tell: both logs have
    only grown at their end and the admin private key is the same. *)
Definition grown (s s' : Store) : Prop :=
  (exists l, messageMesh s' = messageMesh s ++ l) /\
  (exists l, keyMesh s' = keyMesh s ++ l) /\
  adminPrivateKey s' = adminPrivateKey s.

(** The store of Z once both envelopes of the pair are in its logs. *)
Definition pairLogged : Store :=
  MessageStore.saveKeyEnvelope k4 (MessageStore.saveMessageEnvelope m4 (store adminZ)).

(** Node B of scenario S3 while its socket is still connecting. *)
Definition nodeB_connecting : MeshNetwork :=
  node_run plainCrypto [OnMessage App_onMessage; Connect]
    (newNode emptyStore "000000000000000000000000000000bb" "user_00000000").

(** A third socket connects to the hub of [Hub.twoPeers]. *)
Definition threeSockets : Hub.State := Hub.on_connection 3 Hub.twoPeers.

(** A node without admin keys that has seen traffic. *)
Definition bystanderEvents : list NodeEvent :=
  [NewE2EService; WsOpen; WsMessage "t1" (MeshMessageIn m4);
   WsMessage "t2" (MeshKeyIn k4); CreateBroadcast "t3" "m9" "hello" None].

(** The newest [cap] entries of a list that grows at its end. *)
Definition keepLast (cap : nat) (l : list string) : list string :=
  drop (length l - cap) l.

(** * Properties of the message store *)

Section StoreFacts.

Import MessageStore.

Lemma includes_true (msgId : string) (l : list string) :
  includes msgId l = true <-> In msgId l.
Proof.
  unfold includes. rewrite existsb_exists. split.
  - intros (x & Hin & Heq). apply String.eqb_eq in Heq. now subst.
  - intros Hin. exists msgId. split; [assumption | apply String.eqb_refl].
Qed.

Lemma includes_app (msgId : string) (l1 l2 : list string) :
  includes msgId (l1 ++ l2) = includes msgId l1 || includes msgId l2.
Proof. unfold includes. apply existsb_app. Qed.

Lemma tail_snoc {A} (l : list A) (x : A) :
  l <> [] -> tail (l ++ [x]) = tail l ++ [x].
Proof. destruct l; [congruence | reflexivity]. Qed.

Lemma markAsProcessed_dedupe (msgId : string) (s : Store) :
  dedupe (markAsProcessed msgId s) = marked msgId (dedupe s).
Proof.
  unfold markAsProcessed, marked.
  destruct (includes msgId (dedupe s)); simpl; [reflexivity |].
  rewrite length_app. simpl.
  destruct (Nat.ltb_spec 1000 (length (dedupe s) + 1)) as [Hgt | Hle];
    destruct (Nat.ltb_spec (length (dedupe s)) 1000) as [Hlt | Hge];
    try lia; try reflexivity.
  apply tail_snoc. intros Hnil. rewrite Hnil in Hge. simpl in Hge. lia.
Qed.

Lemma marked_length (msgId : string) (d : list string) :
  length d <= 1000 -> length (marked msgId d) <= 1000.
Proof.
  intros Hd. unfold marked.
  destruct (includes msgId d); [assumption |].
  destruct (Nat.ltb_spec (length d) 1000) as [Hlt | Hge].
  - rewrite length_app. simpl. lia.
  - rewrite length_app. simpl.
    destruct d; simpl in *; lia.
Qed.

Lemma marked_includes (msgId : string) (d : list string) :
  includes msgId (marked msgId d) = true.
Proof.
  unfold marked. destruct (includes msgId d) eqn:Hin; [assumption |].
  destruct (Nat.ltb (length d) 1000); rewrite includes_app; simpl;
    rewrite String.eqb_refl; apply orb_true_iff; right; reflexivity.
Qed.

Lemma isDuplicate_markAsProcessed (msgId : string) (s : Store) :
  isDuplicate msgId (markAsProcessed msgId s) = true.
Proof.
  unfold isDuplicate. rewrite markAsProcessed_dedupe. apply marked_includes.
Qed.

Lemma markAsProcessed_bound (msgId : string) (s : Store) :
  length (dedupe s) <= 1000 -> length (dedupe (markAsProcessed msgId s)) <= 1000.
Proof. rewrite markAsProcessed_dedupe. apply marked_length. Qed.

End StoreFacts.

(** * Properties of the observers and of the node relay *)

Section NodeFacts.

Variable crypto : CryptoUtils.

Lemma decrypted_only_refl (s : Store) : decrypted_only s s.
Proof. repeat split. Qed.

Lemma decrypted_only_trans (s1 s2 s3 : Store) :
  decrypted_only s1 s2 -> decrypted_only s2 s3 -> decrypted_only s1 s3.
Proof. unfold decrypted_only. intuition congruence. Qed.

Lemma saveDecryptedMessage_only (d : DecryptedMessage) (s : Store) :
  decrypted_only s (MessageStore.saveDecryptedMessage d s).
Proof. repeat split. Qed.

(** One call of the join appends at most one decrypted message, stored under
    the id it was called for, and writes nothing else. *)
Lemma tryDecryptMessage_appends now mo ko (s : Store) :
  decrypted_only s (tryDecryptMessage crypto now mo ko s) /\
  exists l, decrypted (tryDecryptMessage crypto now mo ko s) = decrypted s ++ l /\
            length l <= 1 /\
            forall d, In d l ->
              dec_msg_id d = (if nonempty (from_option msg_id "" mo)
                              then from_option msg_id "" mo
                              else from_option key_msg_id "" ko).
Proof.
  assert (Hsame : decrypted_only s s /\
                  exists l, decrypted s = decrypted s ++ l /\ length l <= 1 /\
                  forall d, In d l ->
                    dec_msg_id d = (if nonempty (from_option msg_id "" mo)
                                    then from_option msg_id "" mo
                                    else from_option key_msg_id "" ko)).
  { split; [apply decrypted_only_refl |].
    exists []. rewrite app_nil_r. simpl. repeat split; [lia | tauto]. }
  unfold tryDecryptMessage.
  repeat case_match; try exact Hsame.
  all: split; [apply saveDecryptedMessage_only |].
  all: eexists [_]; simpl; repeat split; [lia |].
  all: intros d [<- | []]; simpl; simplify_eq/=; reflexivity.
Qed.

Lemma runMessageHandler_appends now h m (s : Store) :
  decrypted_only s (runMessageHandler crypto now h m s) /\
  exists l, decrypted (runMessageHandler crypto now h m s) = decrypted s ++ l /\
            length l <= 1 /\ forall d, In d l -> nonempty (dec_msg_id d) = true.
Proof.
  assert (Hsame : decrypted_only s s /\
            exists l, decrypted s = decrypted s ++ l /\ length l <= 1 /\
                      forall d, In d l -> nonempty (dec_msg_id d) = true).
  { split; [apply decrypted_only_refl |]. exists []. rewrite app_nil_r.
    simpl. repeat split; [lia | tauto]. }
  unfold runMessageHandler, tryDecryptMessage.
  repeat case_match; try exact Hsame.
  all: split; [apply saveDecryptedMessage_only |].
  all: eexists [_]; simpl; repeat split; [lia |].
  all: intros d [<- | []]; simpl; simplify_eq/=.
  all: match goal with H : negb _ = false |- _ =>
         apply negb_false_iff in H; exact H end.
Qed.

Lemma runKeyHandler_appends now h k (s : Store) :
  decrypted_only s (runKeyHandler crypto now h k s) /\
  exists l, decrypted (runKeyHandler crypto now h k s) = decrypted s ++ l /\
            length l <= 1 /\ forall d, In d l -> nonempty (dec_msg_id d) = true.
Proof.
  assert (Hsame : decrypted_only s s /\
            exists l, decrypted s = decrypted s ++ l /\ length l <= 1 /\
                      forall d, In d l -> nonempty (dec_msg_id d) = true).
  { split; [apply decrypted_only_refl |]. exists []. rewrite app_nil_r.
    simpl. repeat split; [lia | tauto]. }
  unfold runKeyHandler, tryDecryptMessage.
  repeat case_match; try exact Hsame.
  all: split; [apply saveDecryptedMessage_only |].
  all: eexists [_]; simpl; repeat split; [lia |].
  all: intros d [<- | []]; simpl; simplify_eq/=.
  all: match goal with H : negb _ = false |- _ =>
         apply negb_false_iff in H; exact H end.
Qed.

Lemma fold_message_handlers_only now m hs (s : Store) :
  decrypted_only s (fold_left (fun s h => runMessageHandler crypto now h m s) hs s).
Proof.
  revert s. induction hs as [| h hs IH]; intros s; simpl.
  - apply decrypted_only_refl.
  - eapply decrypted_only_trans; [| apply IH].
    apply runMessageHandler_appends.
Qed.

Lemma fold_key_handlers_only now k hs (s : Store) :
  decrypted_only s (fold_left (fun s h => runKeyHandler crypto now h k s) hs s).
Proof.
  revert s. induction hs as [| h hs IH]; intros s; simpl.
  - apply decrypted_only_refl.
  - eapply decrypted_only_trans; [| apply IH].
    apply runKeyHandler_appends.
Qed.

(** The observer loops, with the store and the log taken apart. *)
Lemma callMessageHandlers_eq now m (n : MeshNetwork) :
  callMessageHandlers crypto now m n =
  emit (map (fun h => CallMessageHandler h m) (messageHandlers n))
       (set_store (fold_left (fun s h => runMessageHandler crypto now h m s)
                             (messageHandlers n) (store n)) n).
Proof.
  unfold callMessageHandlers.
  generalize (messageHandlers n) as hs. intros hs. revert n.
  induction hs as [| h hs IH]; intros n; simpl.
  - destruct n. unfold emit, set_store. simpl. now rewrite app_nil_r.
  - rewrite IH. unfold emit, set_store. simpl. now rewrite <- app_assoc.
Qed.

Lemma callKeyHandlers_eq now k (n : MeshNetwork) :
  callKeyHandlers crypto now k n =
  emit (map (fun h => CallKeyHandler h k) (keyHandlers n))
       (set_store (fold_left (fun s h => runKeyHandler crypto now h k s)
                             (keyHandlers n) (store n)) n).
Proof.
  unfold callKeyHandlers.
  generalize (keyHandlers n) as hs. intros hs. revert n.
  induction hs as [| h hs IH]; intros n; simpl.
  - destruct n. unfold emit, set_store. simpl. now rewrite app_nil_r.
  - rewrite IH. unfold emit, set_store. simpl. now rewrite <- app_assoc.
Qed.

Lemma sendToServer_store frame (n : MeshNetwork) :
  store (sendToServer frame n) = store n.
Proof. unfold sendToServer. repeat case_match; reflexivity. Qed.

Lemma sendToServer_effects frame (n : MeshNetwork) :
  effects (sendToServer frame n) =
  effects n ++ [match ws n with Some OPEN => WsSend frame | _ => Warn end].
Proof. unfold sendToServer. repeat case_match; reflexivity. Qed.

Lemma sendToServer_messageHandlers frame (n : MeshNetwork) :
  messageHandlers (sendToServer frame n) = messageHandlers n.
Proof. unfold sendToServer. repeat case_match; reflexivity. Qed.

Lemma sendToServer_keyHandlers frame (n : MeshNetwork) :
  keyHandlers (sendToServer frame n) = keyHandlers n.
Proof. unfold sendToServer. repeat case_match; reflexivity. Qed.

Lemma broadcastMessage_store now m (n : MeshNetwork) :
  store (broadcastMessage crypto now m n) =
  fold_left (fun s h => runMessageHandler crypto now h m s) (messageHandlers n)
            (MessageStore.saveMessageEnvelope m (store n)).
Proof.
  unfold broadcastMessage. rewrite sendToServer_store, callMessageHandlers_eq.
  reflexivity.
Qed.

Lemma broadcastKeyEnvelope_store now k (n : MeshNetwork) :
  store (broadcastKeyEnvelope crypto now k n) =
  fold_left (fun s h => runKeyHandler crypto now h k s) (keyHandlers n)
            (MessageStore.saveKeyEnvelope k (store n)).
Proof.
  unfold broadcastKeyEnvelope. rewrite sendToServer_store, callKeyHandlers_eq.
  reflexivity.
Qed.

Lemma broadcastMessage_keyHandlers now m (n : MeshNetwork) :
  keyHandlers (broadcastMessage crypto now m n) = keyHandlers n.
Proof.
  unfold broadcastMessage.
  rewrite sendToServer_keyHandlers, callMessageHandlers_eq. reflexivity.
Qed.

Lemma broadcastMessage_logs now m (n : MeshNetwork) :
  messageMesh (store (broadcastMessage crypto now m n)) = messageMesh (store n) ++ [m] /\
  keyMesh (store (broadcastMessage crypto now m n)) = keyMesh (store n) /\
  dedupe (store (broadcastMessage crypto now m n)) = dedupe (store n).
Proof.
  rewrite broadcastMessage_store.
  destruct (fold_message_handlers_only now m (messageHandlers n)
              (MessageStore.saveMessageEnvelope m (store n)))
    as (_ & Hm & Hk & Hd & _).
  rewrite Hm, Hk, Hd. repeat split.
Qed.

Lemma broadcastKeyEnvelope_logs now k (n : MeshNetwork) :
  messageMesh (store (broadcastKeyEnvelope crypto now k n)) = messageMesh (store n) /\
  keyMesh (store (broadcastKeyEnvelope crypto now k n)) = keyMesh (store n) ++ [k] /\
  dedupe (store (broadcastKeyEnvelope crypto now k n)) = dedupe (store n).
Proof.
  rewrite broadcastKeyEnvelope_store.
  destruct (fold_key_handlers_only now k (keyHandlers n)
              (MessageStore.saveKeyEnvelope k (store n)))
    as (_ & Hm & Hk & Hd & _).
  rewrite Hm, Hk, Hd. repeat split.
Qed.

Lemma createE2EMessage_logs now uuid sessionKey content m
    (n n' : MeshNetwork) (messageEnvelope : MessageEnvelope) (keyEnvelope : KeyEnvelope) :
  createE2EMessage crypto now uuid sessionKey content m n
    = Some (n', (messageEnvelope, keyEnvelope)) ->
  messageMesh (store n') = messageMesh (store n) ++ [messageEnvelope; messageEnvelope] /\
  keyMesh (store n') = keyMesh (store n) ++ [keyEnvelope; keyEnvelope] /\
  msg_id messageEnvelope = uuid /\ key_msg_id keyEnvelope = uuid /\
  dedupe (store n') = dedupe (store n).
Proof.
  unfold createE2EMessage. intros H.
  repeat case_match; try discriminate. simplify_eq.
  match goal with |- context [broadcastKeyEnvelope _ _ ?k (broadcastMessage _ _ ?me ?y)] =>
    destruct (broadcastKeyEnvelope_logs now k (broadcastMessage crypto now me y))
      as (Hm2 & Hk2 & Hd2);
    destruct (broadcastMessage_logs now me y) as (Hm1 & Hk1 & Hd1)
  end.
  rewrite Hm2, Hk2, Hd2, Hm1, Hk1, Hd1. simpl.
  rewrite <- !app_assoc. repeat split.
Qed.

(** C10. A successful [createE2EMessage] on the originating node appends the
    new message envelope to the messageMesh log twice and the new key envelope
    to the keyMesh log twice (its own save, then the save inside
    [broadcastMessage] / [broadcastKeyEnvelope]); the two copies are equal and
    the dedupe store is not written, so the id is not marked. *)
Theorem createE2EMessage_saves_twice now uuid sessionKey content m
    (n n' : MeshNetwork) (messageEnvelope : MessageEnvelope) (keyEnvelope : KeyEnvelope) :
  createE2EMessage crypto now uuid sessionKey content m n
    = Some (n', (messageEnvelope, keyEnvelope)) ->
  messageMesh (store n') = messageMesh (store n) ++ [messageEnvelope; messageEnvelope] /\
  keyMesh (store n') = keyMesh (store n) ++ [keyEnvelope; keyEnvelope] /\
  msg_id messageEnvelope = uuid /\ key_msg_id keyEnvelope = uuid /\
  dedupe (store n') = dedupe (store n) /\
  MessageStore.isDuplicate uuid (store n') = MessageStore.isDuplicate uuid (store n).
Proof.
  intros H.
  destruct (createE2EMessage_logs _ _ _ _ _ _ _ _ _ H) as (Hm & Hk & Hi & Hj & Hd).
  unfold MessageStore.isDuplicate. rewrite Hd. repeat split; assumption.
Qed.

End NodeFacts.

Section RelayFacts.

Variable crypto : CryptoUtils.

Lemma handleMessageEnvelope_duplicate now m (n : MeshNetwork) :
  MessageStore.isDuplicate (msg_id m) (store n) = true ->
  handleMessageEnvelope crypto now m n = n.
Proof. unfold handleMessageEnvelope. now intros ->. Qed.

Lemma handleKeyEnvelope_duplicate now k (n : MeshNetwork) :
  MessageStore.isDuplicate (key_msg_id k) (store n) = true ->
  handleKeyEnvelope crypto now k n = n.
Proof. unfold handleKeyEnvelope. now intros ->. Qed.

Lemma handleMessageEnvelope_store now m (n : MeshNetwork) :
  MessageStore.isDuplicate (msg_id m) (store n) = false ->
  store (handleMessageEnvelope crypto now m n) =
  fold_left (fun s h => runMessageHandler crypto now h m s) (messageHandlers n)
    (MessageStore.saveMessageEnvelope m
       (MessageStore.markAsProcessed (msg_id m) (store n))).
Proof.
  unfold handleMessageEnvelope, forwardMessageEnvelope. intros ->.
  case_match; rewrite ?sendToServer_store, callMessageHandlers_eq; reflexivity.
Qed.

Lemma handleKeyEnvelope_store now k (n : MeshNetwork) :
  MessageStore.isDuplicate (key_msg_id k) (store n) = false ->
  store (handleKeyEnvelope crypto now k n) =
  fold_left (fun s h => runKeyHandler crypto now h k s) (keyHandlers n)
    (MessageStore.saveKeyEnvelope k
       (MessageStore.markAsProcessed (key_msg_id k) (store n))).
Proof.
  unfold handleKeyEnvelope. intros ->.
  rewrite callKeyHandlers_eq; reflexivity.
Qed.

Lemma handleMessageEnvelope_effects now m (n : MeshNetwork) :
  MessageStore.isDuplicate (msg_id m) (store n) = false ->
  effects (handleMessageEnvelope crypto now m n) =
  effects n ++ map (fun h => CallMessageHandler h m) (messageHandlers n)
            ++ (if (0 <? ttl m)%Z
                then [sendEffect (ws n) (MeshMessage (MessageFactory.addHop (nodeId n) now m))]
                else []).
Proof.
  unfold handleMessageEnvelope, forwardMessageEnvelope. intros ->.
  case_match.
  - rewrite sendToServer_effects, callMessageHandlers_eq. simpl.
    now rewrite <- app_assoc.
  - rewrite callMessageHandlers_eq. simpl. now rewrite app_nil_r.
Qed.

Lemma broadcastMessage_effects now m (n : MeshNetwork) :
  effects (broadcastMessage crypto now m n) =
  effects n ++ map (fun h => CallMessageHandler h m) (messageHandlers n)
            ++ [sendEffect (ws n) (MeshMessage m)].
Proof.
  unfold broadcastMessage.
  rewrite sendToServer_effects, callMessageHandlers_eq. simpl.
  now rewrite <- app_assoc.
Qed.

Lemma broadcastMessage_messageHandlers now m (n : MeshNetwork) :
  messageHandlers (broadcastMessage crypto now m n) = messageHandlers n.
Proof.
  unfold broadcastMessage.
  rewrite sendToServer_messageHandlers, callMessageHandlers_eq. reflexivity.
Qed.

(** Both inbound handlers leave the id marked. *)
Lemma handleMessageEnvelope_marks now m (n : MeshNetwork) :
  MessageStore.isDuplicate (msg_id m) (store (handleMessageEnvelope crypto now m n)) = true.
Proof.
  destruct (MessageStore.isDuplicate (msg_id m) (store n)) eqn:Hdup.
  - now rewrite handleMessageEnvelope_duplicate.
  - rewrite handleMessageEnvelope_store by assumption.
    unfold MessageStore.isDuplicate.
    destruct (fold_message_handlers_only crypto now m (messageHandlers n)
                (MessageStore.saveMessageEnvelope m
                   (MessageStore.markAsProcessed (msg_id m) (store n))))
      as (_ & _ & _ & -> & _).
    apply isDuplicate_markAsProcessed.
Qed.

Lemma handleKeyEnvelope_marks now k (n : MeshNetwork) :
  MessageStore.isDuplicate (key_msg_id k) (store (handleKeyEnvelope crypto now k n)) = true.
Proof.
  destruct (MessageStore.isDuplicate (key_msg_id k) (store n)) eqn:Hdup.
  - now rewrite handleKeyEnvelope_duplicate.
  - rewrite handleKeyEnvelope_store by assumption.
    unfold MessageStore.isDuplicate.
    destruct (fold_key_handlers_only crypto now k (keyHandlers n)
                (MessageStore.saveKeyEnvelope k
                   (MessageStore.markAsProcessed (key_msg_id k) (store n))))
      as (_ & _ & _ & -> & _).
    apply isDuplicate_markAsProcessed.
Qed.

(** Without the other envelope of the pair in the log, an observer stores
    nothing. *)
Lemma runMessageHandler_no_key now h m (s : Store) :
  MessageStore.getKeyEnvelopeById (msg_id m) s = None ->
  runMessageHandler crypto now h m s = s.
Proof.
  intros Hk. unfold runMessageHandler, tryDecryptMessage. simpl.
  destruct h; [| reflexivity].
  destruct (nonempty (msg_id m)) eqn:Hne; simpl.
  - rewrite Hne. simpl. rewrite Hk. now repeat case_match.
  - now repeat case_match.
Qed.

Lemma runKeyHandler_no_message now h k (s : Store) :
  MessageStore.getMessageEnvelopeById (key_msg_id k) s = None ->
  runKeyHandler crypto now h k s = s.
Proof.
  intros Hm. unfold runKeyHandler, tryDecryptMessage. simpl.
  destruct h; [| reflexivity].
  rewrite Hm. now repeat case_match.
Qed.

Lemma fold_message_handlers_no_key now m hs (s : Store) :
  MessageStore.getKeyEnvelopeById (msg_id m) s = None ->
  fold_left (fun s h => runMessageHandler crypto now h m s) hs s = s.
Proof.
  intros Hk. induction hs as [| h hs IH]; simpl; [reflexivity |].
  now rewrite runMessageHandler_no_key.
Qed.

Lemma fold_key_handlers_no_message now k hs (s : Store) :
  MessageStore.getMessageEnvelopeById (key_msg_id k) s = None ->
  fold_left (fun s h => runKeyHandler crypto now h k s) hs s = s.
Proof.
  intros Hm. induction hs as [| h hs IH]; simpl; [reflexivity |].
  now rewrite runKeyHandler_no_message.
Qed.

End RelayFacts.

Section RelayClaims.

Variable crypto : CryptoUtils.

Lemma markAsProcessed_logs msgId (s : Store) :
  messageMesh (MessageStore.markAsProcessed msgId s) = messageMesh s /\
  keyMesh (MessageStore.markAsProcessed msgId s) = keyMesh s /\
  decrypted (MessageStore.markAsProcessed msgId s) = decrypted s.
Proof. unfold MessageStore.markAsProcessed. now case_match. Qed.

(** C1 (what the code does). An admin node that holds neither envelope of a
    pair and receives both from the hub stores no decrypted message, in either
    order of arrival: the first envelope marks the shared msg_id, the second
    one is dropped as a duplicate before it is saved, so the join never sees
    both. *)
Theorem second_envelope_of_pair_dropped now1 now2 (n : MeshNetwork)
    (message : MessageEnvelope) (key : KeyEnvelope) :
  key_msg_id key = msg_id message ->
  MessageStore.getMessageEnvelopeById (msg_id message) (store n) = None ->
  MessageStore.getKeyEnvelopeById (msg_id message) (store n) = None ->
  let n1 := ws_onmessage crypto now1 (MeshMessageIn message) n in
  let n2 := ws_onmessage crypto now1 (MeshKeyIn key) n in
  ws_onmessage crypto now2 (MeshKeyIn key) n1 = n1 /\
  ws_onmessage crypto now2 (MeshMessageIn message) n2 = n2 /\
  decrypted (store n1) = decrypted (store n) /\
  decrypted (store n2) = decrypted (store n) /\
  keyMesh (store n1) = keyMesh (store n) /\
  messageMesh (store n2) = messageMesh (store n).
Proof.
  intros Hid Hm Hk. simpl.
  split; [| split].
  - apply handleKeyEnvelope_duplicate. rewrite Hid. apply handleMessageEnvelope_marks.
  - apply handleMessageEnvelope_duplicate. rewrite <- Hid. apply handleKeyEnvelope_marks.
  - assert (H1 : decrypted (store (handleMessageEnvelope crypto now1 message n))
                 = decrypted (store n) /\
                 keyMesh (store (handleMessageEnvelope crypto now1 message n))
                 = keyMesh (store n)).
    { destruct (MessageStore.isDuplicate (msg_id message) (store n)) eqn:Hdup.
      - now rewrite handleMessageEnvelope_duplicate.
      - rewrite handleMessageEnvelope_store by assumption.
        destruct (markAsProcessed_logs (msg_id message) (store n)) as (_ & Hkm & Hdm).
        rewrite fold_message_handlers_no_key.
        + simpl. now rewrite Hkm, Hdm.
        + unfold MessageStore.getKeyEnvelopeById in *. simpl. now rewrite Hkm. }
    assert (H2 : decrypted (store (handleKeyEnvelope crypto now1 key n))
                 = decrypted (store n) /\
                 messageMesh (store (handleKeyEnvelope crypto now1 key n))
                 = messageMesh (store n)).
    { destruct (MessageStore.isDuplicate (key_msg_id key) (store n)) eqn:Hdup.
      - now rewrite handleKeyEnvelope_duplicate.
      - rewrite handleKeyEnvelope_store by assumption.
        destruct (markAsProcessed_logs (key_msg_id key) (store n)) as (Hmm & _ & Hdm).
        rewrite fold_key_handlers_no_message.
        + simpl. now rewrite Hmm, Hdm.
        + unfold MessageStore.getMessageEnvelopeById in *. simpl.
          now rewrite Hmm, Hid. }
    tauto.
Qed.

(** The first envelope under an id stays the one a lookup returns when the
    log grows. *)
Lemma find_grown {A} (f : A -> bool) (l l' : list A) (x : A) :
  find f l = Some x -> find f (l ++ l') = Some x.
Proof.
  induction l as [| y l IH]; simpl; [discriminate |].
  destruct (f y); [trivial | exact IH].
Qed.

Lemma joinId_nonempty mo ko :
  nonempty (joinId mo ko) = true -> (mo, ko) <> (None, None).
Proof. intros H Heq. injection Heq as -> ->. discriminate H. Qed.

(** [tryDecryptMessage] once it has an envelope to start from. *)
Lemma tryDecryptMessage_body now mo ko (s : Store) :
  nonempty (joinId mo ko) = true ->
  tryDecryptMessage crypto now mo ko s =
  match MessageStore.getMessageEnvelopeById (joinId mo ko) s,
        MessageStore.getKeyEnvelopeById (joinId mo ko) s with
  | Some me, Some ke =>
    if negb (MessageType_eqb (type me) e2e) || negb (String.eqb (key_to ke) "admin")
    then s
    else match adminPrivateKey s with
         | Some priv =>
           if nonempty priv then
             match unwrapSessionKey crypto (wrapped_key ke) priv with
             | Some sk =>
               match decryptMessage crypto (payload me) sk with
               | Some content =>
                 MessageStore.saveDecryptedMessage
                   (joined (joinId mo ko) content now me ke) s
               | None => s
               end
             | None => s
             end
           else s
         | None => s
         end
  | _, _ => s
  end.
Proof.
  intros Hid. pose proof (joinId_nonempty mo ko Hid) as Hsome.
  destruct mo as [m |], ko as [k |]; try (now contradiction Hsome);
    unfold tryDecryptMessage; cbv zeta;
    change (if nonempty (from_option msg_id "" ?a)
            then from_option msg_id "" ?a
            else from_option key_msg_id "" ?b) with (joinId a b);
    rewrite Hid; reflexivity.
Qed.

Lemma tryDecryptMessage_no_id now mo ko (s : Store) :
  nonempty (joinId mo ko) = false -> tryDecryptMessage crypto now mo ko s = s.
Proof.
  intros Hid.
  destruct mo as [m |], ko as [k |]; [| | | reflexivity];
    unfold tryDecryptMessage; cbv zeta;
    change (if nonempty (from_option msg_id "" ?a)
            then from_option msg_id "" ?a
            else from_option key_msg_id "" ?b) with (joinId a b);
    rewrite Hid; reflexivity.
Qed.

(** A join that finds the pair and opens it stores the message built from
    them, with the clock value of that join in its key path. *)
Lemma tryDecryptMessage_joins now mo ko (s : Store)
    (content : string) (me : MessageEnvelope) (ke : KeyEnvelope)
    (priv : string) (sk : SessionKey) :
  nonempty (joinId mo ko) = true ->
  MessageStore.getMessageEnvelopeById (joinId mo ko) s = Some me ->
  MessageStore.getKeyEnvelopeById (joinId mo ko) s = Some ke ->
  type me = e2e -> key_to ke = "admin" ->
  adminPrivateKey s = Some priv -> nonempty priv = true ->
  unwrapSessionKey crypto (wrapped_key ke) priv = Some sk ->
  decryptMessage crypto (payload me) sk = Some content ->
  tryDecryptMessage crypto now mo ko s
  = MessageStore.saveDecryptedMessage (joined (joinId mo ko) content now me ke) s.
Proof.
  intros Hid Hm Hk Hty Hto Hp Hne Hu Hd.
  rewrite tryDecryptMessage_body by assumption.
  now rewrite Hm, Hk, Hty, Hto, Hp, Hne, Hu, Hd.
Qed.

(** What a join that stores a message has found in the store. *)
Lemma tryDecryptMessage_stored now mo ko (s : Store) (d : DecryptedMessage) :
  decrypted (tryDecryptMessage crypto now mo ko s) = decrypted s ++ [d] ->
  exists content me ke priv sk,
    nonempty (joinId mo ko) = true /\
    MessageStore.getMessageEnvelopeById (joinId mo ko) s = Some me /\
    MessageStore.getKeyEnvelopeById (joinId mo ko) s = Some ke /\
    type me = e2e /\ key_to ke = "admin" /\
    adminPrivateKey s = Some priv /\ nonempty priv = true /\
    unwrapSessionKey crypto (wrapped_key ke) priv = Some sk /\
    decryptMessage crypto (payload me) sk = Some content /\
    d = joined (joinId mo ko) content now me ke.
Proof.
  assert (Hno : decrypted s = decrypted s ++ [d] -> False).
  { intros H. apply (f_equal (@length _)) in H. rewrite length_app in H.
    simpl in H. lia. }
  intros H.
  destruct (nonempty (joinId mo ko)) eqn:Hid.
  2:{ rewrite tryDecryptMessage_no_id in H by assumption. now apply Hno in H. }
  rewrite tryDecryptMessage_body in H by assumption.
  destruct (MessageStore.getMessageEnvelopeById (joinId mo ko) s) as [me |] eqn:Hm;
    [| now apply Hno in H].
  destruct (MessageStore.getKeyEnvelopeById (joinId mo ko) s) as [ke |] eqn:Hk;
    [| now apply Hno in H].
  destruct (MessageType_eqb (type me) e2e) eqn:Hty; simpl in H; [| now apply Hno in H].
  destruct (String.eqb (key_to ke) "admin") eqn:Hto; simpl in H; [| now apply Hno in H].
  destruct (adminPrivateKey s) as [priv |] eqn:Hp; [| now apply Hno in H].
  destruct (nonempty priv) eqn:Hne; [| now apply Hno in H].
  destruct (unwrapSessionKey crypto (wrapped_key ke) priv) as [sk |] eqn:Hu;
    [| now apply Hno in H].
  destruct (decryptMessage crypto (payload me) sk) as [content |] eqn:Hd;
    [| now apply Hno in H].
  simpl in H. apply app_inv_head in H. injection H as <-.
  exists content, me, ke, priv, sk.
  apply String.eqb_eq in Hto.
  assert (type me = e2e) by (destruct (type me); [discriminate | reflexivity]).
  repeat split; assumption || reflexivity.
Qed.

Lemma tryDecryptMessage_grown now mo ko (s : Store) :
  grown s (tryDecryptMessage crypto now mo ko s).
Proof.
  destruct (tryDecryptMessage_appends crypto now mo ko s)
    as ((_ & Hm & Hk & _ & _ & Hp & _) & _).
  unfold grown. rewrite Hm, Hk, Hp.
  split; [exists []; now rewrite app_nil_r |].
  split; [exists []; now rewrite app_nil_r | reflexivity].
Qed.

(** C2 (amended). One call of [tryDecryptMessage] stores at most one decrypted
    message, under the msg_id it is called for.  It never consults the
    decrypted messages already stored: once a join has stored a message,
    every later join for the same msg_id - from the message observer or from
    the key observer, with any clock value - on a store whose logs have only
    grown and whose admin private key is the same stores one more message,
    equal to the first but for the time in its key path; the store the first
    join leaves is such a store.  An inbound hub envelope whose msg_id is in
    the dedupe store is dropped before any observer runs. *)
Theorem join_stores_one_per_call now1 now2 mo1 ko1 mo2 ko2 (s s' : Store)
    (n : MeshNetwork) (message : MessageEnvelope) (key : KeyEnvelope) :
  (exists l,
     decrypted (tryDecryptMessage crypto now1 mo1 ko1 s) = decrypted s ++ l /\
     length l <= 1 /\
     forall d, In d l -> dec_msg_id d = joinId mo1 ko1) /\
  (forall d1,
     decrypted (tryDecryptMessage crypto now1 mo1 ko1 s) = decrypted s ++ [d1] ->
     joinId mo2 ko2 = joinId mo1 ko1 -> grown s s' ->
     exists content me ke,
       d1 = joined (joinId mo1 ko1) content now1 me ke /\
       decrypted (tryDecryptMessage crypto now2 mo2 ko2 s')
       = decrypted s' ++ [joined (joinId mo1 ko1) content now2 me ke]) /\
  grown s (tryDecryptMessage crypto now1 mo1 ko1 s) /\
  (MessageStore.isDuplicate (msg_id message) (store n) = true ->
   ws_onmessage crypto now1 (MeshMessageIn message) n = n) /\
  (MessageStore.isDuplicate (key_msg_id key) (store n) = true ->
   ws_onmessage crypto now1 (MeshKeyIn key) n = n).
Proof.
  split; [| split; [| split; [| split]]].
  - destruct (tryDecryptMessage_appends crypto now1 mo1 ko1 s)
      as (_ & l & Hl & Hlen & Hid).
    exists l. repeat split; assumption.
  - intros d1 Hfirst Hsame ((lm & Hlm) & (lk & Hlk) & Hpriv).
    destruct (tryDecryptMessage_stored now1 mo1 ko1 s d1 Hfirst)
      as (content & me & ke & priv & sk & Hid & Hm & Hk & Hty & Hto & Hp & Hne
          & Hu & Hd & ->).
    exists content, me, ke. split; [reflexivity |].
    rewrite <- Hsame in *.
    rewrite (tryDecryptMessage_joins now2 mo2 ko2 s' content me ke priv sk);
      try assumption; try reflexivity.
    + unfold MessageStore.getMessageEnvelopeById in *. rewrite Hlm.
      now apply find_grown.
    + unfold MessageStore.getKeyEnvelopeById in *. rewrite Hlk.
      now apply find_grown.
    + now rewrite Hpriv.
  - apply tryDecryptMessage_grown.
  - apply handleMessageEnvelope_duplicate.
  - apply handleKeyEnvelope_duplicate.
Qed.

Lemma filter_calls_map msgId (m : MessageEnvelope) (hs : list MessageHandler) :
  msg_id m = msgId ->
  length (List.filter (isMessageCall msgId)
            (map (fun h => CallMessageHandler h m) hs)) = length hs.
Proof.
  intros <-. induction hs as [| h hs IH]; simpl; [reflexivity |].
  rewrite String.eqb_refl. simpl. now rewrite IH.
Qed.

Lemma isMessageCall_sendEffect msgId w frame :
  isMessageCall msgId (sendEffect w frame) = false.
Proof. unfold sendEffect. now repeat case_match. Qed.

(** C3 (what the code does). [broadcastMessage] calls the message handlers
    but does not mark the msg_id; when a copy of the node's own message comes
    back from the hub it is not a duplicate, and every handler is called with
    that msg_id a second time. *)
Theorem own_message_delivered_twice now1 now2 (n : MeshNetwork)
    (message returned : MessageEnvelope) :
  msg_id returned = msg_id message ->
  MessageStore.isDuplicate (msg_id message) (store n) = false ->
  messageHandlerCalls (msg_id message)
    (ws_onmessage crypto now2 (MeshMessageIn returned)
       (broadcastMessage crypto now1 message n))
  = messageHandlerCalls (msg_id message) n + 2 * length (messageHandlers n).
Proof.
  intros Hid Hfresh. simpl. unfold messageHandlerCalls.
  destruct (broadcastMessage_logs crypto now1 message n) as (_ & _ & Hd).
  rewrite handleMessageEnvelope_effects.
  2:{ unfold MessageStore.isDuplicate in *. now rewrite Hid, Hd. }
  rewrite broadcastMessage_messageHandlers, broadcastMessage_effects.
  rewrite !List.filter_app, !length_app.
  rewrite !filter_calls_map by (assumption || reflexivity).
  simpl. rewrite isMessageCall_sendEffect. simpl.
  case_match; simpl; rewrite ?isMessageCall_sendEffect; simpl; lia.
Qed.

End RelayClaims.

Section TtlAndLifecycle.

Variable crypto : CryptoUtils.

Lemma newEffects_same (n : MeshNetwork) : newEffects n n = [].
Proof. unfold newEffects. apply drop_all. Qed.

Lemma newEffects_app (n n' : MeshNetwork) (l : list Effect) :
  effects n' = effects n ++ l -> newEffects n n' = l.
Proof. unfold newEffects. intros ->. apply drop_app_length. Qed.

Lemma handleMessageEnvelope_newEffects now m (n : MeshNetwork) :
  MessageStore.isDuplicate (msg_id m) (store n) = false ->
  newEffects n (handleMessageEnvelope crypto now m n) =
  map (fun h => CallMessageHandler h m) (messageHandlers n)
  ++ (if (0 <? ttl m)%Z
      then [sendEffect (ws n) (MeshMessage (MessageFactory.addHop (nodeId n) now m))]
      else []).
Proof.
  intros Hfresh. apply newEffects_app.
  now apply handleMessageEnvelope_effects.
Qed.

(** A forwarded copy exists only for a positive ttl, and is [addHop] of the
    envelope received. *)
Lemma forwards_inv (e e' : MessageEnvelope) :
  forwards crypto e e' ->
  (0 < ttl e)%Z /\ exists nodeId now, e' = MessageFactory.addHop nodeId now e.
Proof.
  intros (now & n & Hin).
  destruct (MessageStore.isDuplicate (msg_id e) (store n)) eqn:Hdup.
  - rewrite handleMessageEnvelope_duplicate, newEffects_same in Hin by assumption.
    destruct Hin.
  - rewrite handleMessageEnvelope_newEffects in Hin by assumption.
    apply in_app_or in Hin. destruct Hin as [Hin | Hin].
    + apply in_map_iff in Hin. destruct Hin as (h & Heq & _). discriminate.
    + destruct (0 <? ttl e)%Z eqn:Hpos; [| destruct Hin].
      apply Z.ltb_lt in Hpos. split; [assumption |].
      destruct Hin as [Heq | []]. unfold sendEffect in Heq.
      repeat case_match; try discriminate.
      injection Heq as <-. eauto.
Qed.

Lemma forwards_chain_ttl (origin e : MessageEnvelope) :
  rtc (forwards crypto) origin e ->
  (0 <= ttl origin)%Z -> (0 <= ttl e <= ttl origin)%Z.
Proof.
  intros Hchain Horigin. revert e Hchain.
  apply (rtc_ind_r (fun e => (0 <= ttl e <= ttl origin)%Z)); [lia |].
  intros y z _ Hstep IH.
  apply forwards_inv in Hstep. destruct Hstep as (Hpos & nodeId & now & ->).
  simpl. lia.
Qed.

(** The safe integers are closed under what a chain of forwards does to a
    non-negative ttl. *)
Lemma isSafeInteger_between (lo z hi : Z) :
  isSafeInteger lo = true -> isSafeInteger hi = true ->
  (lo <= z <= hi)%Z -> isSafeInteger z = true.
Proof. unfold isSafeInteger. rewrite !Z.leb_le. lia. Qed.

(** C4 (amended). A relay hands a new envelope to its handlers whatever its
    ttl and whatever the state of its hub socket.  With the socket open it
    re-emits the [addHop] copy exactly when the ttl it received is strictly
    positive, the test being made before the decrement; with the socket not
    open it writes nothing to the hub, a warning is all that is left of the
    forward.  For an integer ttl (a safe integer of JavaScript) the copy
    carries ttl - 1, so along any chain of forwards the ttl never exceeds
    the value at origin and never goes below zero; an envelope received with
    ttl = 1 is forwarded with ttl = 0, and one received with ttl = 0 is
    delivered but not forwarded. *)
Theorem relay_forwards_while_received_ttl_positive now (n : MeshNetwork)
    (message origin : MessageEnvelope) :
  MessageStore.isDuplicate (msg_id message) (store n) = false ->
  let n' := ws_onmessage crypto now (MeshMessageIn message) n in
  let forwarded := MessageFactory.addHop (nodeId n) now message in
  let delivered := map (fun h => CallMessageHandler h message) (messageHandlers n) in
  (ws n = Some OPEN ->
   newEffects n n' =
     delivered
     ++ (if (0 <? ttl message)%Z then [WsSend (MeshMessage forwarded)] else [])) /\
  (ws n <> Some OPEN ->
   newEffects n n' =
     delivered ++ (if (0 <? ttl message)%Z then [Warn] else [])) /\
  hops forwarded = hops message ++ [mkHop (nodeId n) now] /\
  (isSafeInteger (ttl message) = true ->
   ttl forwarded = (ttl message - 1)%Z /\
   ((0 < ttl message)%Z -> (0 <= ttl forwarded < ttl message)%Z)) /\
  (rtc (forwards crypto) origin message ->
   isSafeInteger (ttl origin) = true -> (0 <= ttl origin)%Z ->
   (0 <= ttl message <= ttl origin)%Z /\ isSafeInteger (ttl message) = true).
Proof.
  intros Hfresh. simpl.
  rewrite handleMessageEnvelope_newEffects by assumption.
  split; [| split; [| split; [| split]]].
  - intros ->. reflexivity.
  - intros Hclosed. unfold sendEffect.
    destruct (ws n) as [[] |]; try reflexivity. now contradiction Hclosed.
  - reflexivity.
  - intros _. split; [reflexivity | lia].
  - intros Hchain Hsafe Horigin.
    pose proof (forwards_chain_ttl origin message Hchain Horigin) as Hb.
    split; [exact Hb |].
    apply (isSafeInteger_between 0 (ttl message) (ttl origin));
      [reflexivity | exact Hsafe | exact Hb].
Qed.

Lemma flat_map_nil_body {A B} (l : list A) :
  flat_map (fun _ : A => @nil B) l = [].
Proof. induction l; simpl; auto. Qed.

(** C6 (what the code does). On close the relay empties its peer set before
    it walks it for the peer-lost observers, so no observer is called for any
    peer that was known; the peer set ends empty and a reconnect is armed
    after 3000 ms while fewer than 10 attempts have been made. *)
Theorem ws_onclose_notifies_nobody (n : MeshNetwork) :
  let n' := ws_onclose n in
  peers n' = [] /\
  newEffects n n' =
    (if Nat.ltb (reconnectAttempts n) 10
     then [SetTimeout ConnectToServer 3000%Z] else []) /\
  (forall h p, ~ In (CallPeerLost h p) (newEffects n n')) /\
  reconnectAttempts n' =
    (if Nat.ltb (reconnectAttempts n) 10
     then S (reconnectAttempts n) else reconnectAttempts n).
Proof.
  simpl. unfold newEffects, ws_onclose, maxReconnectAttempts, reconnectDelay.
  simpl. destruct (Nat.ltb (reconnectAttempts n) 10); simpl;
    rewrite flat_map_nil_body, app_nil_r, ?drop_app_length, ?drop_all;
    repeat split; try tauto.
  intros h p [Heq | []]. discriminate.
Qed.

(** The dedupe list stays within its cap under everything a node does. *)
Lemma fold_discoverPeer_store (l : list string) (n : MeshNetwork) :
  store (fold_left discoverPeer l n) = store n.
Proof.
  revert n. induction l as [| p l IH]; intros n; simpl; [reflexivity |].
  rewrite IH. unfold discoverPeer. now case_match.
Qed.

Lemma node_step_dedupe (n : MeshNetwork) (e : NodeEvent) :
  length (dedupe (store n)) <= 1000 ->
  length (dedupe (store (node_step crypto n e))) <= 1000.
Proof.
  intros Hb. destruct e; simpl; try assumption.
  - (* WsMessage *)
    destruct frame; simpl; try assumption.
    + now rewrite fold_discoverPeer_store.
    + unfold discoverPeer. now case_match.
    + unfold losePeer. now case_match.
    + destruct (MessageStore.isDuplicate (msg_id envelope) (store n)) eqn:Hdup.
      * now rewrite handleMessageEnvelope_duplicate.
      * rewrite handleMessageEnvelope_store by assumption.
        match goal with |- context [fold_left ?f ?hs ?s] =>
          destruct (fold_message_handlers_only crypto now envelope hs s)
            as (_ & _ & _ & -> & _) end.
        simpl. now apply markAsProcessed_bound.
    + destruct (MessageStore.isDuplicate (key_msg_id envelope) (store n)) eqn:Hdup.
      * now rewrite handleKeyEnvelope_duplicate.
      * rewrite handleKeyEnvelope_store by assumption.
        match goal with |- context [fold_left ?f ?hs ?s] =>
          destruct (fold_key_handlers_only crypto now envelope hs s)
            as (_ & _ & _ & -> & _) end.
        simpl. now apply markAsProcessed_bound.
  - (* WsClose *)
    unfold ws_onclose. simpl. now case_match.
  - (* CreateBroadcast *)
    match goal with |- context [broadcastMessage _ ?t ?m ?y] =>
      destruct (broadcastMessage_logs crypto t m y) as (_ & _ & ->) end.
    assumption.
  - (* CreateE2EMessage *)
    destruct (createE2EMessage crypto now uuid sessionKey content m n)
      as [[n' [me ke]] |] eqn:Hc; [| assumption].
    apply createE2EMessage_logs in Hc. destruct Hc as (_ & _ & _ & _ & ->).
    assumption.
  - (* ClearAll *)
    lia.
Qed.

Lemma node_run_dedupe (es : list NodeEvent) (n : MeshNetwork) :
  length (dedupe (store n)) <= 1000 ->
  length (dedupe (store (node_run crypto es n))) <= 1000.
Proof.
  revert n. induction es as [| e es IH]; intros n Hb; simpl; [assumption |].
  apply IH. now apply node_step_dedupe.
Qed.

(** C7. Whatever a node has done since it was created, its dedupe store
    holds at most 1,000 ids, and [markAsProcessed] keeps it so: an id that is
    present changes nothing; an absent id is appended at the end; when the
    store is full the oldest entry is dropped and the others keep their
    order. *)
Theorem dedupe_store_bounded_fifo (nodeId pseudoId : string)
    (es : list NodeEvent) (msgId : string) :
  let s := store (node_run crypto es (newNode emptyStore nodeId pseudoId)) in
  let s' := MessageStore.markAsProcessed msgId s in
  length (dedupe s) <= 1000 /\
  length (dedupe s') <= 1000 /\
  (In msgId (dedupe s) -> dedupe s' = dedupe s) /\
  (~ In msgId (dedupe s) -> length (dedupe s) < 1000 ->
   dedupe s' = dedupe s ++ [msgId]) /\
  (~ In msgId (dedupe s) -> length (dedupe s) = 1000 ->
   exists oldest rest, dedupe s = oldest :: rest /\ dedupe s' = rest ++ [msgId]).
Proof.
  simpl.
  set (s := store (node_run crypto es (newNode emptyStore nodeId pseudoId))).
  assert (Hb : length (dedupe s) <= 1000).
  { apply node_run_dedupe. simpl. lia. }
  rewrite markAsProcessed_dedupe. unfold marked.
  split; [assumption |].
  split.
  { fold (marked msgId (dedupe s)). now apply marked_length. }
  split; [| split].
  - intros Hin. apply includes_true in Hin. now rewrite Hin.
  - intros Hnot Hlt.
    destruct (MessageStore.includes msgId (dedupe s)) eqn:Hi.
    + apply includes_true in Hi. contradiction.
    + apply Nat.ltb_lt in Hlt. now rewrite Hlt.
  - intros Hnot Hfull.
    destruct (MessageStore.includes msgId (dedupe s)) eqn:Hi.
    + apply includes_true in Hi. contradiction.
    + destruct (Nat.ltb_spec (length (dedupe s)) 1000) as [Hlt | _]; [lia |].
      destruct (dedupe s) as [| oldest rest]; [simpl in Hfull; lia |].
      exists oldest, rest. split; reflexivity.
Qed.

End TtlAndLifecycle.

(** * Properties of the hub *)

Section HubFacts.

Import Hub.

Lemma elem_of_others (excludePeerId : string) (st : State) (p : string) (w : nat) :
  (p, w) ∈ others excludePeerId st <->
  peers st !! p = Some w /\ p ≠ excludePeerId /\ w ∈ opened st.
Proof.
  unfold others. rewrite list_elem_of_filter, elem_of_map_to_list. simpl. tauto.
Qed.

Lemma elem_of_allOpen (st : State) (p : string) (w : nat) :
  (p, w) ∈ allOpen st <-> peers st !! p = Some w /\ w ∈ opened st.
Proof.
  unfold allOpen. rewrite list_elem_of_filter, elem_of_map_to_list. simpl. tauto.
Qed.

Lemma elem_of_targets (l : list (string * nat)) (message : Frame) (w : nat) (f : Frame) :
  (w, f) ∈ map (λ e, (e.2, message)) l <-> f = message /\ exists p, (p, w) ∈ l.
Proof.
  rewrite list_elem_of_In, in_map_iff. split.
  - intros ([p w'] & Heq & Hin). simpl in Heq. injection Heq as -> ->.
    split; [reflexivity |]. exists p. now apply list_elem_of_In.
  - intros (-> & p & Hin). exists (p, w). split; [reflexivity |].
    now apply list_elem_of_In.
Qed.

Lemma broadcastToOthers_wire (excludePeerId : string) (message : Frame) (st : State) :
  exists sent, wire (broadcastToOthers excludePeerId message st) = wire st ++ sent /\
    forall w f, (w, f) ∈ sent <->
      f = message /\ w ∈ opened st /\
      exists q, q ≠ excludePeerId /\ peers st !! q = Some w.
Proof.
  eexists. split; [reflexivity |]. intros w f.
  rewrite elem_of_targets. split.
  - intros (-> & p & Hin). apply elem_of_others in Hin.
    destruct Hin as (Hp & Hne & Hopen). eauto.
  - intros (-> & Hopen & q & Hne & Hq). split; [reflexivity |].
    exists q. apply elem_of_others. tauto.
Qed.

(** C8 (amended). For a mesh_message frame with a truthy envelope read from a
    socket registered under a non-empty peerId, the hub writes
    {type: "mesh_message", envelope, fromPeer, envelopeType}, with the
    envelope as it was received, to every open socket that the peers map
    holds under another peerId, and to no other socket.  When the peers map
    and the open registered sockets correspond one to one, these are all the
    other open registered sockets, and never the sender. *)
Theorem mesh_message_fans_out_by_peerId (ws : nat) (envelope envelopeType : jsval)
    (peerId : string) (st : State) :
  peerIdOf st !! ws = Some peerId ->
  nonempty peerId = true ->
  truthy envelope = true ->
  let st' := on_message ws (mesh_message_in envelope envelopeType) st in
  exists sent,
    wire st' = wire st ++ sent /\
    (forall w f, (w, f) ∈ sent <->
       f = mesh_message envelope peerId envelopeType /\ w ∈ opened st /\
       exists q, q ≠ peerId /\ peers st !! q = Some w) /\
    (one_to_one st -> ws ∈ opened st ->
     forall w, (w, mesh_message envelope peerId envelopeType) ∈ sent <->
       w ≠ ws /\ w ∈ opened st /\ is_Some (peerIdOf st !! w)).
Proof.
  intros Hid Hne Henv. simpl. rewrite Hid, Henv, Hne. simpl.
  destruct (broadcastToOthers_wire peerId
              (mesh_message envelope peerId envelopeType) st) as (sent & Hw & Hsent).
  exists sent. split; [exact Hw |]. split; [exact Hsent |].
  intros Hone Hopen w. rewrite Hsent. split.
  - intros (_ & Hwo & q & Hq & Hpq).
    apply Hone in Hpq. destruct Hpq as (Hwq & _).
    repeat split; [| assumption | eauto].
    intros ->. congruence.
  - intros (Hws & Hwo & q & Hq).
    repeat split; [assumption |].
    exists q. split.
    + intros ->.
      assert (peers st !! peerId = Some w) as H1 by (apply Hone; tauto).
      assert (peers st !! peerId = Some ws) as H2 by (apply Hone; tauto).
      congruence.
    + apply Hone. tauto.
Qed.

Lemma broadcastToOthers_fields (excludePeerId : string) (message : Frame) (st : State) :
  peers (broadcastToOthers excludePeerId message st) = peers st /\
  peerIdOf (broadcastToOthers excludePeerId message st) = peerIdOf st /\
  opened (broadcastToOthers excludePeerId message st) = opened st.
Proof. repeat split. Qed.

Lemma on_message_register_fields (ws : nat) (peerId : string) (st : State) :
  peers (on_message ws (register peerId) st) = <[peerId := ws]> (peers st) /\
  peerIdOf (on_message ws (register peerId) st) = <[ws := peerId]> (peerIdOf st) /\
  opened (on_message ws (register peerId) st) = opened st.
Proof. simpl. case_decide; repeat split. Qed.

Lemma on_message_mesh_fields (ws : nat) (envelope envelopeType : jsval) (st : State) :
  peers (on_message ws (mesh_message_in envelope envelopeType) st) = peers st /\
  peerIdOf (on_message ws (mesh_message_in envelope envelopeType) st) = peerIdOf st /\
  opened (on_message ws (mesh_message_in envelope envelopeType) st) = opened st.
Proof. simpl. repeat case_match; repeat split. Qed.

Lemma gateway_submit_fields now (b : Body) (st : State) :
  peers (gateway_submit now b st).2 = peers st /\
  peerIdOf (gateway_submit now b st).2 = peerIdOf st /\
  opened (gateway_submit now b st).2 = opened st.
Proof. unfold gateway_submit. case_match; repeat split. Qed.

Lemma not_elem_of_closed (o : gset nat) (w ws : nat) :
  w ≠ ws -> w ∈ o -> w ∈ o ∖ {[ws]}.
Proof. set_solver. Qed.

Lemma step_one_to_one (st : State) (e : Event) :
  one_to_one st /\ (forall w p, peerIdOf st !! w = Some p -> nonempty p = true) ->
  admissible st e ->
  one_to_one (step st e) /\
  (forall w p, peerIdOf (step st e) !! w = Some p -> nonempty p = true).
Proof.
  intros [Hone Hids] Hadm.
  destruct e as [ws | ws message | ws | now b | t]; simpl.
  - (* Connection *)
    simpl in Hadm. split.
    + intros p w. simpl.
      destruct (decide (w = ws)) as [-> | Hne].
      * rewrite lookup_delete_eq. split; [| intros [? _]; discriminate].
        intros Hp. apply Hone in Hp. tauto.
      * rewrite lookup_delete_ne by congruence. rewrite (Hone p w). set_solver.
    + intros w p. simpl.
      destruct (decide (w = ws)) as [-> | Hne].
      * rewrite lookup_delete_eq. discriminate.
      * rewrite lookup_delete_ne by congruence. apply Hids.
  - (* Message *)
    destruct message as [peerId | envelope envelopeType | |].
    + destruct Hadm as (Hopen & Hnone & Hfree & Hne).
      destruct (on_message_register_fields ws peerId st) as (Hp & Hi & Ho).
      unfold one_to_one. rewrite Hp, Hi, Ho. split.
      * intros p w.
        destruct (decide (p = peerId)) as [-> | Hpne];
          destruct (decide (w = ws)) as [-> | Hwne];
          rewrite ?lookup_insert_eq, ?lookup_insert_ne by congruence.
        -- tauto.
        -- split; [congruence |]. intros [Hw Hwo].
           assert (peers st !! peerId = Some w) by (apply Hone; tauto).
           congruence.
        -- split; [| intros [? _]; congruence].
           intros Hq. apply Hone in Hq. destruct Hq as [Hq _]. congruence.
        -- apply Hone.
      * intros w p.
        destruct (decide (w = ws)) as [-> | Hwne];
          rewrite ?lookup_insert_eq, ?lookup_insert_ne by congruence.
        -- congruence.
        -- apply Hids.
    + destruct (on_message_mesh_fields ws envelope envelopeType st) as (Hp & Hi & Ho).
      unfold one_to_one. rewrite Hp, Hi, Ho. split; assumption.
    + split; assumption.
    + split; assumption.
  - (* Close *)
    simpl in Hadm. unfold on_close. simpl.
    destruct (peerIdOf st !! ws) as [peerId |] eqn:Hws.
    + assert (Hbound : peers st !! peerId = Some ws) by (apply Hone; tauto).
      rewrite (Hids _ _ Hws). simpl. split; [| exact Hids].
      intros p w. simpl.
      destruct (decide (p = peerId)) as [-> | Hpne].
      * rewrite lookup_delete_eq. split; [discriminate |].
        intros [Hw Ho].
        assert (peers st !! peerId = Some w) by (apply Hone; set_solver).
        set_solver.
      * rewrite lookup_delete_ne by congruence. rewrite (Hone p w).
        split; [| set_solver].
        intros [Hw Ho]. split; [assumption |].
        apply not_elem_of_closed; [congruence | assumption].
    + split; [| exact Hids].
      intros p w. simpl. rewrite (Hone p w).
      split; [| set_solver].
      intros [Hw Ho]. split; [assumption |].
      apply not_elem_of_closed; [congruence | assumption].
  - (* Submit *)
    destruct (gateway_submit_fields now b st) as (Hp & Hi & Ho).
    unfold one_to_one. rewrite Hp, Hi, Ho. split; assumption.
  - (* Fire *)
    destruct t. split; assumption.
Qed.

Lemma orderly_one_to_one (es : list Event) (st : State) :
  one_to_one st /\ (forall w p, peerIdOf st !! w = Some p -> nonempty p = true) ->
  orderly st es ->
  one_to_one (fold_left step es st).
Proof.
  revert st. induction es as [| e es IH]; intros st Hinv Hord; simpl.
  - apply Hinv.
  - destruct Hord as [Hadm Hord]. apply IH; [| exact Hord].
    now apply step_one_to_one.
Qed.

Lemma empty_one_to_one :
  one_to_one empty /\ (forall w p, peerIdOf empty !! w = Some p -> nonempty p = true).
Proof.
  split.
  - intros p w. simpl. rewrite !lookup_empty. split; [discriminate | intros [? _]; discriminate].
  - intros w p. simpl. rewrite lookup_empty. discriminate.
Qed.

(** C5 (amended). The peers map holds one socket per peerId.  A register
    frame binds its peerId to the socket it came from, replacing whatever
    socket the map held under that id (last write wins); the socket bound
    before is not closed, and a register from a socket that already holds a
    peerId is accepted like any other and gives that socket the new id.  In
    an orderly run, where every socket registers at most once under a
    non-empty id of its own, the peers map and the open registered sockets
    correspond one to one. *)
Theorem register_overwrites_without_closing (ws : nat) (peerId : string)
    (st : State) (es : list Event) :
  let st' := on_message ws (register peerId) st in
  peers st' !! peerId = Some ws /\
  (forall q, q ≠ peerId -> peers st' !! q = peers st !! q) /\
  peerIdOf st' !! ws = Some peerId /\
  (forall w, w ≠ ws -> peerIdOf st' !! w = peerIdOf st !! w) /\
  opened st' = opened st /\
  (orderly empty es -> one_to_one (run es)).
Proof.
  cbv zeta.
  destruct (on_message_register_fields ws peerId st) as (Hp & Hi & Ho).
  rewrite Hp, Hi, Ho.
  split; [apply lookup_insert_eq |].
  split; [intros q Hq; now apply lookup_insert_ne |].
  split; [apply lookup_insert_eq |].
  split; [intros w Hw; now apply lookup_insert_ne |].
  split; [reflexivity |].
  intros Hord. apply orderly_one_to_one; [apply empty_one_to_one | exact Hord].
Qed.

End HubFacts.

Section GatewayFacts.

Import Hub.

Lemma sendToAll_wire (message : Frame) (st : State) :
  exists sent, wire (sendToAll message st) = wire st ++ sent /\
    forall w f, (w, f) ∈ sent <->
      f = message /\ w ∈ opened st /\ exists q, peers st !! q = Some w.
Proof.
  eexists. split; [reflexivity |]. intros w f.
  rewrite elem_of_targets. split.
  - intros (-> & p & Hin). apply elem_of_allOpen in Hin.
    destruct Hin as (Hp & Hopen). eauto.
  - intros (-> & Hopen & q & Hq). split; [reflexivity |].
    exists q. apply elem_of_allOpen. tauto.
Qed.

(** C9. POST /gateway/submit answers 400 with an error body, and does nothing
    else, when encryptedPayload, wrappedKey or msgId is missing (absent or
    otherwise falsy).  Otherwise it answers 200 {success: true, msgId}; it
    writes to every open socket of the peers map a mesh_message from
    "gateway" whose envelope has type "e2e", from = the submitted from or
    "gateway_user", to = "admin", ttl = 8 and the single hop "gateway"; and
    it arms a 100 ms timer that, when it fires, writes the key envelope with
    the same msgId, marked envelopeType "key", to every socket that is open
    then. *)
Theorem gateway_submit_contract now (b : Body) (st later : State) :
  let r := gateway_submit now b st in
  let missing := negb (truthy (encryptedPayload b)) || negb (truthy (wrappedKey b))
                 || negb (truthy (msgId b)) in
  (missing = true ->
   r = (mkResponse 400 (JObj [("error", JStr "Missing required fields")]), st)) /\
  (missing = false ->
   let envelope := messageEnvelope now b in
   let key := keyEnvelope b in
   let keyFrame := mesh_message key "gateway" (JStr "key") in
   r.1 = mkResponse 200 (JObj [("success", JBool true); ("msgId", msgId b)]) /\
   field "msg_id" envelope = msgId b /\
   field "type" envelope = JStr "e2e" /\
   field "from" envelope = (if truthy (from b) then from b else JStr "gateway_user") /\
   field "to" envelope = JStr "admin" /\
   field "ttl" envelope = JNum 8 /\
   field "hops" envelope =
     JArr [JObj [("nodeId", JStr "gateway"); ("timestamp", JStr now)]] /\
   field "payload" envelope = encryptedPayload b /\
   field "msg_id" key = msgId b /\
   field "wrapped_key" key = wrappedKey b /\
   (exists sent, wire r.2 = wire st ++ sent /\
      forall w f, (w, f) ∈ sent <->
        f = mesh_message envelope "gateway" JUndefined /\ w ∈ opened st /\
        exists q, peers st !! q = Some w) /\
   timers r.2 = timers st ++ [(SendToAll keyFrame, 100%Z)] /\
   (exists sent, wire (run_task (SendToAll keyFrame) later) = wire later ++ sent /\
      forall w f, (w, f) ∈ sent <->
        f = keyFrame /\ w ∈ opened later /\ exists q, peers later !! q = Some w)).
Proof.
  cbv zeta. unfold gateway_submit. split; intros Hmiss; rewrite Hmiss.
  - reflexivity.
  - repeat (split; [reflexivity |]).
    split; [apply sendToAll_wire |].
    split; [reflexivity |].
    apply sendToAll_wire.
Qed.

End GatewayFacts.

(** * The scenarios, evaluated *)

Section Scenarios.

(** Had both envelopes of the pair reached the log of Z, the join would have
    produced the plaintext. *)
Example pair_in_log_joins :
  decrypted
    (tryDecryptMessage plainCrypto "t2" None (Some k4)
       (MessageStore.saveKeyEnvelope k4
          (MessageStore.saveMessageEnvelope m4 (store adminZ))))
  = [mkDecrypted "m4" "evacuate" "t0" "user_s" None [mkHop "s" "t0"] [mkHop "user_s" "t2"]].
Proof. reflexivity. Qed.

(** S4 at Z, message first, then key, and key first, then message: the second
    frame changes nothing and no decrypted message is stored. *)
Lemma second_envelope_of_pair_dropped_at_Z :
  key_msg_id k4 = msg_id m4 /\
  decrypted (store (ws_onmessage plainCrypto "t2" (MeshKeyIn k4)
                      (ws_onmessage plainCrypto "t1" (MeshMessageIn m4) adminZ))) = [] /\
  decrypted (store (ws_onmessage plainCrypto "t2" (MeshMessageIn m4)
                      (ws_onmessage plainCrypto "t1" (MeshKeyIn k4) adminZ))) = [].
Proof.
  destruct (second_envelope_of_pair_dropped plainCrypto "t1" "t2" adminZ m4 k4)
    as (H1 & H2 & H3 & H4 & _); try reflexivity.
  split; [reflexivity |].
  cbv zeta in *. rewrite H1, H2. split; [exact H3 | exact H4].
Defined.

(** An admin node that sends an e2e message to the mesh stores two decrypted
    messages for it: both observers of its [E2EService] find the pair in the
    log, one from [broadcastMessage] and one from [broadcastKeyEnvelope]. *)
Lemma admin_origin_stores_two_decrypted :
  option_map (fun r => map dec_msg_id (decrypted (store r.1)))
    (createE2EMessage plainCrypto "t0" "m4" [] "evacuate" None adminZ)
  = Some ["m4"; "m4"].
Proof. reflexivity. Qed.

(** At Z with the pair in its logs: the message observer joins at "t2" and
    the key observer at "t3"; two messages are stored, which differ in the
    time of their key path only. *)
Lemma join_stores_one_per_call_at_Z :
  decrypted pairLogged = [] /\
  decrypted (tryDecryptMessage plainCrypto "t3" None (Some k4)
               (tryDecryptMessage plainCrypto "t2" (Some m4) None pairLogged))
  = [joined "m4" "evacuate" "t2" m4 k4; joined "m4" "evacuate" "t3" m4 k4].
Proof.
  split; [reflexivity |].
  destruct (join_stores_one_per_call plainCrypto "t2" "t3" (Some m4) None None (Some k4)
              pairLogged (tryDecryptMessage plainCrypto "t2" (Some m4) None pairLogged)
              adminZ m4 k4) as (_ & Hagain & Hgrown & _).
  destruct (Hagain (joined "m4" "evacuate" "t2" m4 k4) eq_refl eq_refl Hgrown)
    as (content & me & ke & Hd1 & Hd2).
  rewrite Hd2. unfold joined in *. simpl in Hd1.
  injection Hd1 as <- <- <- <- <- <-. reflexivity.
Defined.

(** S1 at the originator: A's observer is called for m1 when A broadcasts it
    and again when B's relayed copy comes back from the hub. *)
Lemma own_message_delivered_twice_at_A :
  MessageStore.isDuplicate (msg_id m1) (store nodeA) = false /\
  messageHandlerCalls "m1"
    (ws_onmessage plainCrypto "t2" (MeshMessageIn m1_relayed)
       (broadcastMessage plainCrypto "t0" m1 nodeA)) = 2.
Proof.
  split; [reflexivity |].
  exact (own_message_delivered_twice plainCrypto "t0" "t2" nodeA m1 m1_relayed
           eq_refl eq_refl).
Defined.

(** S3 at B: the envelope that arrives with ttl = 1 is handed to the observer
    and then written back to the hub with ttl = 0. *)
Lemma ttl_one_is_forwarded :
  ttl m3 = 1%Z /\
  newEffects nodeB (ws_onmessage plainCrypto "t1" (MeshMessageIn m3) nodeB) =
  [CallMessageHandler App_onMessage m3;
   WsSend (MeshMessage
     (mkMessage "m3" broadcast "user_a" "all" "t0" 0
        [mkHop "a" "t0"; mkHop "000000000000000000000000000000bb" "t1"] "hi" None))].
Proof. split; reflexivity. Qed.

(** At B again, with ttl = 0: handed to the observer, not forwarded. *)
Lemma relay_forwards_while_received_ttl_positive_at_B :
  MessageStore.isDuplicate (msg_id m3_spent) (store nodeB) = false /\
  ws nodeB = Some OPEN /\
  newEffects nodeB (ws_onmessage plainCrypto "t1" (MeshMessageIn m3_spent) nodeB)
  = [CallMessageHandler App_onMessage m3_spent].
Proof.
  split; [reflexivity |]. split; [reflexivity |].
  exact (proj1 (relay_forwards_while_received_ttl_positive plainCrypto "t1" nodeB
                  m3_spent m3_spent eq_refl) eq_refl).
Defined.

(** B before its socket has opened: the envelope with ttl = 1 is handed to
    the observer and nothing is written to the hub. *)
Example relay_with_socket_connecting_warns :
  ws nodeB_connecting = Some CONNECTING /\
  newEffects nodeB_connecting
    (ws_onmessage plainCrypto "t1" (MeshMessageIn m3) nodeB_connecting)
  = [CallMessageHandler App_onMessage m3; Warn].
Proof. split; reflexivity. Qed.

(** A node that knows p1 and p2 loses its hub: the observer is not called. *)
Example close_with_two_peers :
  peers nodeWithPeers = ["p1"; "p2"] /\
  peerLostHandlers nodeWithPeers = [ConnectionStatus_updateStatus] /\
  newEffects nodeWithPeers (ws_onclose nodeWithPeers)
  = [SetTimeout ConnectToServer 3000%Z].
Proof. repeat split. Qed.

Lemma createE2EMessage_saves_twice_at_Z :
  exists n' me ke,
    createE2EMessage plainCrypto "t0" "m4" [] "evacuate" None adminZ = Some (n', (me, ke)) /\
    messageMesh (store n') = [me; me] /\ keyMesh (store n') = [ke; ke] /\
    dedupe (store n') = [].
Proof.
  eexists _, _, _. split; [reflexivity |].
  destruct (createE2EMessage_saves_twice plainCrypto "t0" "m4" [] "evacuate" None
              adminZ _ _ _ eq_refl) as (Hm & Hk & _ & _ & Hd & _).
  split; [exact Hm |]. split; [exact Hk | exact Hd].
Defined.

End Scenarios.

Section HubScenarios.

Import Hub.

(** Two sockets registered under one peerId: both stay open, both hold the
    id, and the map knows only the second. *)
Lemma two_open_sockets_under_one_peerId :
  1 ∈ opened twoTabs /\ 2 ∈ opened twoTabs /\
  peerIdOf twoTabs !! 1 = Some "a" /\ peerIdOf twoTabs !! 2 = Some "a" /\
  peers twoTabs !! "a" = Some 2 /\
  peerIdOf twice !! 1 = Some "b" /\
  peers twice !! "a" = Some 1 /\ peers twice !! "b" = Some 1 /\
  ~ one_to_one twoTabs /\ ~ one_to_one twice.
Proof.
  assert (H1 : 1 ∈ opened twoTabs) by (apply (bool_decide_unpack _); vm_compute; exact I).
  assert (H2 : 2 ∈ opened twoTabs) by (apply (bool_decide_unpack _); vm_compute; exact I).
  assert (H3 : peerIdOf twoTabs !! 1 = Some "a") by (vm_compute; reflexivity).
  assert (H4 : peers twoTabs !! "a" = Some 2) by (vm_compute; reflexivity).
  assert (H5 : peerIdOf twice !! 1 = Some "b") by (vm_compute; reflexivity).
  assert (H6 : peers twice !! "a" = Some 1) by (vm_compute; reflexivity).
  repeat split; try assumption; try (vm_compute; reflexivity).
  - intros Hone.
    assert (peers twoTabs !! "a" = Some 1) as H by (apply Hone; tauto).
    rewrite H4 in H. discriminate.
  - intros Hone. apply Hone in H6. destruct H6 as [H6 _].
    rewrite H5 in H6. discriminate.
Qed.

(** Socket 1 of [twoTabs] sends a mesh_message: socket 2, open and
    registered, receives nothing.  Socket 1 of [twice] sends one: the hub
    writes it back to socket 1. *)
Lemma fan_out_misses_a_peer_and_echoes :
  peerIdOf twoTabs !! 1 = Some "a" /\
  2 ∈ opened twoTabs /\ peerIdOf twoTabs !! 2 = Some "a" /\
  wire (on_message 1 (mesh_message_in hello JUndefined) twoTabs) = wire twoTabs /\
  peerIdOf twice !! 1 = Some "b" /\
  wire (on_message 1 (mesh_message_in hello JUndefined) twice)
  = wire twice ++ [(1, mesh_message hello "b" JUndefined)].
Proof.
  repeat split; vm_compute; reflexivity.
Qed.

Lemma twoPeers_orderly : orderly empty twoPeersEvents.
Proof.
  simpl. repeat split; try (vm_compute; reflexivity).
  all: intros H; vm_compute in H; discriminate.
Qed.

(** Socket 1 of [twoPeers] sends a mesh_message: it goes to socket 2, the
    other open registered socket, with the envelope as received. *)
Lemma mesh_message_fans_out_by_peerId_at_twoPeers :
  peerIdOf twoPeers !! 1 = Some "a" /\ nonempty "a" = true /\ truthy hello = true /\
  one_to_one twoPeers /\
  (2, mesh_message hello "a" JUndefined)
    ∈ wire (on_message 1 (mesh_message_in hello JUndefined) twoPeers) /\
  (1, mesh_message hello "a" JUndefined)
    ∉ drop (length (wire twoPeers))
           (wire (on_message 1 (mesh_message_in hello JUndefined) twoPeers)).
Proof.
  assert (Hid : peerIdOf twoPeers !! 1 = Some "a") by (vm_compute; reflexivity).
  assert (Hone : one_to_one twoPeers).
  { apply orderly_one_to_one; [apply empty_one_to_one | apply twoPeers_orderly]. }
  assert (Hopen1 : 1 ∈ opened twoPeers) by (vm_compute; reflexivity).
  assert (Hopen2 : 2 ∈ opened twoPeers) by (vm_compute; reflexivity).
  assert (Hid2 : peerIdOf twoPeers !! 2 = Some "b") by (vm_compute; reflexivity).
  destruct (mesh_message_fans_out_by_peerId 1 hello JUndefined "a" twoPeers
              Hid eq_refl eq_refl) as (sent & Hw & _ & Hothers).
  specialize (Hothers Hone Hopen1).
  split; [exact Hid |]. split; [reflexivity |]. split; [reflexivity |].
  split; [exact Hone |]. rewrite Hw. split.
  - apply elem_of_app. right. apply Hothers.
    split; [lia |]. split; [assumption | eauto].
  - rewrite drop_app_length. intros Hin. apply Hothers in Hin.
    destruct Hin as [Hne _]. now apply Hne.
Defined.

End HubScenarios.

(** * Further properties: node identity and admin keys *)

Section IdentityFacts.

Import NodeIdGenerator.

Lemma string_app_cons (c : Ascii.ascii) (s t : string) :
  (String c s ++ t)%string = String c (s ++ t)%string.
Proof. reflexivity. Qed.

Lemma string_app_nil_l (t : string) : ("" ++ t)%string = t.
Proof. reflexivity. Qed.

Lemma string_app_nil_r (s : string) : (s ++ "")%string = s.
Proof.
  induction s as [| c s IH]; [reflexivity |].
  now rewrite string_app_cons, IH.
Qed.

Lemma concat_empty_cons (x : string) (xs : list string) :
  String.concat "" (x :: xs) = (x ++ String.concat "" xs)%string.
Proof.
  destruct xs as [| y ys]; simpl; [| reflexivity].
  now rewrite string_app_nil_r.
Qed.

Lemma string_length_app (s t : string) :
  String.length (s ++ t)%string = String.length s + String.length t.
Proof.
  induction s as [| c s IH]; [reflexivity |].
  rewrite string_app_cons. simpl. now rewrite IH.
Qed.

Lemma allChars_app (p : Ascii.ascii -> bool) (s t : string) :
  allChars p (s ++ t)%string = allChars p s && allChars p t.
Proof.
  induction s as [| c s IH]; [reflexivity |].
  rewrite string_app_cons. simpl. rewrite IH. now rewrite andb_assoc.
Qed.

Lemma string_app_inj (s1 s2 t1 t2 : string) :
  String.length s1 = String.length s2 ->
  (s1 ++ t1)%string = (s2 ++ t2)%string -> s1 = s2 /\ t1 = t2.
Proof.
  revert s2. induction s1 as [| c s1 IH]; intros [| d s2] Hlen Heq;
    rewrite ?string_app_cons, ?string_app_nil_l in Heq; try discriminate.
  - now split.
  - injection Heq as -> Heq. injection Hlen as Hlen.
    destruct (IH s2 Hlen Heq) as [-> ->]. now split.
Qed.

(** Each byte becomes exactly two lower-case hex characters. *)
Lemma hex_byte_shape (b : Byte.byte) :
  String.length (padStart2 (toString16 b)) = 2 /\
  allChars isHexChar (padStart2 (toString16 b)) = true.
Proof. destruct b; split; reflexivity. Qed.

(** ... from which the byte can be read back. *)
Lemma hex_byte_inj (b1 b2 : Byte.byte) :
  padStart2 (toString16 b1) = padStart2 (toString16 b2) -> b1 = b2.
Proof.
  pose (value := fun c : Ascii.ascii =>
          let n := Ascii.N_of_ascii c in
          if (n <=? 57)%N then (n - 48)%N else (n - 87)%N).
  pose (decode := fun s : string =>
          match s with
          | String c1 (String c2 _) => Byte.of_N (16 * value c1 + value c2)
          | _ => None
          end).
  assert (Hdec : forall b, decode (padStart2 (toString16 b)) = Some b)
    by (intros b; destruct b; reflexivity).
  intros Heq. apply (f_equal decode) in Heq.
  rewrite !Hdec in Heq. now injection Heq.
Qed.

Lemma generateNodeId_cons (b : Byte.byte) (array : list Byte.byte) :
  generateNodeId (b :: array) =
  (padStart2 (toString16 b) ++ generateNodeId array)%string.
Proof. unfold generateNodeId. simpl map. apply concat_empty_cons. Qed.

(** X1. [generateNodeId] writes two lower-case hex characters per random
    byte, so the 16 bytes of a node id give 32 characters, and different
    byte arrays give different ids. *)
Theorem generateNodeId_hex (array array' : list Byte.byte) :
  String.length (generateNodeId array) = 2 * length array /\
  allChars isHexChar (generateNodeId array) = true /\
  (generateNodeId array = generateNodeId array' -> array = array').
Proof.
  split; [| split].
  - induction array as [| b array IH]; [reflexivity |].
    rewrite generateNodeId_cons, string_length_app, IH.
    destruct (hex_byte_shape b) as [-> _]. simpl. lia.
  - induction array as [| b array IH]; [reflexivity |].
    rewrite generateNodeId_cons, allChars_app, IH.
    destruct (hex_byte_shape b) as [_ ->]. reflexivity.
  - revert array'. induction array as [| b array IH]; intros [| b' array'] Heq.
    + reflexivity.
    + rewrite generateNodeId_cons in Heq.
      destruct (hex_byte_shape b') as [Hlen _].
      apply (f_equal String.length) in Heq.
      rewrite string_length_app, Hlen in Heq. simpl in Heq. lia.
    + rewrite generateNodeId_cons in Heq.
      destruct (hex_byte_shape b) as [Hlen _].
      apply (f_equal String.length) in Heq.
      rewrite string_length_app, Hlen in Heq. simpl in Heq. lia.
    + rewrite !generateNodeId_cons in Heq.
      apply string_app_inj in Heq.
      * destruct Heq as [Hb Hrest]. apply hex_byte_inj in Hb. subst.
        f_equal. now apply IH.
      * destruct (hex_byte_shape b) as [-> _].
        destruct (hex_byte_shape b') as [-> _]. reflexivity.
Qed.

Lemma generateNodeId_nonempty (array : list Byte.byte) :
  array <> [] -> nonempty (generateNodeId array) = true.
Proof.
  destruct array as [| b array]; [congruence |]. intros _.
  rewrite generateNodeId_cons.
  destruct (hex_byte_shape b) as [Hlen _].
  destruct (padStart2 (toString16 b)); [discriminate | reflexivity].
Qed.

(** X2. Once [getOrCreateNodeId] has returned an id, every later call
    returns the same id and changes neither the cache nor the storage,
    whatever the random source would give; [getPseudoId] is "user_" followed
    by the first eight characters of that id. *)
Theorem getOrCreateNodeId_stable (array1 array2 : list Byte.byte) (st : Ids) :
  array1 <> [] ->
  let r := getOrCreateNodeId array1 st in
  nonempty r.1 = true /\
  cachedId r.2 = Some r.1 /\
  getOrCreateNodeId array2 r.2 = r /\
  getPseudoId array2 r.2 = (("user_" ++ String.substring 0 8 r.1)%string, r.2).
Proof.
  intros Harr. cbv zeta.
  assert (Hstable : forall id st', cachedId st' = Some id -> nonempty id = true ->
            getOrCreateNodeId array2 st' = (id, st')).
  { intros id st' Hc Hne. unfold getOrCreateNodeId. rewrite Hc. simpl. now rewrite Hne. }
  assert (H : nonempty (getOrCreateNodeId array1 st).1 = true /\
              cachedId (getOrCreateNodeId array1 st).2
              = Some (getOrCreateNodeId array1 st).1).
  { unfold getOrCreateNodeId.
    destruct (nonempty (default "" (cachedId st))) eqn:Hc; simpl.
    - split; [assumption |].
      destruct (cachedId st) as [id |]; [reflexivity | discriminate].
    - destruct (nonempty (default "" (storedId st))) eqn:Hs; simpl.
      + now split.
      + split; [now apply generateNodeId_nonempty | reflexivity]. }
  destruct H as [Hne Hcache].
  assert (Hagain := Hstable _ _ Hcache Hne).
  split; [assumption |]. split; [assumption |].
  split.
  - rewrite Hagain. now destruct (getOrCreateNodeId array1 st).
  - unfold getPseudoId. now rewrite Hagain.
Qed.

End IdentityFacts.

Section AdminKeyFacts.

Import AdminKeyStore AdminKeyGenerator.

(** X3. [initializeAdminMode] generates admin keys at most once: a complete
    pair already in the store is returned as it is, and after any call a
    further call returns the same pair and leaves the store as it is.  The
    logs and the dedupe list are never touched, the node can decrypt
    afterwards, and only [resetAdminKeys] makes the next call take a new
    pair. *)
Theorem initializeAdminMode_generates_once (generated generated' : AdminKeyPair)
    (s : Store) :
  nonempty (publicKey generated) = true ->
  nonempty (privateKey generated) = true ->
  let r := initializeAdminMode generated s in
  initializeAdminMode generated' r.2 = r /\
  (forall kp, getAdminKeyPair s = Some kp -> r.1 = kp) /\
  getAdminKeyPair r.2 = Some r.1 /\
  canDecryptMessages r.2 = true /\
  (messageMesh r.2, keyMesh r.2, decrypted r.2, dedupe r.2, broadcasts r.2)
  = (messageMesh s, keyMesh s, decrypted s, dedupe s, broadcasts s) /\
  canDecryptMessages (resetAdminKeys r.2) = false /\
  (initializeAdminMode generated' (resetAdminKeys r.2)).1 = generated'.
Proof.
  intros Hpub Hpriv. cbv zeta.
  unfold initializeAdminMode, generateAndStoreAdminKeys, hasAdminKeys,
    getAdminKeyPair, canDecryptMessages, isAdminMode, hasAdminKeys,
    resetAdminKeys, clearAdminKeys, saveAdminKeyPair, setAdminMode.
  destruct s as [b mm km d dd am [priv |] [pub |]]; simpl;
    try (rewrite Hpub, Hpriv; simpl; repeat split; try congruence;
         destruct generated; reflexivity).
  destruct (nonempty priv) eqn:H1; destruct (nonempty pub) eqn:H2; simpl;
    rewrite ?H1, ?H2, ?Hpub, ?Hpriv; simpl; repeat split; try congruence;
    destruct generated; reflexivity.
Qed.

End AdminKeyFacts.

(** * Further properties: the node's peer set *)

Section PeerFacts.

Variable crypto : CryptoUtils.

Lemma includes_false (p : string) (l : list string) :
  MessageStore.includes p l = false <-> ~ In p l.
Proof.
  rewrite <- includes_true. destruct (MessageStore.includes p l); split; congruence.
Qed.

Lemma discoverPeer_known (n : MeshNetwork) (p : string) :
  In p (peers n) -> discoverPeer n p = n.
Proof. intros Hin. unfold discoverPeer. apply includes_true in Hin. now rewrite Hin. Qed.

Lemma losePeer_unknown (n : MeshNetwork) (p : string) :
  ~ In p (peers n) -> losePeer n p = n.
Proof. intros Hin. unfold losePeer. apply includes_false in Hin. now rewrite Hin. Qed.

Lemma filter_other_notin (p : string) (l : list string) :
  ~ In p l -> filter (fun q => q ≠ p) l = l.
Proof.
  induction l as [| q l IH]; intros Hin; [reflexivity |].
  rewrite filter_cons_True.
  - f_equal. apply IH. intros H. apply Hin. now right.
  - intros ->. apply Hin. now left.
Qed.

Lemma filter_other_gone (p : string) (l : list string) :
  ~ In p (filter (fun q => q ≠ p) l).
Proof.
  rewrite <- list_elem_of_In, list_elem_of_filter. tauto.
Qed.

(** A peer_list frame, one peer after the other. *)
Lemma fold_discoverPeer_spec (l : list string) (n : MeshNetwork) :
  exists fresh,
    peers (fold_left discoverPeer l n) = peers n ++ fresh /\
    NoDup fresh /\
    (forall p, In p fresh <-> In p l /\ ~ In p (peers n)) /\
    effects (fold_left discoverPeer l n) =
      effects n ++ flat_map (fun p => map (fun h => CallPeerDiscovered h p)
                                          (peerDiscoveredHandlers n)) fresh /\
    peerDiscoveredHandlers (fold_left discoverPeer l n) = peerDiscoveredHandlers n /\
    peerLostHandlers (fold_left discoverPeer l n) = peerLostHandlers n.
Proof.
  revert n. induction l as [| p l IH]; intros n; simpl.
  - exists []. rewrite !app_nil_r. repeat split; try constructor; simpl; tauto.
  - destruct (in_dec String.string_dec p (peers n)) as [Hin | Hnot].
    + rewrite discoverPeer_known by assumption.
      destruct (IH n) as (fresh & Hp & Hnd & Hmem & Heff & Hh1 & Hh2).
      exists fresh. split; [assumption |]. split; [assumption |].
      split; [| now repeat split].
      intros q. rewrite Hmem. split.
      * intros [Hl Hn]. split; [now right | assumption].
      * intros [[<- | Hl] Hn]; [contradiction | tauto].
    + assert (Hstep : discoverPeer n p =
                emit (map (fun h => CallPeerDiscovered h p) (peerDiscoveredHandlers n))
                     (set_peers (peers n ++ [p]) n)).
      { unfold discoverPeer. apply includes_false in Hnot. now rewrite Hnot. }
      rewrite Hstep.
      destruct (IH (emit (map (fun h => CallPeerDiscovered h p)
                              (peerDiscoveredHandlers n))
                         (set_peers (peers n ++ [p]) n)))
        as (fresh & Hp & Hnd & Hmem & Heff & Hh1 & Hh2).
      simpl in *.
      exists (p :: fresh). rewrite Hp, Heff, Hh1, Hh2. simpl.
      rewrite <- !app_assoc. simpl.
      split; [reflexivity |]. split; [| split; [| now repeat split]].
      * constructor; [| assumption].
        intros Hf%list_elem_of_In. apply Hmem in Hf. destruct Hf as [_ Hf].
        apply Hf, in_or_app. right. now left.
      * intros q. split.
        -- intros [<- | Hf]; [split; [now left | assumption] |].
           apply Hmem in Hf. destruct Hf as [Hl Hf].
           split; [now right |]. intros Hq. apply Hf, in_or_app. now left.
        -- intros [[<- | Hl] Hn]; [now left |].
           destruct (String.string_dec p q) as [<- | Hne]; [now left |].
           right. apply Hmem. split; [assumption |].
           intros Hq. apply in_app_or in Hq.
           destruct Hq as [Hq | [Hq | []]]; [contradiction | congruence].
Qed.

(** X4. A peer_list frame only adds to the peer set: the peers already known
    stay, in their order, also when the list does not name them; each listed
    peer that was not known is appended once, and every peer-discovered
    observer is called once for it and for no other peer.  The store is not
    touched. *)
Theorem peer_list_only_adds now (l : list string) (n : MeshNetwork) :
  let n' := ws_onmessage crypto now (PeerList l) n in
  exists fresh,
    peers n' = peers n ++ fresh /\
    NoDup fresh /\
    (forall p, In p fresh <-> In p l /\ ~ In p (peers n)) /\
    newEffects n n' =
      flat_map (fun p => map (fun h => CallPeerDiscovered h p)
                             (peerDiscoveredHandlers n)) fresh /\
    store n' = store n.
Proof.
  simpl.
  destruct (fold_discoverPeer_spec l n) as (fresh & Hp & Hnd & Hmem & Heff & _).
  exists fresh. split; [assumption |]. split; [assumption |].
  split; [assumption |]. split.
  - now apply newEffects_app.
  - apply fold_discoverPeer_store.
Qed.

(** X5. For a peer the node does not know: peer_disconnected is ignored
    without calling anybody; peer_connected followed by peer_disconnected
    brings the peer set back to what it was, calling each peer-discovered
    observer and then each peer-lost observer once; and a second
    peer_connected for the same peer is ignored. *)
Theorem peer_connected_disconnected_round_trip now (p : string) (n : MeshNetwork) :
  ~ In p (peers n) ->
  let n1 := ws_onmessage crypto now (PeerConnected p) n in
  let n2 := ws_onmessage crypto now (PeerDisconnected p) n1 in
  ws_onmessage crypto now (PeerDisconnected p) n = n /\
  peers n1 = peers n ++ [p] /\
  ws_onmessage crypto now (PeerConnected p) n1 = n1 /\
  peers n2 = peers n /\
  newEffects n n2 =
    map (fun h => CallPeerDiscovered h p) (peerDiscoveredHandlers n)
    ++ map (fun h => CallPeerLost h p) (peerLostHandlers n) /\
  store n2 = store n.
Proof.
  intros Hnot. simpl.
  assert (Hstep : discoverPeer n p =
            emit (map (fun h => CallPeerDiscovered h p) (peerDiscoveredHandlers n))
                 (set_peers (peers n ++ [p]) n)).
  { unfold discoverPeer. apply includes_false in Hnot. now rewrite Hnot. }
  split; [now apply losePeer_unknown |].
  rewrite Hstep. split; [reflexivity |].
  split.
  { apply discoverPeer_known. simpl. apply in_or_app. right. now left. }
  assert (Hin : MessageStore.includes p (peers n ++ [p]) = true).
  { apply includes_true, in_or_app. right. now left. }
  unfold losePeer. simpl. rewrite Hin. simpl.
  rewrite filter_app, filter_other_notin by assumption.
  rewrite filter_cons_False, filter_nil, app_nil_r by tauto.
  repeat split.
  apply newEffects_app. simpl. now rewrite <- app_assoc.
Qed.

End PeerFacts.

(** * Further properties: what a relay writes and when *)

Section RelayExtras.

Variable crypto : CryptoUtils.

Lemma same_shell_refl (n : MeshNetwork) : same_shell n n.
Proof. repeat split. Qed.

Lemma sendToServer_shell frame (n : MeshNetwork) : same_shell n (sendToServer frame n).
Proof. unfold sendToServer. repeat case_match; repeat split. Qed.

Lemma handleMessageEnvelope_shell now m (n : MeshNetwork) :
  same_shell n (handleMessageEnvelope crypto now m n).
Proof.
  unfold handleMessageEnvelope, forwardMessageEnvelope, sendToServer.
  rewrite callMessageHandlers_eq. repeat case_match; repeat split.
Qed.

Lemma handleKeyEnvelope_shell now k (n : MeshNetwork) :
  same_shell n (handleKeyEnvelope crypto now k n).
Proof.
  unfold handleKeyEnvelope. rewrite callKeyHandlers_eq.
  repeat case_match; repeat split.
Qed.

Lemma broadcastMessage_shell now m (n : MeshNetwork) :
  same_shell n (broadcastMessage crypto now m n).
Proof.
  unfold broadcastMessage, sendToServer. rewrite callMessageHandlers_eq.
  repeat case_match; repeat split.
Qed.

Lemma broadcastKeyEnvelope_shell now k (n : MeshNetwork) :
  same_shell n (broadcastKeyEnvelope crypto now k n).
Proof.
  unfold broadcastKeyEnvelope, sendToServer. rewrite callKeyHandlers_eq.
  repeat case_match; repeat split.
Qed.

Lemma handleKeyEnvelope_effects now k (n : MeshNetwork) :
  MessageStore.isDuplicate (key_msg_id k) (store n) = false ->
  effects (handleKeyEnvelope crypto now k n) =
  effects n ++ map (fun h => CallKeyHandler h k) (keyHandlers n).
Proof.
  unfold handleKeyEnvelope. intros ->. now rewrite callKeyHandlers_eq.
Qed.

Lemma broadcastKeyEnvelope_effects now k (n : MeshNetwork) :
  effects (broadcastKeyEnvelope crypto now k n) =
  effects n ++ map (fun h => CallKeyHandler h k) (keyHandlers n)
            ++ [sendEffect (ws n) (MeshKey k)].
Proof.
  unfold broadcastKeyEnvelope.
  rewrite sendToServer_effects, callKeyHandlers_eq. simpl.
  now rewrite <- app_assoc.
Qed.

(** X6. A key envelope leaves only the node that made it: a relay that
    reads one from the hub calls its key handlers (or nothing, for a
    duplicate) and writes no frame, while [broadcastKeyEnvelope] at the
    origin writes exactly one frame, marked as a key, after the handlers. *)
Theorem key_envelope_is_never_relayed now (key : KeyEnvelope) (n : MeshNetwork) :
  newEffects n (ws_onmessage crypto now (MeshKeyIn key) n) =
    (if MessageStore.isDuplicate (key_msg_id key) (store n) then []
     else map (fun h => CallKeyHandler h key) (keyHandlers n)) /\
  (forall frame, ~ In (WsSend frame)
                   (newEffects n (ws_onmessage crypto now (MeshKeyIn key) n))) /\
  newEffects n (broadcastKeyEnvelope crypto now key n) =
    map (fun h => CallKeyHandler h key) (keyHandlers n)
    ++ [sendEffect (ws n) (MeshKey key)].
Proof.
  assert (H : newEffects n (ws_onmessage crypto now (MeshKeyIn key) n) =
    (if MessageStore.isDuplicate (key_msg_id key) (store n) then []
     else map (fun h => CallKeyHandler h key) (keyHandlers n))).
  { simpl. destruct (MessageStore.isDuplicate (key_msg_id key) (store n)) eqn:Hdup.
    - rewrite handleKeyEnvelope_duplicate by assumption. apply newEffects_same.
    - apply newEffects_app. now apply handleKeyEnvelope_effects. }
  split; [exact H |]. split.
  - intros frame. rewrite H. case_match; [tauto |].
    intros Hin. apply in_map_iff in Hin. destruct Hin as (h & Heq & _). discriminate.
  - apply newEffects_app. apply broadcastKeyEnvelope_effects.
Qed.

Lemma fold_discoverPeer_known (l : list string) (n : MeshNetwork) :
  (forall p, In p l -> In p (peers n)) -> fold_left discoverPeer l n = n.
Proof.
  induction l as [| p l IH]; intros Hall; simpl; [reflexivity |].
  rewrite discoverPeer_known by (apply Hall; now left).
  apply IH. intros q Hq. apply Hall. now right.
Qed.

(** X7. Reading the same hub frame a second time changes nothing, whatever
    the frame: the store, the peer set and the log of effects stay as the
    first reading left them. *)
Theorem replayed_frame_is_ignored now1 now2 (frame : ServerFrame) (n : MeshNetwork) :
  ws_onmessage crypto now2 frame (ws_onmessage crypto now1 frame n)
  = ws_onmessage crypto now1 frame n.
Proof.
  destruct frame as [l | p | p | m | k |]; simpl.
  - apply fold_discoverPeer_known. intros p Hp.
    destruct (fold_discoverPeer_spec l n) as (fresh & -> & _ & Hmem & _).
    apply in_or_app.
    destruct (in_dec String.string_dec p (peers n)) as [Hin | Hnot]; [now left |].
    right. apply Hmem. now split.
  - destruct (in_dec String.string_dec p (peers n)) as [Hin | Hnot].
    + rewrite (discoverPeer_known n p Hin). now apply discoverPeer_known.
    + apply discoverPeer_known. unfold discoverPeer.
      apply includes_false in Hnot. rewrite Hnot. simpl.
      apply in_or_app. right. now left.
  - destruct (in_dec String.string_dec p (peers n)) as [Hin | Hnot].
    + apply losePeer_unknown. unfold losePeer.
      apply includes_true in Hin. rewrite Hin. simpl. apply filter_other_gone.
    + rewrite (losePeer_unknown n p Hnot). now apply losePeer_unknown.
  - apply handleMessageEnvelope_duplicate, handleMessageEnvelope_marks.
  - apply handleKeyEnvelope_duplicate, handleKeyEnvelope_marks.
  - reflexivity.
Qed.

End RelayExtras.

Section NodeInvariants.

Variable crypto : CryptoUtils.

Lemma noSend_app (l1 l2 : list Effect) : noSend l1 -> noSend l2 -> noSend (l1 ++ l2).
Proof. unfold noSend. intros. apply Forall_app. now split. Qed.

Lemma noSend_message_calls (m : MessageEnvelope) (hs : list MessageHandler) :
  noSend (map (fun h => CallMessageHandler h m) hs).
Proof. induction hs; constructor; auto. Qed.

Lemma noSend_key_calls (k : KeyEnvelope) (hs : list KeyHandler) :
  noSend (map (fun h => CallKeyHandler h k) hs).
Proof. induction hs; constructor; auto. Qed.

Lemma noSend_discovered (p : string) (hs : list PeerHandler) :
  noSend (map (fun h => CallPeerDiscovered h p) hs).
Proof. induction hs; constructor; auto. Qed.

Lemma noSend_lost (p : string) (hs : list PeerHandler) :
  noSend (map (fun h => CallPeerLost h p) hs).
Proof. induction hs; constructor; auto. Qed.

Lemma noSend_In (l : list Effect) (frame : ClientFrame) :
  noSend l -> ~ In (WsSend frame) l.
Proof.
  unfold noSend. rewrite Forall_forall. intros Hall Hin.
  apply list_elem_of_In in Hin. specialize (Hall _ Hin). discriminate.
Qed.

Lemma sendEffect_offline (n : MeshNetwork) (frame : ClientFrame) :
  isConnected n = false -> sendEffect (ws n) frame = Warn.
Proof. unfold isConnected, sendEffect. now repeat case_match. Qed.

Lemma ws_onclose_fields (n : MeshNetwork) :
  effects (ws_onclose n) =
    effects n ++ (if Nat.ltb (reconnectAttempts n) 10
                  then [SetTimeout ConnectToServer 3000%Z] else []) /\
  reconnectAttempts (ws_onclose n) =
    (if Nat.ltb (reconnectAttempts n) 10
     then S (reconnectAttempts n) else reconnectAttempts n) /\
  store (ws_onclose n) = store n /\
  nodeId (ws_onclose n) = nodeId n /\ pseudoId (ws_onclose n) = pseudoId n.
Proof.
  unfold ws_onclose, maxReconnectAttempts, reconnectDelay. simpl.
  destruct (Nat.ltb (reconnectAttempts n) 10); simpl;
    rewrite flat_map_nil_body, !app_nil_r; repeat split.
Qed.

Lemma createE2EMessage_effects now uuid sessionKey content m
    (n n' : MeshNetwork) (me : MessageEnvelope) (ke : KeyEnvelope) :
  createE2EMessage crypto now uuid sessionKey content m n = Some (n', (me, ke)) ->
  effects n' =
    effects n ++ map (fun h => CallMessageHandler h me) (messageHandlers n)
              ++ [sendEffect (ws n) (MeshMessage me)]
              ++ map (fun h => CallKeyHandler h ke) (keyHandlers n)
              ++ [sendEffect (ws n) (MeshKey ke)] /\
  same_shell n n'.
Proof.
  unfold createE2EMessage. intros H.
  repeat case_match; try discriminate. simplify_eq.
  match goal with |- context [broadcastKeyEnvelope _ _ ?k (broadcastMessage _ _ ?x ?y)] =>
    pose proof (broadcastMessage_shell crypto now x y) as Hs1;
    pose proof (broadcastKeyEnvelope_shell crypto now k (broadcastMessage crypto now x y))
      as Hs2
  end.
  rewrite broadcastKeyEnvelope_effects, broadcastMessage_effects.
  unfold same_shell in *. simpl in *.
  destruct Hs1 as (? & ? & Hk & ? & ? & ? & ? & Hw & ?).
  destruct Hs2 as (? & ? & ? & ? & ? & ? & ? & ? & ?).
  rewrite Hk, Hw. split.
  - now rewrite <- !app_assoc.
  - repeat split; congruence.
Qed.

Lemma node_step_offline (n : MeshNetwork) (e : NodeEvent) :
  isConnected n = false -> e <> WsOpen ->
  exists l, effects (node_step crypto n e) = effects n ++ l /\ noSend l.
Proof.
  intros Hoff Hne.
  assert (Hnil : exists l, effects n = effects n ++ l /\ noSend l).
  { exists []. rewrite app_nil_r. split; [reflexivity | constructor]. }
  destruct e; simpl; try exact Hnil; try congruence.
  - (* WsMessage *)
    destruct frame as [l | p | p | m | k |]; simpl; try exact Hnil.
    + destruct (fold_discoverPeer_spec l n) as (fresh & _ & _ & _ & Heff & _).
      eexists. split; [exact Heff |]. clear Heff.
      induction fresh as [| p fresh IH]; simpl; [constructor |].
      apply noSend_app; [apply noSend_discovered | exact IH].
    + unfold discoverPeer. case_match; [exact Hnil |].
      eexists. split; [reflexivity | apply noSend_discovered].
    + unfold losePeer. case_match; [| exact Hnil].
      eexists. split; [reflexivity | apply noSend_lost].
    + destruct (MessageStore.isDuplicate (msg_id m) (store n)) eqn:Hdup.
      * rewrite handleMessageEnvelope_duplicate by assumption. exact Hnil.
      * eexists. split; [now apply handleMessageEnvelope_effects |].
        apply noSend_app; [apply noSend_message_calls |].
        case_match; [| constructor].
        rewrite sendEffect_offline by assumption. repeat constructor.
    + destruct (MessageStore.isDuplicate (key_msg_id k) (store n)) eqn:Hdup.
      * rewrite handleKeyEnvelope_duplicate by assumption. exact Hnil.
      * eexists. split; [now apply handleKeyEnvelope_effects |].
        apply noSend_key_calls.
  - (* WsClose *)
    destruct (ws_onclose_fields n) as (Heff & _).
    eexists. split; [exact Heff |]. case_match; repeat constructor.
  - (* CreateBroadcast *)
    rewrite broadcastMessage_effects. simpl.
    eexists. split; [reflexivity |].
    apply noSend_app; [apply noSend_message_calls |].
    rewrite sendEffect_offline by assumption. repeat constructor.
  - (* CreateE2EMessage *)
    destruct (createE2EMessage crypto now uuid sessionKey content m n)
      as [[n' [me ke]] |] eqn:Hc; [| exact Hnil].
    apply createE2EMessage_effects in Hc. destruct Hc as [Heff _].
    eexists. split; [exact Heff |].
    rewrite !sendEffect_offline by assumption.
    apply noSend_app; [apply noSend_message_calls |].
    apply noSend_app; [repeat constructor |].
    apply noSend_app; [apply noSend_key_calls | repeat constructor].
Qed.

(** X8. A node whose socket is not open writes no frame, whatever happens to
    it short of the socket opening; [createBroadcast] on such a node still
    puts the envelope into both logs and calls every message handler once
    before it gives up on the socket. *)
Theorem offline_node_writes_nothing (n : MeshNetwork) (e : NodeEvent)
    now uuid content m :
  isConnected n = false -> e <> WsOpen ->
  (forall frame, ~ In (WsSend frame) (newEffects n (node_step crypto n e))) /\
  let r := createBroadcast crypto now uuid content m n in
  newEffects n r.1 =
    map (fun h => CallMessageHandler h r.2) (messageHandlers n) ++ [Warn] /\
  messageMesh (store r.1) = messageMesh (store n) ++ [r.2] /\
  broadcasts (store r.1) = broadcasts (store n) ++ [r.2] /\
  msg_id r.2 = uuid /\ payload r.2 = content.
Proof.
  intros Hoff Hne. split.
  - destruct (node_step_offline n e Hoff Hne) as (l & Heff & Hno).
    intros frame. rewrite (newEffects_app _ _ _ Heff). now apply noSend_In.
  - cbv zeta. unfold createBroadcast. simpl.
    match goal with |- context [broadcastMessage _ ?t ?x ?y] =>
      destruct (broadcastMessage_logs crypto t x y) as (Hm & _ & _);
      pose proof (broadcastMessage_effects crypto t x y) as Heff;
      pose proof (broadcastMessage_store crypto t x y) as Hst;
      destruct (fold_message_handlers_only crypto t x (messageHandlers y)
                  (MessageStore.saveMessageEnvelope x (store y)))
        as (Hb & _)
    end.
    rewrite <- Hst in Hb. simpl in *.
    rewrite (sendEffect_offline n _ Hoff) in Heff.
    split; [now apply newEffects_app |].
    split; [exact Hm |]. split; [exact Hb |]. split; reflexivity.
Qed.

End NodeInvariants.

Section RunInvariants.

Variable crypto : CryptoUtils.

Lemma fold_discoverPeer_shell (l : list string) (n : MeshNetwork) :
  ws (fold_left discoverPeer l n) = ws n /\
  reconnectAttempts (fold_left discoverPeer l n) = reconnectAttempts n /\
  nodeId (fold_left discoverPeer l n) = nodeId n /\
  pseudoId (fold_left discoverPeer l n) = pseudoId n.
Proof.
  revert n. induction l as [| p l IH]; intros n; simpl; [repeat split |].
  destruct (IH (discoverPeer n p)) as (-> & -> & -> & ->).
  unfold discoverPeer. case_match; repeat split.
Qed.

Lemma node_step_attempts (n : MeshNetwork) (e : NodeEvent) :
  reconnectAttempts (node_step crypto n e) =
  match e with
  | WsOpen => 0
  | WsClose => if Nat.ltb (reconnectAttempts n) 10
               then S (reconnectAttempts n) else reconnectAttempts n
  | _ => reconnectAttempts n
  end.
Proof.
  destruct e; simpl; try reflexivity.
  - destruct frame as [l | p | p | m | k |]; simpl; try reflexivity.
    + apply fold_discoverPeer_shell.
    + unfold discoverPeer. now case_match.
    + unfold losePeer. now case_match.
    + apply handleMessageEnvelope_shell.
    + apply handleKeyEnvelope_shell.
  - apply ws_onclose_fields.
  - etransitivity; [apply broadcastMessage_shell | reflexivity].
  - destruct (createE2EMessage crypto now uuid sessionKey content m n)
      as [[n' [me ke]] |] eqn:Hc; [| reflexivity].
    apply createE2EMessage_effects in Hc. apply Hc.
Qed.

Lemma node_run_attempts (es : list NodeEvent) (n : MeshNetwork) :
  reconnectAttempts n <= 10 -> reconnectAttempts (node_run crypto es n) <= 10.
Proof.
  revert n. induction es as [| e es IH]; intros n Hb; simpl; [assumption |].
  apply IH. rewrite node_step_attempts.
  destruct e; try assumption; try lia.
  destruct (Nat.ltb_spec (reconnectAttempts n) 10); lia.
Qed.

Lemma iter_onclose (k : nat) (n : MeshNetwork) :
  reconnectAttempts n <= 10 ->
  reconnectAttempts (Nat.iter k ws_onclose n) = Nat.min (reconnectAttempts n + k) 10 /\
  effects (Nat.iter k ws_onclose n) =
    effects n ++ replicate (Nat.min k (10 - reconnectAttempts n))
                           (SetTimeout ConnectToServer 3000%Z).
Proof.
  intros Hb. induction k as [| k [IHa IHe]].
  - simpl. rewrite app_nil_r. split; [lia | reflexivity].
  - change (Nat.iter (S k) ws_onclose n) with (ws_onclose (Nat.iter k ws_onclose n)).
    destruct (ws_onclose_fields (Nat.iter k ws_onclose n)) as (He & Ha & _).
    rewrite He, Ha, IHa, IHe.
    destruct (Nat.ltb_spec (Nat.min (reconnectAttempts n + k) 10) 10) as [Hlt | Hge].
    + split; [lia |].
      replace (Nat.min (S k) (10 - reconnectAttempts n)) with
        (S (Nat.min k (10 - reconnectAttempts n))) by lia.
      now rewrite replicate_S_end, <- app_assoc.
    + split; [lia |].
      replace (Nat.min (S k) (10 - reconnectAttempts n)) with
        (Nat.min k (10 - reconnectAttempts n)) by lia.
      now rewrite app_nil_r.
Qed.

(** X9. The reconnect counter of a node never exceeds 10.  When the hub
    socket closes [k] times in a row without opening, a reconnect is armed
    (after 3000 ms) for the first closes only, until the counter reaches 10,
    and for none after that; nothing else is done on those closes.  An open
    socket sets the counter back to 0. *)
Theorem reconnect_budget (nodeId pseudoId : string) (es : list NodeEvent) (k : nat) :
  let n := node_run crypto es (newNode emptyStore nodeId pseudoId) in
  let n' := Nat.iter k ws_onclose n in
  reconnectAttempts n <= 10 /\
  newEffects n n' =
    replicate (Nat.min k (10 - reconnectAttempts n)) (SetTimeout ConnectToServer 3000%Z) /\
  reconnectAttempts n' = Nat.min (reconnectAttempts n + k) 10 /\
  reconnectAttempts (ws_onopen n') = 0.
Proof.
  cbv zeta.
  assert (Hb : reconnectAttempts
                 (node_run crypto es (newNode emptyStore nodeId pseudoId)) <= 10).
  { apply node_run_attempts. simpl. lia. }
  destruct (iter_onclose k _ Hb) as [Ha He].
  split; [assumption |]. split; [now apply newEffects_app |].
  split; [assumption | reflexivity].
Qed.

End RunInvariants.

(** * Further properties: what the logs hold *)

Section LogInvariants.

Variable crypto : CryptoUtils.

Lemma broadcastMessage_only now m (n : MeshNetwork) :
  decrypted_only (MessageStore.saveMessageEnvelope m (store n))
                 (store (broadcastMessage crypto now m n)).
Proof. rewrite broadcastMessage_store. apply fold_message_handlers_only. Qed.

Lemma broadcastKeyEnvelope_only now k (n : MeshNetwork) :
  decrypted_only (MessageStore.saveKeyEnvelope k (store n))
                 (store (broadcastKeyEnvelope crypto now k n)).
Proof. rewrite broadcastKeyEnvelope_store. apply fold_key_handlers_only. Qed.

Lemma saveKeyEnvelope_only_congr (k : KeyEnvelope) (a b : Store) :
  decrypted_only a b ->
  decrypted_only (MessageStore.saveKeyEnvelope k a) (MessageStore.saveKeyEnvelope k b).
Proof.
  unfold decrypted_only. simpl. intros (-> & -> & -> & -> & -> & -> & ->).
  repeat split.
Qed.

Lemma createE2EMessage_only now uuid sessionKey content m
    (n n' : MeshNetwork) (me : MessageEnvelope) (ke : KeyEnvelope) :
  createE2EMessage crypto now uuid sessionKey content m n = Some (n', (me, ke)) ->
  decrypted_only
    (MessageStore.saveKeyEnvelope ke
       (MessageStore.saveMessageEnvelope me
          (MessageStore.saveKeyEnvelope ke
             (MessageStore.saveMessageEnvelope me (store n)))))
    (store n').
Proof.
  unfold createE2EMessage. intros H.
  repeat case_match; try discriminate. simplify_eq.
  eapply decrypted_only_trans; [| apply broadcastKeyEnvelope_only].
  apply saveKeyEnvelope_only_congr.
  eapply decrypted_only_trans; [| apply broadcastMessage_only].
  apply decrypted_only_refl.
Qed.

(** Every event writes one of a few shapes into the logs. *)
Lemma node_step_logged (n : MeshNetwork) (e : NodeEvent) :
  exists s1, logged n s1 /\ decrypted_only s1 (store (node_step crypto n e)) /\
             nodeId (node_step crypto n e) = nodeId n /\
             pseudoId (node_step crypto n e) = pseudoId n.
Proof.
  assert (Hnil : forall n', store n' = store n -> nodeId n' = nodeId n ->
            pseudoId n' = pseudoId n ->
            exists s1, logged n s1 /\ decrypted_only s1 (store n') /\
                       nodeId n' = nodeId n /\ pseudoId n' = pseudoId n).
  { intros n' Hs Hi Hp. exists (store n). rewrite Hs.
    repeat split; try assumption. constructor. }
  destruct e; simpl; try (apply Hnil; reflexivity).
  - (* WsMessage *)
    destruct frame as [l | p | p | m | k |]; simpl; try (apply Hnil; reflexivity).
    + apply Hnil; [apply fold_discoverPeer_store | apply fold_discoverPeer_shell ..].
    + apply Hnil; unfold discoverPeer; now case_match.
    + apply Hnil; unfold losePeer; now case_match.
    + destruct (MessageStore.isDuplicate (msg_id m) (store n)) eqn:Hdup.
      * rewrite handleMessageEnvelope_duplicate by assumption. now apply Hnil.
      * eexists. split; [apply (logged_inbound_message n m) |].
        rewrite handleMessageEnvelope_store by assumption.
        split; [apply fold_message_handlers_only |].
        split; apply handleMessageEnvelope_shell.
    + destruct (MessageStore.isDuplicate (key_msg_id k) (store n)) eqn:Hdup.
      * rewrite handleKeyEnvelope_duplicate by assumption. now apply Hnil.
      * eexists. split; [apply (logged_inbound_key n k) |].
        rewrite handleKeyEnvelope_store by assumption.
        split; [apply fold_key_handlers_only |].
        split; apply handleKeyEnvelope_shell.
  - (* WsClose *)
    apply Hnil; apply ws_onclose_fields.
  - (* CreateBroadcast *)
    eexists. split; [apply (logged_own_broadcast n now uuid content m) |].
    rewrite broadcastMessage_store.
    split; [apply fold_message_handlers_only |].
    match goal with |- context [broadcastMessage _ ?t ?x ?y] =>
      destruct (broadcastMessage_shell crypto t x y)
        as (_ & _ & _ & _ & _ & Hi & Hp & _) end.
    split; assumption.
  - (* CreateE2EMessage *)
    destruct (createE2EMessage crypto now uuid sessionKey content m n)
      as [[n' [me ke]] |] eqn:Hc; [| now apply Hnil].
    eexists. split; [apply (logged_own_e2e n me ke) |].
    split; [now apply (createE2EMessage_only now uuid sessionKey content m) |].
    apply createE2EMessage_effects in Hc.
    destruct Hc as (_ & _ & _ & _ & _ & _ & Hi & Hp & _). now split.
  - (* SaveAdminKeyPair *)
    eexists. split; [apply logged_admin_keys |].
    repeat split.
  - (* ClearAdminKeys *)
    eexists. split; [apply logged_admin_cleared |]. repeat split.
  - (* ClearAll *)
    eexists. split; [apply logged_cleared |]. repeat split.
Qed.

Lemma marked_In (id x : string) (d : list string) :
  In x (marked id d) -> In x d \/ x = id.
Proof.
  unfold marked. repeat case_match; intros Hin; [now left | |];
    apply in_app_or in Hin; destruct Hin as [Hin | [-> | []]]; auto.
  left. destruct d; [destruct Hin | now right].
Qed.

Lemma marked_NoDup (id : string) (d : list string) :
  NoDup d -> NoDup (marked id d).
Proof.
  intros Hnd. unfold marked.
  destruct (MessageStore.includes id d) eqn:Hin; [assumption |].
  apply includes_false in Hin.
  case_match.
  - apply NoDup_app. split; [assumption |]. split; [| apply NoDup_singleton].
    intros x Hx ->%list_elem_of_singleton. now apply Hin, list_elem_of_In.
  - apply NoDup_app. split; [| split; [| apply NoDup_singleton]].
    + destruct d; [constructor | now inversion Hnd].
    + intros x Hx ->%list_elem_of_singleton. apply Hin.
      apply list_elem_of_In in Hx. destruct d; [destruct Hx | now right].
Qed.

Lemma logged_dedupe (n : MeshNetwork) (s1 : Store) :
  logged n s1 ->
  dedupe s1 = dedupe (store n) \/ dedupe s1 = [] \/
  exists id, dedupe s1 = marked id (dedupe (store n)) /\ In id (loggedIds s1).
Proof.
  intros [| m | k | | | | |]; simpl; auto.
  - right. right. exists (msg_id m). rewrite markAsProcessed_dedupe.
    split; [reflexivity |]. unfold loggedIds. simpl.
    apply in_or_app. left. rewrite map_app. apply in_or_app. right. now left.
  - right. right. exists (key_msg_id k). rewrite markAsProcessed_dedupe.
    split; [reflexivity |]. unfold loggedIds. simpl.
    apply in_or_app. right. rewrite map_app. apply in_or_app. right. now left.
Qed.

Lemma logged_ids (n : MeshNetwork) (s1 : Store) :
  logged n s1 ->
  (forall id, In id (dedupe (store n)) -> In id (loggedIds (store n))) ->
  forall id, In id (dedupe s1) -> In id (loggedIds s1).
Proof.
  intros Hl Hinv id. unfold loggedIds in *.
  destruct Hl as [| m | k | | | | |]; simpl.
  - apply Hinv.
  - destruct (markAsProcessed_logs (msg_id m) (store n)) as (-> & -> & _).
    rewrite markAsProcessed_dedupe, map_app, !in_app_iff. simpl.
    intros Hin. apply marked_In in Hin. destruct Hin as [Hin | ->]; [| tauto].
    apply Hinv, in_app_iff in Hin. tauto.
  - destruct (markAsProcessed_logs (key_msg_id k) (store n)) as (-> & -> & _).
    rewrite markAsProcessed_dedupe, map_app, !in_app_iff. simpl.
    intros Hin. apply marked_In in Hin. destruct Hin as [Hin | ->]; [| tauto].
    apply Hinv, in_app_iff in Hin. tauto.
  - rewrite map_app, !in_app_iff. intros Hin.
    apply Hinv, in_app_iff in Hin. tauto.
  - rewrite !map_app, !in_app_iff. intros Hin.
    apply Hinv, in_app_iff in Hin. tauto.
  - apply Hinv.
  - apply Hinv.
  - tauto.
Qed.

(** X10. In every state a node reaches, the dedupe store holds each msg_id
    at most once. *)
Theorem dedupe_ids_are_distinct (nodeId pseudoId : string) (es : list NodeEvent) :
  NoDup (dedupe (store (node_run crypto es (newNode emptyStore nodeId pseudoId)))).
Proof.
  assert (Hrun : forall es n, NoDup (dedupe (store n)) ->
                   NoDup (dedupe (store (node_run crypto es n)))).
  { clear es. induction es as [| e es IH]; intros n Hnd; simpl; [assumption |].
    apply IH.
    destruct (node_step_logged n e) as (s1 & Hl & (_ & _ & _ & -> & _) & _).
    destruct (logged_dedupe n s1 Hl) as [-> | [-> | (id & -> & _)]];
      [assumption | constructor | now apply marked_NoDup]. }
  apply Hrun. constructor.
Qed.

(** X11. In every state a node reaches, each msg_id in the dedupe store is
    the id of an envelope in the message log or in the key log: an id is
    only marked together with the envelope that carried it. *)
Theorem dedupe_ids_are_logged (nodeId pseudoId : string) (es : list NodeEvent)
    (msgId : string) :
  let s := store (node_run crypto es (newNode emptyStore nodeId pseudoId)) in
  MessageStore.isDuplicate msgId s = true -> In msgId (loggedIds s).
Proof.
  cbv zeta. unfold MessageStore.isDuplicate. rewrite includes_true. revert msgId.
  assert (Hrun : forall es n,
            (forall id, In id (dedupe (store n)) -> In id (loggedIds (store n))) ->
            forall id, In id (dedupe (store (node_run crypto es n))) ->
                       In id (loggedIds (store (node_run crypto es n)))).
  { clear es. induction es as [| e es IH]; intros n Hinv; simpl; [assumption |].
    apply IH. intros id.
    destruct (node_step_logged n e) as (s1 & Hl & (_ & Hm & Hk & Hd & _) & _).
    unfold loggedIds at 1. rewrite Hm, Hk, Hd. fold (loggedIds s1).
    now apply (logged_ids n s1 Hl). }
  intros msgId. apply Hrun. simpl. tauto.
Qed.

End LogInvariants.

Section LogContents.

Variable crypto : CryptoUtils.

Lemma markAsProcessed_other_fields msgId (s : Store) :
  broadcasts (MessageStore.markAsProcessed msgId s) = broadcasts s /\
  adminMode (MessageStore.markAsProcessed msgId s) = adminMode s /\
  adminPrivateKey (MessageStore.markAsProcessed msgId s) = adminPrivateKey s /\
  adminPublicKey (MessageStore.markAsProcessed msgId s) = adminPublicKey s.
Proof. unfold MessageStore.markAsProcessed. now case_match. Qed.

Lemma logged_broadcasts (n : MeshNetwork) (s1 : Store) :
  logged n s1 ->
  Forall (ownBroadcast (nodeId n) (pseudoId n)) (broadcasts (store n)) ->
  Forall (ownBroadcast (nodeId n) (pseudoId n)) (broadcasts s1).
Proof.
  intros Hl Hinv.
  destruct Hl as [| m | k | now uuid content mm | | | |]; simpl; try assumption.
  - now destruct (markAsProcessed_other_fields (msg_id m) (store n)) as (-> & _).
  - now destruct (markAsProcessed_other_fields (key_msg_id k) (store n)) as (-> & _).
  - apply Forall_app. split; [assumption |].
    constructor; [| constructor].
    unfold ownBroadcast. simpl. repeat split. now exists now.
  - constructor.
Qed.

Lemma inbound_keeps_broadcasts now (frame : ServerFrame) (n : MeshNetwork) :
  broadcasts (store (ws_onmessage crypto now frame n)) = broadcasts (store n).
Proof.
  destruct frame as [l | p | p | m | k |]; simpl; try reflexivity.
  - now rewrite fold_discoverPeer_store.
  - unfold discoverPeer. now case_match.
  - unfold losePeer. now case_match.
  - destruct (MessageStore.isDuplicate (msg_id m) (store n)) eqn:Hdup.
    + now rewrite handleMessageEnvelope_duplicate.
    + rewrite handleMessageEnvelope_store by assumption.
      match goal with |- context [fold_left ?f ?hs ?s] =>
        destruct (fold_message_handlers_only crypto now m hs s) as (-> & _) end.
      simpl. apply markAsProcessed_other_fields.
  - destruct (MessageStore.isDuplicate (key_msg_id k) (store n)) eqn:Hdup.
    + now rewrite handleKeyEnvelope_duplicate.
    + rewrite handleKeyEnvelope_store by assumption.
      match goal with |- context [fold_left ?f ?hs ?s] =>
        destruct (fold_key_handlers_only crypto now k hs s) as (-> & _) end.
      simpl. apply markAsProcessed_other_fields.
Qed.

(** X12. The broadcasts collection of a node holds only broadcasts the node
    made itself (type broadcast, to "all", from its own pseudoId, ttl 8, one
    hop with its own nodeId): [createBroadcast] is the only writer, and no
    frame read from the hub, a broadcast from a peer included, is ever added
    to it. *)
Theorem broadcasts_hold_own_only (nid pid : string) (es : list NodeEvent)
    now (frame : ServerFrame) :
  let n := node_run crypto es (newNode emptyStore nid pid) in
  Forall (ownBroadcast nid pid) (broadcasts (store n)) /\
  broadcasts (store (ws_onmessage crypto now frame n)) = broadcasts (store n).
Proof.
  cbv zeta. split; [| apply inbound_keeps_broadcasts].
  assert (Hrun : forall es n,
            nodeId n = nid -> pseudoId n = pid ->
            Forall (ownBroadcast nid pid) (broadcasts (store n)) ->
            Forall (ownBroadcast nid pid)
                   (broadcasts (store (node_run crypto es n)))).
  { clear es. induction es as [| e es IH]; intros n Hi Hp Hinv; simpl; [assumption |].
    destruct (node_step_logged crypto n e) as (s1 & Hl & (Hb & _) & Hi' & Hp').
    apply IH; [congruence | congruence |].
    rewrite Hb. rewrite <- Hi, <- Hp in *. now apply logged_broadcasts. }
  apply Hrun; [reflexivity | reflexivity | constructor].
Qed.

Lemma runMessageHandler_not_admin now h m (s : Store) :
  adminMode s = false -> runMessageHandler crypto now h m s = s.
Proof.
  intros Ha. unfold runMessageHandler. destruct h; [| reflexivity].
  rewrite Ha. now rewrite andb_false_r.
Qed.

Lemma runKeyHandler_not_admin now h k (s : Store) :
  adminMode s = false -> runKeyHandler crypto now h k s = s.
Proof. intros Ha. unfold runKeyHandler. destruct h; [| reflexivity]. now rewrite Ha. Qed.

Lemma fold_message_handlers_not_admin now m hs (s : Store) :
  adminMode s = false ->
  fold_left (fun s h => runMessageHandler crypto now h m s) hs s = s.
Proof.
  intros Ha. induction hs as [| h hs IH]; simpl; [reflexivity |].
  now rewrite runMessageHandler_not_admin.
Qed.

Lemma fold_key_handlers_not_admin now k hs (s : Store) :
  adminMode s = false ->
  fold_left (fun s h => runKeyHandler crypto now h k s) hs s = s.
Proof.
  intros Ha. induction hs as [| h hs IH]; simpl; [reflexivity |].
  now rewrite runKeyHandler_not_admin.
Qed.

Lemma node_step_not_admin (n : MeshNetwork) (e : NodeEvent) :
  adminMode (store n) = false -> savesAdminKeys e = false ->
  adminMode (store (node_step crypto n e)) = false /\
  (decrypted (store (node_step crypto n e)) = decrypted (store n) \/
   decrypted (store (node_step crypto n e)) = []).
Proof.
  intros Ha He.
  destruct e; simpl in *; try discriminate; try (split; [assumption | now left]).
  - (* WsMessage *)
    destruct frame as [l | p | p | m | k |]; simpl;
      try (split; [assumption | now left]).
    + rewrite fold_discoverPeer_store. split; [assumption | now left].
    + unfold discoverPeer. case_match; split; try assumption; now left.
    + unfold losePeer. case_match; split; try assumption; now left.
    + destruct (MessageStore.isDuplicate (msg_id m) (store n)) eqn:Hdup.
      * rewrite handleMessageEnvelope_duplicate by assumption.
        split; [assumption | now left].
      * rewrite handleMessageEnvelope_store by assumption.
        destruct (markAsProcessed_other_fields (msg_id m) (store n)) as (_ & Hm & _).
        destruct (markAsProcessed_logs (msg_id m) (store n)) as (_ & _ & Hd).
        rewrite fold_message_handlers_not_admin by (simpl; congruence).
        simpl. split; [congruence | left; assumption].
    + destruct (MessageStore.isDuplicate (key_msg_id k) (store n)) eqn:Hdup.
      * rewrite handleKeyEnvelope_duplicate by assumption.
        split; [assumption | now left].
      * rewrite handleKeyEnvelope_store by assumption.
        destruct (markAsProcessed_other_fields (key_msg_id k) (store n)) as (_ & Hm & _).
        destruct (markAsProcessed_logs (key_msg_id k) (store n)) as (_ & _ & Hd).
        rewrite fold_key_handlers_not_admin by (simpl; congruence).
        simpl. split; [congruence | left; assumption].
  - (* WsClose *)
    destruct (ws_onclose_fields n) as (_ & _ & -> & _). split; [assumption | now left].
  - (* CreateBroadcast *)
    rewrite broadcastMessage_store.
    rewrite fold_message_handlers_not_admin by (simpl; assumption).
    simpl. split; [assumption | now left].
  - (* CreateE2EMessage *)
    destruct (createE2EMessage crypto now uuid sessionKey content m n)
      as [[n' [me ke]] |] eqn:Hc; [| split; [assumption | now left]].
    unfold createE2EMessage in Hc.
    repeat case_match; try discriminate. simplify_eq.
    rewrite broadcastKeyEnvelope_store, broadcastMessage_store.
    rewrite (fold_message_handlers_not_admin now _ _ _) by (simpl; assumption).
    rewrite fold_key_handlers_not_admin by (simpl; assumption).
    simpl. split; [assumption | now left].
  - (* ClearAll *)
    split; [assumption | now right].
Qed.

(** X13. A node that is not in admin mode never stores a decrypted message:
    as long as no admin key pair is saved, whatever the node sends, receives
    or relays, admin mode stays off and its decrypted list gains nothing. *)
Theorem non_admin_never_decrypts (es : list NodeEvent) (n : MeshNetwork) :
  adminMode (store n) = false ->
  forallb (fun e => negb (savesAdminKeys e)) es = true ->
  adminMode (store (node_run crypto es n)) = false /\
  forall d, In d (decrypted (store (node_run crypto es n))) ->
            In d (decrypted (store n)).
Proof.
  revert n. induction es as [| e es IH]; intros n Ha Hes; simpl in *.
  - split; [assumption | tauto].
  - apply andb_true_iff in Hes. destruct Hes as [He Hes].
    apply negb_true_iff in He.
    destruct (node_step_not_admin n e Ha He) as [Ha' Hd].
    destruct (IH _ Ha' Hes) as [Ha'' Hd'']. split; [assumption |].
    intros d Hin. apply Hd'' in Hin.
    destruct Hd as [Hd | Hd]; rewrite Hd in Hin; [assumption | destruct Hin].
Qed.

End LogContents.

(** * Further properties: lookups, the join and the forwarding chain *)

Section JoinFacts.

Variable crypto : CryptoUtils.

Lemma find_snoc {A} (f : A -> bool) (l : list A) (x : A) :
  find f (l ++ [x]) =
  match find f l with
  | Some y => Some y
  | None => if f x then Some x else None
  end.
Proof.
  induction l as [| y l IH]; simpl; [reflexivity |].
  destruct (f y); [reflexivity | exact IH].
Qed.

Lemma lookups_only (id : string) (s s' : Store) :
  decrypted_only s s' ->
  MessageStore.getMessageEnvelopeById id s' = MessageStore.getMessageEnvelopeById id s /\
  MessageStore.getKeyEnvelopeById id s' = MessageStore.getKeyEnvelopeById id s.
Proof.
  intros (_ & Hm & Hk & _).
  unfold MessageStore.getMessageEnvelopeById, MessageStore.getKeyEnvelopeById.
  now rewrite Hm, Hk.
Qed.

Lemma lookup_after_save (id : string) (m : MessageEnvelope) (s : Store) :
  MessageStore.getMessageEnvelopeById id (MessageStore.saveMessageEnvelope m s) =
  match MessageStore.getMessageEnvelopeById id s with
  | Some old => Some old
  | None => if String.eqb (msg_id m) id then Some m else None
  end.
Proof.
  unfold MessageStore.getMessageEnvelopeById, MessageStore.saveMessageEnvelope.
  simpl. now rewrite find_snoc.
Qed.

Lemma key_lookup_after_save (id : string) (k : KeyEnvelope) (s : Store) :
  MessageStore.getKeyEnvelopeById id (MessageStore.saveKeyEnvelope k s) =
  match MessageStore.getKeyEnvelopeById id s with
  | Some old => Some old
  | None => if String.eqb (key_msg_id k) id then Some k else None
  end.
Proof.
  unfold MessageStore.getKeyEnvelopeById, MessageStore.saveKeyEnvelope.
  simpl. now rewrite find_snoc.
Qed.

(** X14. The message log keeps every copy it is given, and a lookup by
    msg_id returns the oldest one: after a relay has handled an inbound
    envelope, or after [broadcastMessage], the lookup for any id returns what
    it returned before when that was an envelope, and the new envelope only
    when there was none and the id is its own.  So the path reported for a
    msg_id is the hop list of the first copy logged; key lookups are not
    affected. *)
Theorem first_logged_copy_wins now (m : MessageEnvelope) (n : MeshNetwork)
    (id : string) :
  let after (s : Store) :=
    MessageStore.getMessageEnvelopeById id s =
      match MessageStore.getMessageEnvelopeById id (store n) with
      | Some old => Some old
      | None => if String.eqb (msg_id m) id then Some m else None
      end /\
    getMessagePathForId (msg_id m) s =
      match MessageStore.getMessageEnvelopeById (msg_id m) (store n) with
      | Some old => map hop_nodeId (hops old)
      | None => map hop_nodeId (hops m)
      end /\
    MessageStore.getKeyEnvelopeById id s = MessageStore.getKeyEnvelopeById id (store n) in
  after (store (broadcastMessage crypto now m n)) /\
  (MessageStore.isDuplicate (msg_id m) (store n) = false ->
   after (store (ws_onmessage crypto now (MeshMessageIn m) n))).
Proof.
  cbv zeta.
  assert (Hsave : forall s s',
            MessageStore.getMessageEnvelopeById id s
              = MessageStore.getMessageEnvelopeById id (store n) ->
            MessageStore.getMessageEnvelopeById (msg_id m) s
              = MessageStore.getMessageEnvelopeById (msg_id m) (store n) ->
            MessageStore.getKeyEnvelopeById id s
              = MessageStore.getKeyEnvelopeById id (store n) ->
            decrypted_only (MessageStore.saveMessageEnvelope m s) s' ->
            MessageStore.getMessageEnvelopeById id s' =
              match MessageStore.getMessageEnvelopeById id (store n) with
              | Some old => Some old
              | None => if String.eqb (msg_id m) id then Some m else None
              end /\
            getMessagePathForId (msg_id m) s' =
              match MessageStore.getMessageEnvelopeById (msg_id m) (store n) with
              | Some old => map hop_nodeId (hops old)
              | None => map hop_nodeId (hops m)
              end /\
            MessageStore.getKeyEnvelopeById id s'
              = MessageStore.getKeyEnvelopeById id (store n)).
  { intros s s' H1 H2 H3 Honly.
    destruct (lookups_only id _ _ Honly) as [-> ->].
    unfold getMessagePathForId.
    destruct (lookups_only (msg_id m) _ _ Honly) as [-> _].
    rewrite !lookup_after_save, H1, H2, String.eqb_refl.
    split; [reflexivity |]. split; [| exact H3].
    now destruct (MessageStore.getMessageEnvelopeById (msg_id m) (store n)). }
  split.
  - apply (Hsave (store n)); try reflexivity. apply broadcastMessage_only.
  - intros Hdup. simpl.
    assert (Hmark : forall x,
              MessageStore.getMessageEnvelopeById x
                (MessageStore.markAsProcessed (msg_id m) (store n))
              = MessageStore.getMessageEnvelopeById x (store n) /\
              MessageStore.getKeyEnvelopeById x
                (MessageStore.markAsProcessed (msg_id m) (store n))
              = MessageStore.getKeyEnvelopeById x (store n)).
    { intros x. unfold MessageStore.getMessageEnvelopeById,
        MessageStore.getKeyEnvelopeById.
      now destruct (markAsProcessed_logs (msg_id m) (store n)) as (-> & -> & _). }
    apply (Hsave (MessageStore.markAsProcessed (msg_id m) (store n)));
      try apply Hmark.
    rewrite handleMessageEnvelope_store by assumption.
    apply fold_message_handlers_only.
Qed.

Lemma joinable_only (id content : string) (me : MessageEnvelope) (ke : KeyEnvelope)
    (s s' : Store) :
  decrypted_only s s' -> joinable crypto id content me ke s ->
  joinable crypto id content me ke s'.
Proof.
  intros Honly (Ha & Hp & Hm & Hk & Ht).
  destruct (lookups_only id _ _ Honly) as [Hm' Hk'].
  destruct Honly as (_ & _ & _ & _ & Ha' & Hp' & _).
  unfold joinable. rewrite Ha', Hp', Hm', Hk'. tauto.
Qed.

Lemma runMessageHandler_joinable now h (message : MessageEnvelope)
    (id content : string) (me : MessageEnvelope) (ke : KeyEnvelope) (s : Store) :
  joinable crypto id content me ke s ->
  msg_id message = id -> type message = e2e ->
  runMessageHandler crypto now h message s =
  if isE2EMessageHandler h
  then MessageStore.saveDecryptedMessage (joined id content now me ke) s else s.
Proof.
  intros (Ha & (priv & sk & Hp & Hne & Hu & Hd) & Hm & Hk & Ht & Hto & Hid) <- Hty.
  destruct h; [| reflexivity]. simpl.
  unfold tryDecryptMessage. simpl.
  rewrite Hty, Ha, Hid. simpl. rewrite Hid. simpl.
  rewrite Hm, Hk, Ht, Hto, Hp, Hne, Hu, Hd. reflexivity.
Qed.

Lemma runKeyHandler_joinable now h (key : KeyEnvelope)
    (id content : string) (me : MessageEnvelope) (ke : KeyEnvelope) (s : Store) :
  joinable crypto id content me ke s ->
  key_msg_id key = id ->
  runKeyHandler crypto now h key s =
  if isE2EKeyHandler h
  then MessageStore.saveDecryptedMessage (joined id content now me ke) s else s.
Proof.
  intros (Ha & (priv & sk & Hp & Hne & Hu & Hd) & Hm & Hk & Ht & Hto & Hid) <-.
  destruct h; [| reflexivity]. simpl.
  unfold tryDecryptMessage. simpl.
  rewrite Ha, Hid. simpl.
  rewrite Hm, Hk, Ht, Hto, Hp, Hne, Hu, Hd. reflexivity.
Qed.

Lemma fold_message_handlers_joinable now (message : MessageEnvelope)
    (id content : string) (me : MessageEnvelope) (ke : KeyEnvelope)
    (hs : list MessageHandler) (s : Store) :
  joinable crypto id content me ke s ->
  msg_id message = id -> type message = e2e ->
  decrypted (fold_left (fun s h => runMessageHandler crypto now h message s) hs s) =
    decrypted s ++ replicate (length (List.filter isE2EMessageHandler hs))
                             (joined id content now me ke).
Proof.
  intros Hj Hid Hty. revert s Hj.
  induction hs as [| h hs IH]; intros s Hj; simpl; [now rewrite app_nil_r |].
  rewrite (runMessageHandler_joinable now h message id content me ke s Hj Hid Hty).
  destruct h; simpl.
  - rewrite IH by (eapply joinable_only; [apply saveDecryptedMessage_only | exact Hj]).
    simpl. now rewrite <- app_assoc.
  - now apply IH.
Qed.

Lemma fold_key_handlers_joinable now (key : KeyEnvelope)
    (id content : string) (me : MessageEnvelope) (ke : KeyEnvelope)
    (hs : list KeyHandler) (s : Store) :
  joinable crypto id content me ke s ->
  key_msg_id key = id ->
  decrypted (fold_left (fun s h => runKeyHandler crypto now h key s) hs s) =
    decrypted s ++ replicate (length (List.filter isE2EKeyHandler hs))
                             (joined id content now me ke).
Proof.
  intros Hj Hid. revert s Hj.
  induction hs as [| h hs IH]; intros s Hj; simpl; [now rewrite app_nil_r |].
  rewrite (runKeyHandler_joinable now h key id content me ke s Hj Hid).
  destruct h; simpl.
  - rewrite IH by (eapply joinable_only; [apply saveDecryptedMessage_only | exact Hj]).
    simpl. now rewrite <- app_assoc.
  - now apply IH.
Qed.

Lemma map_replicate {A B} (f : A -> B) (k : nat) (x : A) :
  map f (replicate k x) = replicate k (f x).
Proof. induction k as [| k IH]; simpl; [reflexivity | now rewrite IH]. Qed.

(** X15. An admin node that sends an e2e message reads its own plaintext
    back.  When the admin key opens what [createE2EMessage] has just wrapped
    and encrypted, and the logs held no envelope under the new msg_id, every
    [E2EService] observer of the node stores one decrypted message.  These
    messages differ at most in the time of their key path: each carries the
    text that was sent, the timestamp, sender, meta and hops of the envelope
    sent (one hop, of the node itself) and a key path that names the node's
    pseudoId. *)
Theorem admin_reads_own_message now uuid sessionKey content m
    (n n' : MeshNetwork) (me : MessageEnvelope) (ke : KeyEnvelope)
    (priv : string) (sk : SessionKey) :
  createE2EMessage crypto now uuid sessionKey content m n = Some (n', (me, ke)) ->
  adminMode (store n) = true ->
  adminPrivateKey (store n) = Some priv -> nonempty priv = true ->
  unwrapSessionKey crypto (wrapped_key ke) priv = Some sk ->
  decryptMessage crypto (payload me) sk = Some content ->
  MessageStore.getMessageEnvelopeById uuid (store n) = None ->
  MessageStore.getKeyEnvelopeById uuid (store n) = None ->
  nonempty uuid = true ->
  (msg_id me = uuid /\ from me = pseudoId n /\ meta me = m /\
   (exists t, hops me = [mkHop (nodeId n) t]) /\
   key_msg_id ke = uuid /\ key_from ke = pseudoId n) /\
  exists times,
    length times = length (List.filter isE2EMessageHandler (messageHandlers n))
                   + length (List.filter isE2EKeyHandler (keyHandlers n)) /\
    decrypted (store n') =
      decrypted (store n) ++ map (fun t => joined uuid content t me ke) times.
Proof.
  intros Hc Ha Hp Hne Hu Hd Hnm Hnk Hid.
  unfold createE2EMessage in Hc.
  repeat case_match; try discriminate. simplify_eq.
  match goal with
  | |- context [broadcastKeyEnvelope _ _ ?k (broadcastMessage _ _ ?x _)] =>
    set (keyEnv := k) in *; set (msgEnv := x) in *
  end.
  split.
  { repeat split; try reflexivity. now exists now. }
  exists (replicate (length (List.filter isE2EMessageHandler (messageHandlers n))
                     + length (List.filter isE2EKeyHandler (keyHandlers n))) now).
  split; [apply length_replicate |].
  rewrite map_replicate.
  set (st0 := MessageStore.saveKeyEnvelope keyEnv
                (MessageStore.saveMessageEnvelope msgEnv (store n))).
  assert (Hj : joinable crypto uuid content msgEnv keyEnv
                 (MessageStore.saveMessageEnvelope msgEnv st0)).
  { unfold joinable. simpl.
    split; [exact Ha |]. split; [exists priv, sk; tauto |].
    split.
    { unfold MessageStore.getMessageEnvelopeById in *. simpl.
      rewrite !find_snoc, Hnm. simpl. now rewrite String.eqb_refl. }
    split; [| tauto].
    unfold MessageStore.getKeyEnvelopeById in *. simpl.
    rewrite find_snoc, Hnk. simpl. now rewrite String.eqb_refl. }
  rewrite broadcastKeyEnvelope_store, broadcastMessage_store.
  rewrite broadcastMessage_keyHandlers. simpl.
  fold st0.
  pose proof (fold_message_handlers_joinable now msgEnv uuid content msgEnv keyEnv
                (messageHandlers n) _ Hj eq_refl eq_refl) as Hm.
  assert (Hj' : joinable crypto uuid content msgEnv keyEnv
                  (MessageStore.saveKeyEnvelope keyEnv
                     (fold_left (fun s h => runMessageHandler crypto now h msgEnv s)
                        (messageHandlers n)
                        (MessageStore.saveMessageEnvelope msgEnv st0)))).
  { assert (Hj1 := joinable_only uuid content msgEnv keyEnv _ _
                     (fold_message_handlers_only crypto now msgEnv
                        (messageHandlers n) _) Hj).
    destruct Hj1 as (H1' & H2' & H3' & H4' & H5').
    unfold joinable. split; [exact H1' |]. split; [exact H2' |].
    split; [exact H3' |]. split; [| exact H5'].
    rewrite key_lookup_after_save. now rewrite H4'. }
  rewrite (fold_key_handlers_joinable now keyEnv uuid content msgEnv keyEnv
             (keyHandlers n) _ Hj' eq_refl).
  simpl. rewrite Hm. simpl.
  rewrite replicate_add, <- app_assoc. reflexivity.
Qed.

End JoinFacts.

Section ChainFacts.

Variable crypto : CryptoUtils.

(** X16. Along a path of [k] forwards, each by some relay's
    [handleMessageEnvelope], an envelope gains exactly [k] hops after the
    ones it had; its msg_id, type, sender, target, timestamp, payload and
    meta never change.  When the ttl at the origin is an integer (a safe
    integer of JavaScript), the envelope has lost exactly [k] of it, and the
    path is not longer than that ttl. *)
Theorem forwarded_k_times (k : nat) (origin e : MessageEnvelope) :
  nsteps (forwards crypto) k origin e ->
  (exists added, hops e = hops origin ++ added /\ length added = k) /\
  (msg_id e, type e, from e, to e, timestamp e, payload e, meta e)
  = (msg_id origin, type origin, from origin, to origin, timestamp origin,
     payload origin, meta origin) /\
  (isSafeInteger (ttl origin) = true ->
   ttl e = (ttl origin - Z.of_nat k)%Z /\
   isSafeInteger (ttl e) = true /\
   (0 < k -> (Z.of_nat k <= ttl origin)%Z)).
Proof.
  intros Hpath.
  assert (Hall : ttl e = (ttl origin - Z.of_nat k)%Z /\
                 (exists added, hops e = hops origin ++ added /\ length added = k) /\
                 (msg_id e, type e, from e, to e, timestamp e, payload e, meta e)
                 = (msg_id origin, type origin, from origin, to origin,
                    timestamp origin, payload origin, meta origin) /\
                 (0 < k -> (Z.of_nat k <= ttl origin)%Z)).
  { induction Hpath
      as [x | k x y z Hstep Hrest (IHt & (added & IHh & IHl) & IHf & IHk)].
    - split; [lia |]. split; [exists []; now rewrite app_nil_r |].
      split; [reflexivity | lia].
    - apply forwards_inv in Hstep. destruct Hstep as (Hpos & nid & now & ->).
      simpl in *. split; [lia |]. split.
      + exists (mkHop nid now :: added). rewrite IHh, <- app_assoc. simpl.
        split; [reflexivity | lia].
      + split; [exact IHf |]. intros _.
        destruct k as [| k]; [lia |].
        assert (0 < S k) as Hk by lia. apply IHk in Hk. lia. }
  destruct Hall as (Ht & Hh & Hf & Hk).
  split; [exact Hh |]. split; [exact Hf |].
  intros Hsafe. split; [exact Ht |]. split; [| exact Hk].
  destruct k as [| k]; [now replace (ttl e) with (ttl origin) by lia |].
  assert (0 < S k) as Hpos by lia. apply Hk in Hpos.
  revert Hsafe. unfold isSafeInteger. rewrite !Z.leb_le. lia.
Qed.

End ChainFacts.

(** * Further properties: the hub's sessions *)

Section HubExtras.

Import Hub.

Lemma register_wire (ws : nat) (peerId : string) (st : State) :
  exists announced l,
    wire (on_message ws (register peerId) st) =
      wire st ++ announced ++ (if decide (ws ∈ opened st) then [(ws, peer_list l)] else []) /\
    (forall w f, (w, f) ∈ announced <->
       f = peer_connected peerId /\ w ∈ opened st /\
       exists q, q ≠ peerId /\ peers st !! q = Some w) /\
    (forall p, p ∈ l <-> p ≠ peerId /\ is_Some (peers st !! p)) /\
    NoDup l.
Proof.
  exists (map (λ e, (e.2, peer_connected peerId))
              (others peerId (set_peers (<[peerId:=ws]> (peers st))
                                (set_peerIdOf (<[ws:=peerId]> (peerIdOf st)) st)))),
    (filter (λ id, id ≠ peerId) (map_to_list (<[peerId:=ws]> (peers st))).*1).
  split; [| split; [| split]].
  - simpl. case_decide; simpl; rewrite <- ?app_assoc, ?app_nil_r; reflexivity.
  - intros w f. rewrite elem_of_targets. split.
    + intros (-> & q & Hin). apply elem_of_others in Hin. simpl in Hin.
      destruct Hin as (Hl & Hq & Ho).
      rewrite lookup_insert_ne in Hl by congruence. eauto 10.
    + intros (-> & Ho & q & Hq & Hl). split; [reflexivity |].
      exists q. apply elem_of_others. simpl.
      rewrite lookup_insert_ne by congruence. tauto.
  - intros p. rewrite list_elem_of_filter, list_elem_of_fmap. split.
    + intros (Hne & [q w] & -> & Hin). apply elem_of_map_to_list in Hin.
      simpl in *. rewrite lookup_insert_ne in Hin by congruence. eauto.
    + intros (Hne & w & Hw'). split; [assumption |].
      exists (p, w). split; [reflexivity |]. apply elem_of_map_to_list.
      now rewrite lookup_insert_ne by congruence.
  - apply NoDup_filter, NoDup_fst_map_to_list.
Qed.

(** X17. When an open socket registers, the hub tells every open socket
    bound under another peerId that the peer connected, and then answers the
    new socket with a peer_list that names every other peerId of the map,
    each once, and never the peerId just registered. *)
Theorem register_announces_and_lists (ws : nat) (peerId : string) (st : State) :
  ws ∈ opened st ->
  exists announced l,
    wire (on_message ws (register peerId) st) =
      wire st ++ announced ++ [(ws, peer_list l)] /\
    (forall w f, (w, f) ∈ announced <->
       f = peer_connected peerId /\ w ∈ opened st /\
       exists q, q ≠ peerId /\ peers st !! q = Some w) /\
    (forall p, p ∈ l <-> p ≠ peerId /\ is_Some (peers st !! p)) /\
    NoDup l.
Proof.
  intros Hopen.
  destruct (register_wire ws peerId st) as (announced & l & Hw & Ha & Hl & Hnd).
  exists announced, l. rewrite Hw. rewrite decide_True by assumption. tauto.
Qed.

(** X18. The hub fans out to open sockets only: whatever event it handles,
    every frame it adds to the wire goes to a socket that is open at that
    moment, the one exception being the peer_list it returns to the socket
    whose register frame it has just read; and a socket that closes gets none
    of the frames its closing causes. *)
Theorem hub_fans_out_to_open_sockets_only (st : State) (e : Event) :
  exists sent,
    wire (step st e) = wire st ++ sent /\
    forall w f, (w, f) ∈ sent ->
      (w ∈ opened st \/ exists p l, e = Message w (register p) /\ f = peer_list l) /\
      (forall ws, e = Close ws -> w ≠ ws).
Proof.
  assert (Hnil : exists sent, wire st = wire st ++ sent /\
            forall w f, (w, f) ∈ sent ->
              (w ∈ opened st \/
               exists p l, e = Message w (register p) /\ f = peer_list l) /\
              (forall ws, e = Close ws -> w ≠ ws)).
  { exists []. rewrite app_nil_r. split; [reflexivity |].
    intros w f Hin. apply elem_of_nil in Hin. destruct Hin. }
  destruct e as [ws | ws message | ws | now b | t].
  - exact Hnil.
  - destruct message as [peerId | envelope envelopeType | |]; try exact Hnil.
    + destruct (register_wire ws peerId st) as (announced & l & Hw & Ha & _).
      eexists. split; [exact Hw |].
      intros w f Hin. split; [| discriminate].
      apply elem_of_app in Hin. destruct Hin as [Hin | Hin].
      * apply Ha in Hin. tauto.
      * case_decide; [| apply elem_of_nil in Hin; destruct Hin].
        apply list_elem_of_singleton in Hin. injection Hin as -> ->.
        right. now exists peerId, l.
    + simpl. destruct (peerIdOf st !! ws) as [peerId |]; [| exact Hnil].
      destruct (truthy envelope && nonempty peerId); [| exact Hnil].
      destruct (broadcastToOthers_wire peerId
                  (mesh_message envelope peerId envelopeType) st)
        as (sent & Hw & Hsent).
      exists sent. split; [exact Hw |].
      intros w f Hin. apply Hsent in Hin. split; [tauto | discriminate].
  - simpl. unfold on_close.
    set (st1 := set_opened (opened st ∖ {[ws]}) st).
    change (wire st) with (wire st1).
    assert (Hnil1 : exists sent, wire st1 = wire st1 ++ sent /\
              forall w f, (w, f) ∈ sent ->
                (w ∈ opened st \/
                 exists p l, Close ws = Message w (register p) /\ f = peer_list l) /\
                (forall ws0, Close ws = Close ws0 -> w ≠ ws0))
      by exact Hnil.
    destruct (peerIdOf st1 !! ws) as [peerId |]; [| exact Hnil1].
    destruct (nonempty peerId); [| exact Hnil1].
    destruct (broadcastToOthers_wire peerId (peer_disconnected peerId)
                (set_peers (delete peerId (peers st1)) st1))
      as (sent & Hw & Hsent).
    exists sent. split; [exact Hw |].
    intros w f Hin. apply Hsent in Hin. destruct Hin as (_ & Ho & _).
    simpl in Ho. apply elem_of_difference in Ho. destruct Ho as [Ho Hne].
    split; [now left |]. intros ws0 [= <-] ->. apply Hne. now apply elem_of_singleton.
  - simpl. unfold gateway_submit. case_match; [exact Hnil |].
    destruct (sendToAll_wire (mesh_message (messageEnvelope now b) "gateway" JUndefined)
                st) as (sent & Hw & Hsent).
    exists sent. split; [exact Hw |].
    intros w f Hin. apply Hsent in Hin. split; [tauto | discriminate].
  - destruct t as [frame]. simpl.
    destruct (sendToAll_wire frame st) as (sent & Hw & Hsent).
    exists sent. split; [exact Hw |].
    intros w f Hin. apply Hsent in Hin. split; [tauto | discriminate].
Qed.

(** X19. Closing a socket that holds peerId p removes p from the peers map
    whichever socket the map holds under p, and leaves every other entry.  A
    socket that was bound under p only, for instance a newer session of the
    same node, is thereby cut off although it is still open: no mesh_message
    that the hub reads afterwards is written to it. *)
Theorem close_unbinds_by_peerId (ws w sender : nat) (p : string)
    (envelope envelopeType : jsval) (st : State) :
  peerIdOf st !! ws = Some p ->
  nonempty p = true ->
  peers st !! p = Some w ->
  (forall q, peers st !! q = Some w -> q = p) ->
  let st' := on_close ws st in
  peers st' !! p = None /\
  (forall q, q ≠ p -> peers st' !! q = peers st !! q) /\
  (w ≠ ws -> w ∈ opened st -> w ∈ opened st') /\
  forall f, (w, f) ∉ drop (length (wire st'))
                        (wire (on_message sender
                                 (mesh_message_in envelope envelopeType) st')).
Proof.
  intros Hid Hne Hw Honly. cbv zeta.
  assert (Hp : peers (on_close ws st) = delete p (peers st)).
  { unfold on_close. simpl. rewrite Hid, Hne. reflexivity. }
  assert (Ho : opened (on_close ws st) = opened st ∖ {[ws]}).
  { unfold on_close. simpl. rewrite Hid, Hne. reflexivity. }
  rewrite Hp, Ho.
  split; [apply lookup_delete_eq |].
  split; [intros q Hq; now apply lookup_delete_ne |].
  split; [intros; now apply not_elem_of_closed |].
  intros f. simpl.
  destruct (peerIdOf (on_close ws st) !! sender) as [peerId |];
    [| rewrite drop_all; apply not_elem_of_nil].
  destruct (truthy envelope && nonempty peerId);
    [| rewrite drop_all; apply not_elem_of_nil].
  destruct (broadcastToOthers_wire peerId
              (mesh_message envelope peerId envelopeType) (on_close ws st))
    as (sent & Hwire & Hsent).
  rewrite Hwire, drop_app_length. intros Hin. apply Hsent in Hin.
  destruct Hin as (_ & _ & q & _ & Hq). rewrite Hp in Hq.
  destruct (decide (q = p)) as [-> | Hqp].
  - rewrite lookup_delete_eq in Hq. discriminate.
  - rewrite lookup_delete_ne in Hq by congruence.
    apply Honly in Hq. contradiction.
Qed.

(** X20. A socket that registers under a peerId nobody holds and then closes
    leaves the peers map as it found it, and every other socket that was
    told of the connection is told of the disconnection, and no other. *)
Theorem register_then_close_round_trip (ws : nat) (p : string) (st : State) :
  peers st !! p = None ->
  nonempty p = true ->
  let st1 := on_message ws (register p) st in
  let st2 := on_close ws st1 in
  peers st2 = peers st /\
  opened st2 = opened st ∖ {[ws]} /\
  forall w, w ≠ ws ->
    ((w, peer_connected p) ∈ drop (length (wire st)) (wire st1) <->
     (w, peer_disconnected p) ∈ drop (length (wire st1)) (wire st2)).
Proof.
  intros Hfree Hne. cbv zeta.
  destruct (on_message_register_fields ws p st) as (Hp & Hi & Ho).
  destruct (register_wire ws p st) as (announced & l & Hw1 & Ha & _).
  remember (on_message ws (register p) st) as st1 eqn:Est1.
  assert (Hid : peerIdOf st1 !! ws = Some p).
  { rewrite Hi. apply lookup_insert_eq. }
  assert (Hclose : on_close ws st1 =
            broadcastToOthers p (peer_disconnected p)
              (set_peers (delete p (peers st1))
                 (set_opened (opened st1 ∖ {[ws]}) st1))).
  { unfold on_close. simpl. rewrite Hid, Hne. reflexivity. }
  rewrite Hclose.
  destruct (broadcastToOthers_wire p (peer_disconnected p)
              (set_peers (delete p (peers st1))
                 (set_opened (opened st1 ∖ {[ws]}) st1)))
    as (farewell & Hw2 & Hf).
  simpl in Hf. change (wire (set_peers _ (set_opened _ st1))) with (wire st1) in Hw2.
  split; [| split].
  - simpl. rewrite Hp, delete_insert_eq. now apply delete_id.
  - simpl. now rewrite Ho.
  - intros w Hw. rewrite Hw2, Hw1, !drop_app_length.
    rewrite Hf, elem_of_app, Ha, Ho, Hp.
    split.
    + intros [(_ & Hopen & q & Hq & Hl) | Hin].
      * split; [reflexivity |]. split; [set_solver |].
        exists q. split; [assumption |].
        now rewrite lookup_delete_ne, lookup_insert_ne by congruence.
      * case_decide; [| apply elem_of_nil in Hin; destruct Hin].
        apply list_elem_of_singleton in Hin. discriminate.
    + intros (_ & Hopen & q & Hq & Hl). left.
      rewrite lookup_delete_ne, lookup_insert_ne in Hl by congruence.
      split; [reflexivity |]. split; [set_solver | eauto].
Qed.

End HubExtras.

(** * The further properties on the scenarios *)

Section ExtraScenarios.

Lemma getOrCreateNodeId_stable_first_run :
  sixteenBytes <> [] /\
  (NodeIdGenerator.getOrCreateNodeId sixteenBytes (NodeIdGenerator.mkIds None None)).1
    = "00010a0f107f80ffdeadbeef12345678" /\
  (NodeIdGenerator.getPseudoId []
     (NodeIdGenerator.getOrCreateNodeId sixteenBytes
        (NodeIdGenerator.mkIds None None)).2).1 = "user_00010a0f".
Proof.
  split; [discriminate |]. split; [reflexivity |].
  destruct (getOrCreateNodeId_stable sixteenBytes [] (NodeIdGenerator.mkIds None None))
    as (_ & _ & _ & H); [discriminate |].
  exact (f_equal fst H).
Defined.

Lemma initializeAdminMode_generates_once_on_empty :
  nonempty "PUB" = true /\ nonempty "PRIV" = true /\
  AdminKeyGenerator.initializeAdminMode (mkKeyPair "PUB2" "PRIV2")
    (AdminKeyGenerator.initializeAdminMode (mkKeyPair "PUB" "PRIV") emptyStore).2
  = AdminKeyGenerator.initializeAdminMode (mkKeyPair "PUB" "PRIV") emptyStore.
Proof.
  split; [reflexivity |]. split; [reflexivity |].
  exact (proj1 (initializeAdminMode_generates_once (mkKeyPair "PUB" "PRIV")
                  (mkKeyPair "PUB2" "PRIV2") emptyStore eq_refl eq_refl)).
Defined.

Lemma peer_connected_disconnected_round_trip_at_plainNode :
  ~ In "p1" (peers plainNode) /\
  peers (ws_onmessage plainCrypto "t2" (PeerDisconnected "p1")
           (ws_onmessage plainCrypto "t2" (PeerConnected "p1") plainNode))
  = peers plainNode.
Proof.
  assert (H : ~ In "p1" (peers plainNode)) by (simpl; tauto).
  split; [exact H |].
  exact (proj1 (proj2 (proj2 (proj2
    (peer_connected_disconnected_round_trip plainCrypto "t2" "p1" plainNode H))))).
Defined.

Lemma offline_node_writes_nothing_before_connecting :
  isConnected (newNode emptyStore "aa" "user_aa") = false /\
  CreateBroadcast "t0" "m1" "hi" None <> WsOpen /\
  forall frame,
    ~ In (WsSend frame)
         (newEffects (newNode emptyStore "aa" "user_aa")
            (node_step plainCrypto (newNode emptyStore "aa" "user_aa")
               (CreateBroadcast "t0" "m1" "hi" None))).
Proof.
  split; [reflexivity |]. split; [discriminate |].
  exact (proj1 (offline_node_writes_nothing plainCrypto
                  (newNode emptyStore "aa" "user_aa")
                  (CreateBroadcast "t0" "m1" "hi" None) "t0" "m1" "hi" None
                  eq_refl ltac:(discriminate))).
Defined.

Lemma dedupe_ids_are_logged_after_m3 :
  MessageStore.isDuplicate "m3"
    (store (node_run plainCrypto [WsMessage "t1" (MeshMessageIn m3)]
              (newNode emptyStore "bb" "user_bb"))) = true /\
  In "m3" (loggedIds
             (store (node_run plainCrypto [WsMessage "t1" (MeshMessageIn m3)]
                       (newNode emptyStore "bb" "user_bb")))).
Proof.
  split; [reflexivity |].
  exact (dedupe_ids_are_logged plainCrypto "bb" "user_bb"
           [WsMessage "t1" (MeshMessageIn m3)] "m3" eq_refl).
Defined.

Lemma non_admin_never_decrypts_bystander :
  adminMode (store (newNode emptyStore "cc" "user_cc")) = false /\
  forallb (fun e => negb (savesAdminKeys e)) bystanderEvents = true /\
  forall d,
    ~ In d (decrypted (store (node_run plainCrypto bystanderEvents
                                (newNode emptyStore "cc" "user_cc")))).
Proof.
  split; [reflexivity |]. split; [reflexivity |].
  intros d Hin.
  exact (proj2 (non_admin_never_decrypts plainCrypto bystanderEvents
                  (newNode emptyStore "cc" "user_cc") eq_refl eq_refl) d Hin).
Defined.

Lemma admin_reads_own_message_at_Z :
  exists n' me ke times,
    createE2EMessage plainCrypto "t0" "m4" [] "evacuate" None adminZ
      = Some (n', (me, ke)) /\
    length times = 2 /\
    decrypted (store n') = map (fun t => joined "m4" "evacuate" t me ke) times.
Proof.
  edestruct (admin_reads_own_message plainCrypto "t0" "m4" [] "evacuate" None
               adminZ _ _ _ "PRIV" []
               eq_refl eq_refl eq_refl eq_refl eq_refl eq_refl eq_refl eq_refl eq_refl)
    as (_ & times & Hlen & Hdec).
  eexists _, _, _, times.
  split; [reflexivity |]. split; [exact Hlen | exact Hdec].
Defined.

Lemma forwarded_k_times_once :
  isSafeInteger (ttl m3) = true /\
  exists e, nsteps (forwards plainCrypto) 1 m3 e /\ ttl e = 0%Z /\
            length (hops e) = 2.
Proof.
  split; [reflexivity |].
  assert (Hf : forwards plainCrypto m3
                 (MessageFactory.addHop (nodeId nodeB) "t1" m3)).
  { exists "t1", nodeB. simpl. right. left. reflexivity. }
  exists (MessageFactory.addHop (nodeId nodeB) "t1" m3).
  assert (Hn := nsteps_once _ _ Hf).
  split; [exact Hn |].
  destruct (forwarded_k_times plainCrypto 1 m3 _ Hn) as (_ & _ & Hsafe).
  destruct (Hsafe eq_refl) as (Ht & _).
  split; [exact Ht | reflexivity].
Defined.

End ExtraScenarios.

Section ExtraHubScenarios.

Import Hub.

Lemma register_announces_and_lists_third_socket :
  3 ∈ opened threeSockets /\
  exists announced l,
    wire (on_message 3 (register "c") threeSockets) =
      wire threeSockets ++ announced ++ [(3, peer_list l)] /\
    (forall p, p ∈ l <-> p ≠ "c" /\ is_Some (peers threeSockets !! p)).
Proof.
  assert (H : 3 ∈ opened threeSockets) by (vm_compute; reflexivity).
  split; [exact H |].
  destruct (register_announces_and_lists 3 "c" threeSockets H)
    as (announced & l & Hw & _ & Hl & _).
  exists announced, l. split; [exact Hw | exact Hl].
Defined.

Lemma twoTabs_only_a (q : string) : peers twoTabs !! q = Some 2 -> q = "a".
Proof.
  intros H. destruct (decide (q = "a")) as [-> | Hne]; [reflexivity |].
  assert (Hp : peers twoTabs = <["a":=2]> (<["a":=1]> ∅)) by reflexivity.
  rewrite Hp, !lookup_insert_ne, lookup_empty in H by congruence. discriminate.
Qed.

Lemma close_unbinds_by_peerId_in_twoTabs :
  peerIdOf twoTabs !! 1 = Some "a" /\ peers twoTabs !! "a" = Some 2 /\
  peers (on_close 1 twoTabs) !! "a" = None /\
  2 ∈ opened (on_close 1 twoTabs).
Proof.
  assert (H1 : peerIdOf twoTabs !! 1 = Some "a") by (vm_compute; reflexivity).
  assert (H2 : peers twoTabs !! "a" = Some 2) by (vm_compute; reflexivity).
  assert (H3 : 2 ∈ opened twoTabs) by (vm_compute; reflexivity).
  destruct (close_unbinds_by_peerId 1 2 2 "a" hello JUndefined twoTabs
              H1 eq_refl H2 twoTabs_only_a) as (Hp & _ & Ho & _).
  split; [exact H1 |]. split; [exact H2 |]. split; [exact Hp |].
  apply Ho; [lia | exact H3].
Defined.

Lemma register_then_close_round_trip_third_socket :
  peers threeSockets !! "c" = None /\ nonempty "c" = true /\
  peers (on_close 3 (on_message 3 (register "c") threeSockets)) = peers threeSockets.
Proof.
  assert (H : peers threeSockets !! "c" = None) by (vm_compute; reflexivity).
  split; [exact H |]. split; [reflexivity |].
  exact (proj1 (register_then_close_round_trip 3 "c" threeSockets H eq_refl)).
Defined.

End ExtraHubScenarios.

(** * Further properties: how long the dedupe store remembers *)

Section DedupeMemory.

Variable crypto : CryptoUtils.

Lemma marked_fresh (x : string) (d : list string) :
  ~ In x d -> length d <= 1000 -> marked x d = keepLast 1000 (d ++ [x]).
Proof.
  intros Hx Hlen. unfold marked, keepLast.
  apply includes_false in Hx. rewrite Hx, length_app. simpl.
  destruct (Nat.ltb_spec (length d) 1000) as [Hlt | Hge].
  - replace (length d + 1 - 1000) with 0 by lia. reflexivity.
  - replace (length d + 1 - 1000) with 1 by lia.
    destruct d; [simpl in Hge; lia | reflexivity].
Qed.

Lemma keepLast_small (l : list string) : length l <= 1000 -> keepLast 1000 l = l.
Proof. intros H. unfold keepLast. now replace (length l - 1000) with 0 by lia. Qed.

Lemma keepLast_app (l xs : list string) :
  keepLast 1000 (keepLast 1000 l ++ xs) = keepLast 1000 (l ++ xs).
Proof.
  destruct (Nat.le_gt_cases (length l) 1000) as [Hle | Hgt].
  - now rewrite (keepLast_small l).
  - unfold keepLast.
    rewrite !length_app, length_drop.
    replace (length l - (length l - 1000) + length xs - 1000) with (length xs) by lia.
    rewrite !drop_app, drop_drop, length_drop.
    f_equal; f_equal; lia.
Qed.

Lemma fold_marked_fresh (xs d : list string) :
  length d <= 1000 -> NoDup xs -> (forall x, In x xs -> ~ In x d) ->
  fold_left (fun d x => marked x d) xs d = keepLast 1000 (d ++ xs).
Proof.
  revert d. induction xs as [| x xs IH]; intros d Hlen Hnd Hfresh; simpl.
  - rewrite app_nil_r. now rewrite keepLast_small.
  - rewrite marked_fresh by (try apply Hfresh; auto; now left).
    apply NoDup_cons in Hnd. destruct Hnd as [Hx Hnd].
    rewrite IH.
    + rewrite keepLast_app, <- app_assoc. reflexivity.
    + unfold keepLast. rewrite length_drop, length_app. simpl. lia.
    + assumption.
    + intros y Hy Hin. unfold keepLast in Hin.
      apply list_elem_of_In, (subseteq_drop _ _ y), list_elem_of_In in Hin.
      apply in_app_or in Hin. destruct Hin as [Hin | [-> | []]].
      * apply (Hfresh y); [now right | assumption].
      * apply Hx. now apply list_elem_of_In.
Qed.

Lemma fold_markAsProcessed_dedupe (xs : list string) (s : Store) :
  dedupe (fold_left (fun s x => MessageStore.markAsProcessed x s) xs s) =
  fold_left (fun d x => marked x d) xs (dedupe s).
Proof.
  revert s. induction xs as [| x xs IH]; intros s; simpl; [reflexivity |].
  now rewrite IH, markAsProcessed_dedupe.
Qed.

(** X22. A msg_id that is marked when the dedupe store does not hold it is
    remembered while the next 999 new ids are marked and is forgotten with
    the 1000th: after [k] further distinct ids that the store did not hold,
    [isDuplicate] still answers true exactly when [k] is below 1000. *)
Theorem id_remembered_for_999_new_ids (s : Store) (msgId : string)
    (later : list string) :
  length (dedupe s) <= 1000 ->
  ~ In msgId (dedupe s) ->
  NoDup later ->
  (forall x, In x later -> x <> msgId /\ ~ In x (dedupe s)) ->
  MessageStore.isDuplicate msgId
    (fold_left (fun s x => MessageStore.markAsProcessed x s) later
       (MessageStore.markAsProcessed msgId s))
  = Nat.ltb (length later) 1000.
Proof.
  intros Hlen Hid Hnd Hfresh.
  unfold MessageStore.isDuplicate.
  change (fold_left (fun s x => MessageStore.markAsProcessed x s) later
            (MessageStore.markAsProcessed msgId s))
    with (fold_left (fun s x => MessageStore.markAsProcessed x s) (msgId :: later) s).
  rewrite fold_markAsProcessed_dedupe, fold_marked_fresh.
  - unfold keepLast. rewrite length_app. simpl.
    destruct (Nat.ltb_spec (length later) 1000) as [Hlt | Hge].
    + apply includes_true.
      rewrite drop_app_le by lia. apply in_or_app. right. now left.
    + apply includes_false.
      rewrite drop_app_ge by lia.
      replace (length (dedupe s) + S (length later) - 1000 - length (dedupe s))
        with (S (length later - 1000)) by lia.
      simpl. intros Hin.
      apply list_elem_of_In, (subseteq_drop _ _ msgId), list_elem_of_In in Hin.
      destruct (Hfresh msgId Hin) as [Hne _]. now apply Hne.
  - assumption.
  - apply NoDup_cons. split; [| assumption].
    intros Hin%list_elem_of_In. destruct (Hfresh msgId Hin) as [Hne _]. now apply Hne.
  - intros x [<- | Hx]; [assumption | now apply Hfresh].
Qed.

(** X21. [clearAll] wipes the four collections and the dedupe list and
    leaves the admin mode and the admin keys alone; the node then no longer
    knows what it has seen, so an envelope it had handled before is handled
    again in full when it comes back: logged, handed to every handler and,
    with ttl left, forwarded. *)
Theorem clearAll_forgets_seen_messages now (m : MessageEnvelope) (n : MeshNetwork) :
  let n1 := ws_onmessage crypto now (MeshMessageIn m) n in
  let n2 := node_step crypto n1 ClearAll in
  (broadcasts (store n2), messageMesh (store n2), keyMesh (store n2),
   decrypted (store n2), dedupe (store n2)) = ([], [], [], [], []) /\
  (adminMode (store n2), adminPrivateKey (store n2), adminPublicKey (store n2))
  = (adminMode (store n), adminPrivateKey (store n), adminPublicKey (store n)) /\
  newEffects n2 (ws_onmessage crypto now (MeshMessageIn m) n2) =
    map (fun h => CallMessageHandler h m) (messageHandlers n)
    ++ (if (0 <? ttl m)%Z
        then [sendEffect (ws n) (MeshMessage (MessageFactory.addHop (nodeId n) now m))]
        else []) /\
  messageMesh (store (ws_onmessage crypto now (MeshMessageIn m) n2)) = [m].
Proof.
  cbv zeta. simpl.
  destruct (handleMessageEnvelope_shell crypto now m n)
    as (_ & Hh & _ & _ & _ & Hi & _ & Hw & _).
  split; [reflexivity |]. split.
  - destruct (MessageStore.isDuplicate (msg_id m) (store n)) eqn:Hdup.
    + now rewrite handleMessageEnvelope_duplicate.
    + rewrite handleMessageEnvelope_store by assumption.
      match goal with |- context [fold_left ?f ?hs ?s] =>
        destruct (fold_message_handlers_only crypto now m hs s)
          as (_ & _ & _ & _ & -> & -> & ->) end.
      simpl.
      now destruct (markAsProcessed_other_fields (msg_id m) (store n))
        as (_ & -> & -> & ->).
  - set (n2 := set_store _ _).
    assert (Hfresh : MessageStore.isDuplicate (msg_id m) (store n2) = false)
      by reflexivity.
    split.
    + rewrite (handleMessageEnvelope_newEffects crypto now m n2 Hfresh).
      unfold n2. simpl. now rewrite Hh, Hi, Hw.
    + rewrite (handleMessageEnvelope_store crypto now m n2 Hfresh).
      match goal with |- context [fold_left ?f ?hs ?s] =>
        destruct (fold_message_handlers_only crypto now m hs s)
          as (_ & -> & _) end.
      reflexivity.
Qed.

End DedupeMemory.

Section DedupeMemoryScenario.

Lemma id_remembered_for_999_new_ids_small :
  length (dedupe emptyStore) <= 1000 /\
  NoDup ["m2"; "m3"] /\
  MessageStore.isDuplicate "m1"
    (fold_left (fun s x => MessageStore.markAsProcessed x s) ["m2"; "m3"]
       (MessageStore.markAsProcessed "m1" emptyStore)) = true.
Proof.
  assert (Hnd : NoDup ["m2"; "m3"]).
  { apply NoDup_cons. split; [| apply NoDup_singleton].
    intros H%list_elem_of_singleton. discriminate. }
  split; [simpl; lia |]. split; [exact Hnd |].
  refine (id_remembered_for_999_new_ids emptyStore "m1" ["m2"; "m3"] _ _ Hnd _).
  - simpl. lia.
  - simpl. tauto.
  - intros x [<- | [<- | []]]; (split; [discriminate | simpl; tauto]).
Defined.

End DedupeMemoryScenario.
